(** * Netflix streaming pipeline: the event processor and the synthetic generator

    A shallow embedding of
    - [functions/process_events/__init__.py] (validator, enricher,
      dead-letter routing, batch loop),
    - [data_generator/models.py] and [data_generator/generator.py]
      (event model, user pool, single-event creation),
    with the properties of the pipeline stated and proved over it.

    Conventions of the embedding.
    - A Python [str] is represented by its UTF-8 encoding, held in a Rocq
      [string] (a sequence of bytes).  Equality, emptiness, concatenation
      and replacement of ASCII patterns agree with Python on that
      representation; slicing counts code points and is written out
      ([str_prefix]).
    - A Python [float] that comes off the wire is represented by its [repr];
      a float computed by the generator is represented by the rational it
      denotes.
    - A raised exception is a value of [exn]; a call that can raise returns
      a [result]. *)

From Stdlib Require Import ZArith QArith Qround Qabs Lia Lqa Ascii String.
From stdpp Require Import gmap strings list fin_maps pretty.

Set Warnings "-register-all,-clear-no-such-hyp".

Open Scope Z_scope.

(** ** Python runtime fragments *)

Module Py.

(** The exception classes that the modelled code can meet.  All of them are
    subclasses of [Exception]; [JSONDecodeError] and [UnicodeDecodeError]
    are subclasses of [ValueError]. *)
Inductive exn : Type :=
| UnicodeDecodeError
| JSONDecodeError
| ValueError
| KeyError
| AttributeError
| TypeError
| IndexError
| CosmosHttpResponseError (status_code : Z) (message : string)
| OtherError (name : string).

Definition is_ValueError (e : exn) : bool :=
  match e with
  | ValueError | JSONDecodeError | UnicodeDecodeError => true
  | _ => false
  end.

Definition is_KeyError (e : exn) : bool :=
  match e with KeyError => true | _ => false end.

Inductive result (A : Type) : Type :=
| Return (a : A)
| Raise (e : exn).
Arguments Return {A} a.
Arguments Raise {A} e.

#[export] Instance result_ret : MRet result := fun _ a => Return a.
#[export] Instance result_bind : MBind result := fun _ _ f m =>
  match m with
  | Return a => f a
  | Raise e => Raise e
  end.

(** Values produced by [json.loads]. *)
Inductive json : Type :=
| JNull
| JBool (b : bool)
| JInt (n : Z)
| JFloat (repr : string)
| JStr (s : string)
| JList (l : list json)
| JDict (d : gmap string json).

(** [bool(v)]. *)
Definition truthy (v : json) : bool :=
  match v with
  | JNull => false
  | JBool b => b
  | JInt n => negb (n =? 0)
  | JFloat r => negb (bool_decide (r = "0.0") || bool_decide (r = "-0.0"))
  | JStr s => negb (bool_decide (s = EmptyString))
  | JList l => match l with [] => false | _ => true end
  | JDict d => negb (bool_decide (dom d = ∅))
  end.

(** Lists and dicts have no hash. *)
Definition hashable (v : json) : bool :=
  match v with
  | JList _ | JDict _ => false
  | _ => true
  end.

(** [str(v)], as used by an f-string field.  The modelled code formats a
    value only after it has been hashed, so only the scalar cases are
    rendered; containers (whose [str] is built from the [repr] of their
    elements) are left out. *)
Definition py_str (v : json) : string :=
  match v with
  | JNull => "None"
  | JBool true => "True"
  | JBool false => "False"
  | JInt n => pretty n
  | JFloat r => r
  | JStr s => s
  | JList _ | JDict _ => EmptyString
  end.

(** [obj.get(key)]: only a dict has the method. *)
Definition py_get (obj : json) (key : string) : result json :=
  match obj with
  | JDict d => Return (default JNull (d !! key))
  | _ => Raise AttributeError
  end.

(** [obj.get(key, dflt)]. *)
Definition py_get_default (obj : json) (key : string) (dflt : json) : result json :=
  match obj with
  | JDict d => Return (default dflt (d !! key))
  | _ => Raise AttributeError
  end.

(** [obj[key]] for a string key. *)
Definition py_getitem (obj : json) (key : string) : result json :=
  match obj with
  | JDict d => match d !! key with
               | Some v => Return v
               | None => Raise KeyError
               end
  | _ => Raise TypeError
  end.

(** [v not in S] for a set [S] of strings: [v] is hashed first. *)
Definition py_not_in (v : json) (S : gset string) : result bool :=
  match v with
  | JStr s => Return (negb (bool_decide (s ∈ S)))
  | JList _ | JDict _ => Raise TypeError
  | _ => Return true
  end.

(** [s.replace(c, by)] for a one-character pattern. *)
Fixpoint str_replace (c : ascii) (by_ : string) (s : string) : string :=
  match s with
  | EmptyString => EmptyString
  | String a rest =>
      if bool_decide (a = c) then by_ +:+ str_replace c by_ rest
      else String a (str_replace c by_ rest)
  end.

(** [s[:n]]: the first [n] code points.  On the UTF-8 representation a
    code point starts at every byte that is not a continuation byte
    (10xxxxxx). *)
Definition byte_in (lo hi : N) (c : ascii) : bool :=
  ((lo <=? N_of_ascii c) && (N_of_ascii c <=? hi))%N.

Definition is_continuation (c : ascii) : bool := byte_in 128 191 c.

Fixpoint str_prefix (n : nat) (s : string) : string :=
  match s with
  | EmptyString => EmptyString
  | String c rest =>
      if is_continuation c then String c (str_prefix n rest)
      else match n with
           | O => EmptyString
           | S n' => String c (str_prefix n' rest)
           end
  end.

(** [len(s)]: the number of code points. *)
Fixpoint str_len (s : string) : N :=
  match s with
  | EmptyString => 0%N
  | String c rest => if is_continuation c then str_len rest else N.succ (str_len rest)
  end.

(** [len(s.encode("utf-8"))]. *)
Fixpoint byte_len (s : string) : N :=
  match s with
  | EmptyString => 0%N
  | String _ rest => N.succ (byte_len rest)
  end.

(** Well-formed UTF-8 (no overlong forms, no surrogates, at most U+10FFFF),
    which is what the strict decoder accepts. *)
Fixpoint utf8_valid (s : string) : bool :=
  match s with
  | EmptyString => true
  | String b0 s1 =>
      if byte_in 0 127 b0 then utf8_valid s1
      else if byte_in 194 223 b0 then
        match s1 with
        | String b1 s2 => is_continuation b1 && utf8_valid s2
        | _ => false
        end
      else if byte_in 224 239 b0 then
        match s1 with
        | String b1 (String b2 s3) =>
            (if byte_in 224 224 b0 then byte_in 160 191 b1
             else if byte_in 237 237 b0 then byte_in 128 159 b1
             else is_continuation b1)
            && is_continuation b2 && utf8_valid s3
        | _ => false
        end
      else if byte_in 240 244 b0 then
        match s1 with
        | String b1 (String b2 (String b3 s4)) =>
            (if byte_in 240 240 b0 then byte_in 144 191 b1
             else if byte_in 244 244 b0 then byte_in 128 143 b1
             else is_continuation b1)
            && is_continuation b2 && is_continuation b3 && utf8_valid s4
        | _ => false
        end
      else false
  end.

(** [b.decode("utf-8")] on the bytes [b]. *)
Definition bytes_decode (b : string) : result string :=
  if utf8_valid b then Return b else Raise UnicodeDecodeError.

(** [obj[key] = v] for a string key. *)
Definition py_setitem (obj : json) (key : string) (v : json) : result json :=
  match obj with
  | JDict d => Return (JDict (<[key := v]> d))
  | _ => Raise TypeError
  end.

(** [v.replace("Z", "+00:00")]: only a [str] has the method. *)
Definition py_replace_Z (v : json) : result string :=
  match v with
  | JStr s => Return (str_replace "Z"%char "+00:00" s)
  | _ => Raise AttributeError
  end.

(** ["%0<w>d" % n]. *)
Definition zfill (w : nat) (n : N) : string :=
  let s := pretty n in
  String.concat EmptyString (replicate (w - String.length s) "0") +:+ s.

(** [datetime.datetime]; the offset of an aware value is kept in seconds. *)
Record datetime : Type := {
  dt_year : N; dt_month : N; dt_day : N;
  dt_hour : N; dt_minute : N; dt_second : N; dt_microsecond : N;
  dt_utcoffset : option Z
}.

(** [ts.strftime("%Y-%m-%dT%H:00:00Z")]. *)
Definition strftime_hour (ts : datetime) : string :=
  zfill 4 (dt_year ts) +:+ "-" +:+ zfill 2 (dt_month ts) +:+ "-" +:+
  zfill 2 (dt_day ts) +:+ "T" +:+ zfill 2 (dt_hour ts) +:+ ":00:00Z".

(** [ts.isoformat()] for offsets of whole minutes. *)
Definition format_offset (off : option Z) : string :=
  match off with
  | None => EmptyString
  | Some o =>
      (if o <? 0 then "-" else "+") +:+
      zfill 2 (Z.to_N (Z.abs o / 3600)) +:+ ":" +:+
      zfill 2 (Z.to_N ((Z.abs o / 60) mod 60))
  end.

Definition isoformat (ts : datetime) : string :=
  zfill 4 (dt_year ts) +:+ "-" +:+ zfill 2 (dt_month ts) +:+ "-" +:+
  zfill 2 (dt_day ts) +:+ "T" +:+ zfill 2 (dt_hour ts) +:+ ":" +:+
  zfill 2 (dt_minute ts) +:+ ":" +:+ zfill 2 (dt_second ts) +:+
  (if (dt_microsecond ts =? 0)%N then EmptyString else "." +:+ zfill 6 (dt_microsecond ts)) +:+
  format_offset (dt_utcoffset ts).

(** [str(u)] for a UUID [u], given as its 128-bit integer:
    32 lowercase hexadecimal digits in groups of 8-4-4-4-12. *)
Definition hex_digit (d : N) : ascii :=
  if (d <? 10)%N then ascii_of_N (48 + d) else ascii_of_N (87 + d).

Fixpoint hex_digits (w : nat) (n : N) : string :=
  match w with
  | O => EmptyString
  | S w' => hex_digits w' (n / 16) +:+ String (hex_digit (n mod 16)) EmptyString
  end.

Definition uuid_str (u : N) : string :=
  let h := hex_digits 32 u in
  substring 0 8 h +:+ "-" +:+ substring 8 4 h +:+ "-" +:+ substring 12 4 h +:+ "-" +:+
  substring 16 4 h +:+ "-" +:+ substring 20 12 h.

End Py.
Import Py.

(** ** The validator ([process_events/__init__.py]) *)

Definition VALID_EVENT_TYPES : gset string :=
  {[ "video_start"; "video_pause"; "video_stop"; "video_complete"; "buffer_event" ]}.

Definition VALID_DEVICE_TYPES : gset string :=
  {[ "smart_tv"; "mobile"; "tablet"; "desktop"; "game_console"; "streaming_stick" ]}.

Definition REQUIRED_FIELDS : list string :=
  [ "event_id"; "event_type"; "user_id"; "content_id"; "timestamp" ].

(** One turn of the loop over the required fields. *)
Definition check_required (event : json) (errors : list string) (field : string)
  : result (list string) :=
  v ← py_get event field;
  mret (if negb (truthy v) then errors ++ ["missing required field: " +:+ field]
        else errors).

(** [if event.get(f) and event[f] not in valid: errors.append(f"invalid f: {event[f]}")],
    which the source writes once for [event_type] and once for [device_type]. *)
Definition check_enum (field : string) (valid : gset string)
    (event : json) (errors : list string) : result (list string) :=
  v ← py_get event field;
  if truthy v then
    x ← py_getitem event field;
    b ← py_not_in x valid;
    if b : bool then
      y ← py_getitem event field;
      mret (errors ++ ["invalid " +:+ field +:+ ": " +:+ py_str y])
    else mret errors
  else mret errors.

Definition _validate_event (event : json) : result (list string) :=
  errors ← foldl (fun acc field => errors ← acc; check_required event errors field)
                 (mret []) REQUIRED_FIELDS;
  errors ← check_enum "event_type" VALID_EVENT_TYPES event errors;
  errors ← check_enum "device_type" VALID_DEVICE_TYPES event errors;
  mret errors.

(** ** The host of the two programs

    Everything the code reaches outside this repository: the [json] and
    [datetime] library functions whose results depend on the interpreter,
    the clock, the entropy source, and the two Azure clients.  A client
    call answers with the exception it raised, if any. *)

Record Runtime : Type := {
  (** [json.loads]; [None] is [json.JSONDecodeError] *)
  json_loads : string → option json;
  (** [json.dumps] *)
  json_dumps : json → string;
  (** [datetime.fromisoformat]; [None] is [ValueError] *)
  fromisoformat : string → option datetime;
  (** the state of the outside world *)
  World : Type;
  (** [datetime.now(timezone.utc)] *)
  datetime_now : World → datetime * World;
  (** [uuid.uuid4()], as a 128-bit integer *)
  uuid4 : World → N * World;
  (** 53 random bits, the numerator of [random.random()] *)
  random_bits53 : World → N * World;
  (** the integer behind [random.choice] and [random.randint] *)
  random_int : World → N * World;
  (** [_get_cosmos_container()]: the container client, whose one method
      [upsert_item] is kept, or the error raised on the way to it *)
  cosmos_container : result (json → World → option exn * World);
  (** [_get_dlq_producer()]: [None] when no connection is configured,
      else the producer, of which [create_batch]; [add]; [send_batch] is kept *)
  dlq_producer : result (option (string → World → option exn * World))
}.

(** What the processor does to the outside, in order. *)
Inductive level : Type := INFO | WARNING | ERROR.

Inductive log_arg : Type :=
| LInt (n : Z)
| LStr (s : string)
| LStrs (l : list string).

Inductive effect : Type :=
| Log (lvl : level) (msg : string) (args : list log_arg)
| DlqWrite (payload : string) (failure : option exn)
| Upsert (body : json) (failure : option exn).

Section Processor.
Context (R : Runtime).

Record State : Type := mkState { world : World R; trace : list effect }.

(** Computations that read and change the world, leave a trace, and may raise. *)
Definition M (A : Type) : Type := State → result A * State.

#[export] Instance M_ret : MRet M := fun _ a st => (Return a, st).
#[export] Instance M_bind : MBind M := fun _ _ f m st =>
  match m st with
  | (Return a, st') => f a st'
  | (Raise e, st') => (Raise e, st')
  end.

Definition lift {A} (r : result A) : M A := fun st => (r, st).

Definition emit (e : effect) : M unit :=
  fun st => (Return tt, mkState (world st) (trace st ++ [e])).

Definition log (lvl : level) (msg : string) (args : list log_arg) : M unit :=
  emit (Log lvl msg args).

Definition ask {A} (f : World R → A * World R) : M A :=
  fun st => let '(a, w) := f (world st) in (Return a, mkState w (trace st)).

(** [try: body  except <classes>: handler]. *)
Definition try_except {A} (body : M A) (classes : exn → bool) (handler : exn → M A) : M A :=
  fun st =>
    match body st with
    | (Raise e, st') => if classes e then handler e st' else (Raise e, st')
    | r => r
    end.

Definition Exception (e : exn) : bool := true.

(** *** The enricher *)

Definition derive_hour_bucket (event : json) : result json :=
  t ← py_getitem event "timestamp";
  s ← py_replace_Z t;
  ts ← match fromisoformat R s with Some ts => Return ts | None => Raise ValueError end;
  py_setitem event "hour_bucket" (JStr (strftime_hour ts)).

Definition _enrich_event (event : json) : M json :=
  _ ← lift (py_get event "event_id");
  u ← ask (uuid4 R);
  i ← lift (py_get_default event "event_id" (JStr (uuid_str u)));
  event ← lift (py_setitem event "id" i);
  now ← ask (datetime_now R);
  event ← lift (py_setitem event "processed_at" (JStr (isoformat now)));
  event ← lift (py_setitem event "processing_version" (JStr "1.0.0"));
  try_except (lift (derive_hour_bucket event))
    (fun e => is_ValueError e || is_KeyError e)
    (fun _ => lift (py_setitem event "hour_bucket" JNull)).

(** *** Dead-letter routing *)

Definition dlq_envelope (raw_body : string) (errors : list string) (rejected_at : string) : json :=
  JDict (<["original_event" := JStr (str_prefix (Z.to_nat 8192) raw_body)]>
        (<["validation_errors" := JList (JStr <$> errors)]>
        (<["rejected_at" := JStr rejected_at]> ∅))).

Definition send_batch (producer : string → World R → option exn * World R)
    (payload : string) : M unit :=
  fun st =>
    let '(failure, w) := producer payload (world st) in
    let st' := mkState w (trace st ++ [DlqWrite payload failure]) in
    match failure with
    | None => (Return tt, st')
    | Some e => (Raise e, st')
    end.

Definition _send_to_dlq (raw_body : string) (errors : list string) : M unit :=
  producer ← lift (dlq_producer R);
  match producer with
  | None => log WARNING "DLQ producer not configured – dropping invalid event" []
  | Some producer =>
      try_except
        (now ← ask (datetime_now R);
         let dlq_payload := json_dumps R (dlq_envelope raw_body errors (isoformat now)) in
         _ ← send_batch producer dlq_payload;
         log INFO "Sent invalid event to DLQ" [])
        Exception
        (fun _ => log ERROR "Failed to send event to DLQ" [])
  end.

(** *** The batch loop *)

Record counters : Type := mkCounters { success_count : nat; error_count : nat }.

Definition upsert_call (container : json → World R → option exn * World R)
    (body : json) : M unit :=
  fun st =>
    let '(failure, w) := container body (world st) in
    let st' := mkState w (trace st ++ [Upsert body failure]) in
    match failure with
    | None => (Return tt, st')
    | Some e => (Raise e, st')
    end.

(** The body of [for event in events]; [event] is [event.get_body()]. *)
Definition loop_body (container : json → World R → option exn * World R)
    (event : string) (c : counters) : M counters :=
  raw_body ← lift (bytes_decode event);
  match json_loads R raw_body with
  | None =>
      _ ← log ERROR "Malformed JSON in event" [];
      _ ← _send_to_dlq raw_body ["invalid JSON"];
      mret (mkCounters (success_count c) (error_count c + 1))
  | Some data =>
      validation_errors ← lift (_validate_event data);
      match validation_errors with
      | _ :: _ =>
          _ ← log WARNING "Validation failed: %s" [LStrs validation_errors];
          _ ← _send_to_dlq raw_body validation_errors;
          mret (mkCounters (success_count c) (error_count c + 1))
      | [] =>
          enriched ← _enrich_event data;
          try_except
            (_ ← upsert_call container enriched;
             mret (mkCounters (success_count c + 1) (error_count c)))
            Exception
            (fun exc =>
               match exc with
               | CosmosHttpResponseError status_code message =>
                   _ ← log ERROR "Cosmos write failed (status=%s): %s"
                         [LInt status_code; LStr message];
                   mret (mkCounters (success_count c) (error_count c + 1))
               | _ =>
                   _ ← log ERROR "Unexpected error writing to Cosmos DB" [];
                   mret (mkCounters (success_count c) (error_count c + 1))
               end)
      end
  end.

Fixpoint for_events (container : json → World R → option exn * World R)
    (events : list string) (c : counters) : M counters :=
  match events with
  | [] => mret c
  | event :: rest =>
      c' ← loop_body container event c;
      for_events container rest c'
  end.

(** [main]; the Python function returns [None] after logging the two
    counters, the model hands them back as well. *)
Definition main (events : list string) : M counters :=
  _ ← log INFO "Received batch of %d events" [LInt (Z.of_nat (length events))];
  container ← lift (cosmos_container R);
  c ← for_events container events (mkCounters 0 0);
  _ ← log INFO "Batch complete: %d succeeded, %d failed out of %d"
        [LInt (Z.of_nat (success_count c)); LInt (Z.of_nat (error_count c));
         LInt (Z.of_nat (length events))];
  mret c.

End Processor.

Arguments mkState {R} world trace.
Arguments world {R} s.
Arguments trace {R} s.

(** ** The event model ([data_generator/models.py]) *)

Definition EventType : list string :=
  [ "video_start"; "video_pause"; "video_stop"; "video_complete"; "buffer_event" ].

Definition DeviceType : list string :=
  [ "smart_tv"; "mobile"; "tablet"; "desktop"; "game_console"; "streaming_stick" ].

(** The dict literals of the generator have fixed keys and are kept as records. *)
Record Location : Type := mkLocation {
  country : string; region : string; city : string; lat : Q; lon : Q
}.

Record QualitySettings : Type := mkQuality {
  resolution : string; bitrate_kbps : Z;
  audio_codec : string; video_codec : string; hdr_enabled : bool
}.

Record StreamingEvent : Type := mkEvent {
  event_id : string;
  event_type : string;
  user_id : string;
  session_id : string;
  content_id : string;
  content_title : string;
  content_type : string;
  timestamp : string;
  duration_seconds : Q;
  playback_position_seconds : Q;
  device_type : string;
  device_id : string;
  location : Location;
  quality_settings : QualitySettings;
  buffer_duration_ms : option Q;
  error_code : option string;
  profile_id : string;
  subscription_tier : string
}.

(** [repr] of a float that is a whole number of hundredths, as the
    generator's rounded values and the coordinates of the location table are. *)
Definition float_repr (q : Q) : string :=
  let h := Qfloor (Qabs q * 100 + (1 # 2)) in
  let ip := pretty (h / 100) in
  let f := h mod 100 in
  (if Qle_bool 0 q then EmptyString else "-") +:+ ip +:+ "." +:+
  (if f mod 10 =? 0 then pretty (f / 10) else zfill 2 (Z.to_N f)).

Definition json_of_location (l : Location) : json :=
  JDict (<["country" := JStr (country l)]> (<["region" := JStr (region l)]>
        (<["city" := JStr (city l)]> (<["lat" := JFloat (float_repr (lat l))]>
        (<["lon" := JFloat (float_repr (lon l))]> ∅))))).

Definition json_of_quality (q : QualitySettings) : json :=
  JDict (<["resolution" := JStr (resolution q)]> (<["bitrate_kbps" := JInt (bitrate_kbps q)]>
        (<["audio_codec" := JStr (audio_codec q)]> (<["video_codec" := JStr (video_codec q)]>
        (<["hdr_enabled" := JBool (hdr_enabled q)]> ∅))))).

(** [asdict(self)]: every field, [None] as null. *)
Definition asdict (e : StreamingEvent) : list (string * json) :=
  [ ("event_id", JStr (event_id e));
    ("event_type", JStr (event_type e));
    ("user_id", JStr (user_id e));
    ("session_id", JStr (session_id e));
    ("content_id", JStr (content_id e));
    ("content_title", JStr (content_title e));
    ("content_type", JStr (content_type e));
    ("timestamp", JStr (timestamp e));
    ("duration_seconds", JFloat (float_repr (duration_seconds e)));
    ("playback_position_seconds", JFloat (float_repr (playback_position_seconds e)));
    ("device_type", JStr (device_type e));
    ("device_id", JStr (device_id e));
    ("location", json_of_location (location e));
    ("quality_settings", json_of_quality (quality_settings e));
    ("buffer_duration_ms", from_option (fun x => JFloat (float_repr x)) JNull (buffer_duration_ms e));
    ("error_code", from_option JStr JNull (error_code e));
    ("profile_id", JStr (profile_id e));
    ("subscription_tier", JStr (subscription_tier e)) ].

(** [{k: v for k, v in data.items() if v is not None}]. *)
Definition is_not_None (v : json) : bool :=
  match v with JNull => false | _ => true end.

Definition to_dict (e : StreamingEvent) : gmap string json :=
  list_to_map (filter (fun kv => is_not_None kv.2) (asdict e)).

Definition to_json (R : Runtime) (e : StreamingEvent) : string :=
  json_dumps R (JDict (to_dict e)).

(** ** The generator ([data_generator/generator.py]) *)

Record Content : Type := mkContent {
  c_id : string; c_title : string; c_type : string; c_duration : Z
}.

Definition CONTENT_CATALOG : list Content := [
  mkContent "NF001" "Stranger Things S4" "tv_episode" 4500;
  mkContent "NF002" "Wednesday S1" "tv_episode" 2700;
  mkContent "NF003" "Glass Onion" "movie" 8400;
  mkContent "NF004" "All Quiet on the Western Front" "movie" 8880;
  mkContent "NF005" "The Crown S5" "tv_episode" 3600;
  mkContent "NF006" "Dahmer" "tv_episode" 3000;
  mkContent "NF007" "Our Planet II" "documentary" 3000;
  mkContent "NF008" "Squid Game S1" "tv_episode" 3300;
  mkContent "NF009" "The Witcher S3" "tv_episode" 3600;
  mkContent "NF010" "Heart of Stone" "movie" 7500;
  mkContent "NF011" "Dave Chappelle: The Closer" "special" 4200;
  mkContent "NF012" "Extraction 2" "movie" 7200;
  mkContent "NF013" "Black Mirror S6" "tv_episode" 4200;
  mkContent "NF014" "The Diplomat S1" "tv_episode" 2700;
  mkContent "NF015" "You S4" "tv_episode" 3000;
  mkContent "NF016" "Behind the Curve" "documentary" 5700;
  mkContent "NF017" "Rebel Moon" "movie" 8100;
  mkContent "NF018" "One Piece S1" "tv_episode" 3300;
  mkContent "NF019" "The Night Agent S1" "tv_episode" 2700;
  mkContent "NF020" "Luther: The Fallen Sun" "movie" 7800 ].

Definition LOCATIONS : list Location := [
  mkLocation "US" "California" "Los Angeles" (3405 # 100) (-11824 # 100);
  mkLocation "US" "New York" "New York" (4071 # 100) (-7400 # 100);
  mkLocation "US" "Texas" "Houston" (2976 # 100) (-9536 # 100);
  mkLocation "US" "Illinois" "Chicago" (4188 # 100) (-8763 # 100);
  mkLocation "UK" "England" "London" (5151 # 100) (-13 # 100);
  mkLocation "DE" "Bavaria" "Munich" (4814 # 100) (1158 # 100);
  mkLocation "JP" "Kanto" "Tokyo" (3568 # 100) (13969 # 100);
  mkLocation "BR" "Sao Paulo" "Sao Paulo" (-2355 # 100) (-4663 # 100);
  mkLocation "IN" "Maharashtra" "Mumbai" (1908 # 100) (7288 # 100);
  mkLocation "AU" "NSW" "Sydney" (-3387 # 100) (15121 # 100);
  mkLocation "CA" "Ontario" "Toronto" (4365 # 100) (-7938 # 100);
  mkLocation "FR" "Ile-de-France" "Paris" (4886 # 100) (235 # 100);
  mkLocation "KR" "Seoul" "Seoul" (3757 # 100) (12698 # 100);
  mkLocation "MX" "CDMX" "Mexico City" (1943 # 100) (-9913 # 100);
  mkLocation "ES" "Madrid" "Madrid" (4042 # 100) (-370 # 100) ].

Definition SUBSCRIPTION_TIERS : list string := [ "basic"; "standard"; "premium" ].

Definition QUALITY_MAP : list (string * list (string * Z)) := [
  ("basic", [ ("480p", 2500) ]);
  ("standard", [ ("720p", 5000); ("1080p", 8000) ]);
  ("premium", [ ("1080p", 8000); ("4K", 16000); ("4K_HDR", 20000) ]) ].

Definition DEVICE_WEIGHTS : list (string * Q) := [
  ("smart_tv", 35 # 100); ("mobile", 28 # 100); ("tablet", 10 # 100);
  ("desktop", 12 # 100); ("game_console", 8 # 100); ("streaming_stick", 7 # 100) ].

Definition EVENT_WEIGHTS : list (string * Q) := [
  ("video_start", 30 # 100); ("video_pause", 15 # 100); ("video_stop", 20 # 100);
  ("video_complete", 25 # 100); ("buffer_event", 10 # 100) ].

Record User : Type := mkUser {
  u_user_id : string;
  u_profile_id : string;
  u_device_type : string;
  u_device_id : string;
  u_location : Location;
  u_subscription_tier : string
}.

(** [round(x, ndigits)]: to the nearest multiple of [10^-ndigits], ties to
    the even one. *)
Definition round_half_even (x : Q) : Z :=
  let f := Qfloor x in
  let d := (x - inject_Z f)%Q in
  match (d ?= 1 # 2)%Q with
  | Lt => f
  | Gt => f + 1
  | Eq => if Z.even f then f else f + 1
  end.

Definition py_round (x : Q) (ndigits : nat) : Q :=
  let scale := 10 ^ Z.of_nat ndigits in
  Qred (inject_Z (round_half_even (x * inject_Z scale)) / inject_Z scale).

(** [d[key]] on a dict written as an association list. *)
Fixpoint assoc_getitem {A} (d : list (string * A)) (key : string) : result A :=
  match d with
  | [] => Raise KeyError
  | (k, v) :: rest => if bool_decide (k = key) then Return v else assoc_getitem rest key
  end.

(** [needle in haystack] for strings. *)
Fixpoint str_contains (needle haystack : string) : bool :=
  String.prefix needle haystack ||
  match haystack with
  | EmptyString => false
  | String _ rest => str_contains needle rest
  end.

Section Generator.
Context (R : Runtime).

Abbreviation M := (M R).

(** [random.random()]: a multiple of [2^-53] in [0, 1). *)
Definition random_random : M Q :=
  k ← ask R (random_bits53 R);
  mret (inject_Z (Z.of_N (k mod 2 ^ 53)) / inject_Z (2 ^ 53))%Q.

(** [random.choice(seq)]. *)
Definition random_choice {A} (seq : list A) : M A :=
  match seq with
  | [] => lift R (Raise IndexError)
  | a :: _ =>
      k ← ask R (random_int R);
      mret (nth (N.to_nat (k mod N.of_nat (length seq))) seq a)
  end.

(** [random.randint(a, b)]. *)
Definition random_randint (a b : Z) : M Z :=
  if b <? a then lift R (Raise ValueError)
  else
    k ← ask R (random_int R);
    mret (a + Z.of_N k mod (b - a + 1)).

(** [random.uniform(a, b)]. *)
Definition random_uniform (a b : Q) : M Q :=
  u ← random_random;
  mret (a + (b - a) * u)%Q.

Fixpoint accumulate (acc : Q) (weights : list Q) : list Q :=
  match weights with
  | [] => []
  | w :: rest => (acc + w)%Q :: accumulate (acc + w)%Q rest
  end.

(** [bisect(a, x, 0, hi)] by a scan from the left, which is what the
    binary search finds when [a] is sorted. *)
Fixpoint bisect (a : list Q) (x : Q) (hi : nat) : nat :=
  match hi, a with
  | S hi', c :: rest => if Qle_bool c x then S (bisect rest x hi') else O
  | _, _ => O
  end.

(** [random.choices(population, weights=weights, k=1)[0]]. *)
Definition random_choices1 {A} (population : list A) (weights : list Q) : M A :=
  match population with
  | [] => lift R (Raise IndexError)
  | a :: _ =>
      if negb (bool_decide (length weights = length population)) then lift R (Raise ValueError)
      else
        let cum_weights := accumulate 0 weights in
        let total := last cum_weights in
        match total with
        | None => lift R (Raise IndexError)
        | Some total =>
            if Qle_bool total 0 then lift R (Raise ValueError)
            else
              u ← random_random;
              mret (nth (bisect cum_weights (u * total)%Q (length population - 1)) population a)
        end
  end.

Record NetflixEventGenerator : Type := mkGenerator {
  events_per_second : Z;
  num_users : nat;
  dry_run : bool;
  users : list User
}.

(** One turn of the loop of [_build_user_pool]. *)
Definition build_user (i : nat) : M User :=
  tier ← random_choices1 SUBSCRIPTION_TIERS [20 # 100; 50 # 100; 30 # 100]%Q;
  p ← random_randint 1 5;
  device ← random_choices1 (DEVICE_WEIGHTS.*1) (DEVICE_WEIGHTS.*2);
  d ← ask R (uuid4 R);
  loc ← random_choice LOCATIONS;
  mret (mkUser ("U" +:+ zfill 7 (N.of_nat i))
               ("P" +:+ zfill 7 (N.of_nat i) +:+ "_" +:+ pretty p)
               device (uuid_str d) loc tier).

Fixpoint build_users (is_ : list nat) (users : list User) : M (list User) :=
  match is_ with
  | [] => mret users
  | i :: rest => u ← build_user i; build_users rest (users ++ [u])
  end.

Definition _build_user_pool (num_users : nat) : M (list User) :=
  build_users (seq 0 num_users) [].

(** [NetflixEventGenerator(events_per_second=eps, num_users=n, dry_run=d)]. *)
Definition init (eps : Z) (n : nat) (dry : bool) : M NetflixEventGenerator :=
  users ← _build_user_pool n;
  _ ← log R INFO "Generator initialised: eps=%d, users=%d, dry_run=%s"
        [LInt eps; LInt (Z.of_nat n); LStr (if dry then "True" else "False")];
  mret (mkGenerator eps n dry users).

Definition _generate_event (self : NetflixEventGenerator) : M StreamingEvent :=
  user ← random_choice (users self);
  content ← random_choice CONTENT_CATALOG;
  event_type ← random_choices1 (EVENT_WEIGHTS.*1) (EVENT_WEIGHTS.*2);
  let tier := u_subscription_tier user in
  tier_qualities ← lift R (assoc_getitem QUALITY_MAP tier);
  quality ← random_choice tier_qualities;
  playback_pos ← random_uniform 0 (inject_Z (c_duration content));
  duration ←
    (if bool_decide (event_type = "video_stop") || bool_decide (event_type = "video_complete")
     then random_uniform 0 (inject_Z (c_duration content))
     else mret 0%Q);
  buffer_ms ←
    (if bool_decide (event_type = "buffer_event")
     then x ← random_uniform 500 15000; mret (Some (py_round x 1))
     else mret None);
  session ← ask R (uuid4 R);
  now ← ask R (datetime_now R);
  eid ← ask R (uuid4 R);
  mret {|
    event_id := uuid_str eid;
    event_type := event_type;
    user_id := u_user_id user;
    session_id := uuid_str session;
    content_id := c_id content;
    content_title := c_title content;
    content_type := c_type content;
    timestamp := isoformat now;
    duration_seconds := py_round duration 2;
    playback_position_seconds := py_round playback_pos 2;
    device_type := u_device_type user;
    device_id := u_device_id user;
    location := u_location user;
    quality_settings :=
      mkQuality quality.1 quality.2 "AAC" "H.265" (str_contains "HDR" quality.1);
    buffer_duration_ms := buffer_ms;
    error_code := None;
    profile_id := u_profile_id user;
    subscription_tier := tier
  |}.

Fixpoint generate_batch (self : NetflixEventGenerator) (size : nat) : M (list StreamingEvent) :=
  match size with
  | O => mret []
  | S n => e ← _generate_event self; es ← generate_batch self n; mret (e :: es)
  end.

End Generator.

(** ** A reference host

    A concrete [Runtime] on which the programs can be run inside Rocq: a
    small JSON encoder and decoder, a parser for the timestamps that
    [isoformat] writes, and a scripted world in which every answer of the
    clock, of the entropy source and of the two clients is read off a list. *)

Module Ref.

Definition is_ws (c : ascii) : bool :=
  bool_decide (c = " "%char) || byte_in 9 10 c || byte_in 13 13 c.

Fixpoint skip_ws (s : string) : string :=
  match s with
  | String c rest => if is_ws c then skip_ws rest else s
  | EmptyString => s
  end.

Definition digit (c : ascii) : option N :=
  if byte_in 48 57 c then Some (N_of_ascii c - 48)%N else None.

(** exactly [n] decimal digits *)
Fixpoint digits (n : nat) (acc : N) (s : string) : option (N * string) :=
  match n with
  | O => Some (acc, s)
  | S n' =>
      match s with
      | String c rest => d ← digit c; digits n' (acc * 10 + d)%N rest
      | EmptyString => None
      end
  end.

(** the longest run of decimal digits *)
Fixpoint span_digits (s : string) : string * string :=
  match s with
  | String c rest =>
      if byte_in 48 57 c then let '(ds, r) := span_digits rest in (String c ds, r)
      else (EmptyString, s)
  | EmptyString => (EmptyString, EmptyString)
  end.

Fixpoint nat_of_digits (acc : N) (s : string) : N :=
  match s with
  | String c rest => nat_of_digits (acc * 10 + (N_of_ascii c - 48))%N rest
  | EmptyString => acc
  end.

(** *** Encoder *)

Definition dquote : ascii := ascii_of_N 34.
Definition backslash : ascii := ascii_of_N 92.

Fixpoint escape (s : string) : string :=
  match s with
  | EmptyString => EmptyString
  | String c rest =>
      (if bool_decide (c = dquote) then String backslash (String dquote EmptyString)
       else if bool_decide (c = backslash) then String backslash (String backslash EmptyString)
       else if byte_in 10 10 c then "\n"
       else if byte_in 9 9 c then "\t"
       else if byte_in 13 13 c then "\r"
       else if byte_in 0 31 c then "\u00" +:+ hex_digits 2 (N_of_ascii c)
       else String c EmptyString) +:+ escape rest
  end.

Definition quote (s : string) : string :=
  String dquote (escape s) +:+ String dquote EmptyString.

Fixpoint dumps (v : json) : string :=
  match v with
  | JNull => "null"
  | JBool true => "true"
  | JBool false => "false"
  | JInt n => pretty n
  | JFloat r => r
  | JStr s => quote s
  | JList l => "[" +:+ String.concat ", " (map dumps l) +:+ "]"
  | JDict d =>
      "{" +:+ String.concat ", "
                (map_fold (fun k x acc => (quote k +:+ ": " +:+ dumps x) :: acc) [] d)
      +:+ "}"
  end.

(** *** Decoder

    Objects, arrays, strings with the escapes that [escape] writes,
    integers, [true], [false] and [null]; a number with a fraction or an
    exponent is kept as written, which is its [repr] when it was written
    by [dumps]. *)

Definition unescape (e : ascii) : option ascii :=
  if bool_decide (e = dquote) then Some dquote
  else if bool_decide (e = backslash) then Some backslash
  else if bool_decide (e = "/"%char) then Some "/"%char
  else if bool_decide (e = "b"%char) then Some (ascii_of_N 8)
  else if bool_decide (e = "f"%char) then Some (ascii_of_N 12)
  else if bool_decide (e = "n"%char) then Some (ascii_of_N 10)
  else if bool_decide (e = "r"%char) then Some (ascii_of_N 13)
  else if bool_decide (e = "t"%char) then Some (ascii_of_N 9)
  else None.

Definition hex_value (c : ascii) : option N :=
  if byte_in 48 57 c then Some (N_of_ascii c - 48)%N
  else if byte_in 97 102 c then Some (N_of_ascii c - 87)%N
  else if byte_in 65 70 c then Some (N_of_ascii c - 55)%N
  else None.

(** the text after an opening quote, up to the closing one *)
Fixpoint parse_string (s : string) : option (string * string) :=
  match s with
  | EmptyString => None
  | String c rest =>
      if bool_decide (c = dquote) then Some (EmptyString, rest)
      else if bool_decide (c = backslash) then
        match rest with
        | String "u" (String "0" (String "0" (String h1 (String h0 rest')))) =>
            a ← hex_value h1; b ← hex_value h0;
            if (a <? 8)%N then
              '(str, r) ← parse_string rest'; Some (String (ascii_of_N (16 * a + b)) str, r)
            else None
        | String e rest' =>
            c' ← unescape e;
            '(str, r) ← parse_string rest'; Some (String c' str, r)
        | EmptyString => None
        end
      else if byte_in 0 31 c then None
      else '(str, r) ← parse_string rest; Some (String c str, r)
  end.

Definition parse_number (s : string) : option (json * string) :=
  let '(sign, s1) :=
    match s with
    | String "-" r => ("-", r)
    | _ => (EmptyString, s)
    end in
  let '(ip, s2) := span_digits s1 in
  if bool_decide (ip = EmptyString) then None
  else
    let '(frac, s3) :=
      match s2 with
      | String "." r => let '(fp, r') := span_digits r in ("." +:+ fp, r')
      | _ => (EmptyString, s2)
      end in
    let '(ex, s4) :=
      match s3 with
      | String "e" r =>
          match r with
          | String "-" r' => let '(ep, r'') := span_digits r' in ("e-" +:+ ep, r'')
          | String "+" r' => let '(ep, r'') := span_digits r' in ("e+" +:+ ep, r'')
          | _ => let '(ep, r'') := span_digits r in ("e" +:+ ep, r'')
          end
      | _ => (EmptyString, s3)
      end in
    if bool_decide (frac = EmptyString) && bool_decide (ex = EmptyString) then
      let n := Z.of_N (nat_of_digits 0 ip) in
      Some (JInt (if bool_decide (sign = EmptyString) then n else - n), s4)
    else if bool_decide (frac = ".") || bool_decide (ex = "e")
            || bool_decide (ex = "e-") || bool_decide (ex = "e+") then None
    else Some (JFloat (sign +:+ ip +:+ frac +:+ ex), s4).

Definition expect (lit : string) (v : json) (s : string) : option (json * string) :=
  if String.prefix lit s
  then Some (v, substring (String.length lit) (String.length s - String.length lit) s)
  else None.

Inductive task : Type :=
| TValue
| TElems (acc : list json)
| TMembers (acc : gmap string json).

Fixpoint parse (fuel : nat) (t : task) (s : string) : option (json * string) :=
  match fuel with
  | O => None
  | S fuel =>
      let s := skip_ws s in
      match t with
      | TValue =>
          match s with
          | String "{" rest =>
              match skip_ws rest with
              | String "}" rest' => Some (JDict ∅, rest')
              | _ => parse fuel (TMembers ∅) rest
              end
          | String "[" rest =>
              match skip_ws rest with
              | String "]" rest' => Some (JList [], rest')
              | _ => parse fuel (TElems []) rest
              end
          | String "n" _ => expect "null" JNull s
          | String "t" _ => expect "true" (JBool true) s
          | String "f" _ => expect "false" (JBool false) s
          | String c rest =>
              if bool_decide (c = dquote) then
                '(str, r) ← parse_string rest; Some (JStr str, r)
              else parse_number s
          | EmptyString => None
          end
      | TElems acc =>
          '(v, r) ← parse fuel TValue s;
          match skip_ws r with
          | String "," r' => parse fuel (TElems (acc ++ [v])) r'
          | String "]" r' => Some (JList (acc ++ [v]), r')
          | _ => None
          end
      | TMembers acc =>
          match s with
          | String c rest =>
              if bool_decide (c = dquote) then
                '(k, r) ← parse_string rest;
                match skip_ws r with
                | String ":" r' =>
                    '(v, r'') ← parse fuel TValue r';
                    match skip_ws r'' with
                    | String "," r3 => parse fuel (TMembers (<[k := v]> acc)) r3
                    | String "}" r3 => Some (JDict (<[k := v]> acc), r3)
                    | _ => None
                    end
                | _ => None
                end
              else None
          | EmptyString => None
          end
      end
  end.

Definition loads (s : string) : option json :=
  '(v, rest) ← parse (S (String.length s)) TValue s;
  if bool_decide (skip_ws rest = EmptyString) then Some v else None.

(** *** Timestamps

    The layouts [YYYY-MM-DD[*HH[:MM[:SS[.fff[fff]]]][+HH:MM]]], which every
    interpreter that has [fromisoformat] accepts. *)

Definition is_leap (y : N) : bool :=
  ((y mod 4 =? 0) && (negb (y mod 100 =? 0) || (y mod 400 =? 0)))%N.

Definition days_in_month (y m : N) : N :=
  (if m =? 2 then (if is_leap y then 29 else 28)
   else if (m =? 4) || (m =? 6) || (m =? 9) || (m =? 11) then 30
   else 31)%N.

Definition parse_offset (s : string) : option (option Z) :=
  match s with
  | EmptyString => Some None
  | String sg rest =>
      if bool_decide (sg = "+"%char) || bool_decide (sg = "-"%char) then
        '(hh, r1) ← digits 2 0 rest;
        match r1 with
        | String ":" r2 =>
            '(mm, r3) ← digits 2 0 r2;
            if bool_decide (r3 = EmptyString) && (hh <? 24)%N && (mm <? 60)%N then
              let secs := Z.of_N (hh * 3600 + mm * 60) in
              Some (Some (if bool_decide (sg = "-"%char) then - secs else secs))
            else None
        | _ => None
        end
      else None
  end.

Definition parse_fraction (s : string) : option (N * string) :=
  match s with
  | String "." r =>
      let '(ds, r') := span_digits r in
      if bool_decide (String.length ds = 6%nat) then Some (nat_of_digits 0 ds, r')
      else if bool_decide (String.length ds = 3%nat) then Some ((nat_of_digits 0 ds * 1000)%N, r')
      else None
  | _ => Some (0%N, s)
  end.

Definition parse_time (s : string) : option (N * N * N * N * string) :=
  '(hh, r1) ← digits 2 0 s;
  match r1 with
  | String ":" r2 =>
      '(mm, r3) ← digits 2 0 r2;
      match r3 with
      | String ":" r4 =>
          '(ss, r5) ← digits 2 0 r4;
          '(us, r6) ← parse_fraction r5;
          Some (hh, mm, ss, us, r6)
      | _ => Some (hh, mm, 0%N, 0%N, r3)
      end
  | _ => Some (hh, 0%N, 0%N, 0%N, r1)
  end.

Definition parse_isoformat (s : string) : option datetime :=
  '(y, r1) ← digits 4 0 s;
  match r1 with
  | String "-" r2 =>
      '(m, r3) ← digits 2 0 r2;
      match r3 with
      | String "-" r4 =>
          '(d, r5) ← digits 2 0 r4;
          if ((1 <=? y) && (1 <=? m) && (m <=? 12) && (1 <=? d) && (d <=? days_in_month y m))%N
          then
            match r5 with
            | EmptyString => Some (Build_datetime y m d 0 0 0 0 None)
            | String _ r6 =>
                '(hh, mm, ss, us, r7) ← parse_time r6;
                off ← parse_offset r7;
                if ((hh <? 24) && (mm <? 60) && (ss <? 60))%N
                then Some (Build_datetime y m d hh mm ss us off)
                else None
            end
          else None
      | _ => None
      end
  | _ => None
  end.

(** *** A scripted world *)

Record script : Type := mkWorld {
  clock : list datetime;
  uuids : list N;
  bits53 : list N;
  ints : list N;
  store_answers : list (option exn);
  dlq_answers : list (option exn)
}.

Definition epoch : datetime := Build_datetime 2025 1 15 14 30 0 0 (Some 0).

Definition next_datetime (w : script) : datetime * script :=
  (hd epoch (clock w),
   mkWorld (tl (clock w)) (uuids w) (bits53 w) (ints w) (store_answers w) (dlq_answers w)).

Definition next_uuid (w : script) : N * script :=
  (hd 0%N (uuids w),
   mkWorld (clock w) (tl (uuids w)) (bits53 w) (ints w) (store_answers w) (dlq_answers w)).

Definition next_bits53 (w : script) : N * script :=
  (hd 0%N (bits53 w),
   mkWorld (clock w) (uuids w) (tl (bits53 w)) (ints w) (store_answers w) (dlq_answers w)).

Definition next_int (w : script) : N * script :=
  (hd 0%N (ints w),
   mkWorld (clock w) (uuids w) (bits53 w) (tl (ints w)) (store_answers w) (dlq_answers w)).

Definition store_call (body : json) (w : script) : option exn * script :=
  (hd None (store_answers w),
   mkWorld (clock w) (uuids w) (bits53 w) (ints w) (tl (store_answers w)) (dlq_answers w)).

Definition dlq_call (payload : string) (w : script) : option exn * script :=
  (hd None (dlq_answers w),
   mkWorld (clock w) (uuids w) (bits53 w) (ints w) (store_answers w) (tl (dlq_answers w))).

Definition quiet : script := mkWorld [] [] [] [] [] [].


(** The reference host over the store [store]; [dlq] tells whether a
    dead-letter hub is configured. *)
Definition runtime_with (store : json → script → option exn * script) (dlq : bool)
  : Runtime := {|
  json_loads := loads;
  json_dumps := dumps;
  fromisoformat := parse_isoformat;
  World := script;
  datetime_now := next_datetime;
  uuid4 := next_uuid;
  random_bits53 := next_bits53;
  random_int := next_int;
  cosmos_container := Return store;
  dlq_producer := Return (if dlq then Some dlq_call else None)
|}.

Definition runtime (dlq : bool) : Runtime := runtime_with store_call dlq.

End Ref.

(** ** The claims, as the specification words them *)

(** "absent or empty": no such key, or a value that Python takes for false. *)
Definition absent_or_empty (d : gmap string json) (field : string) : bool :=
  match d !! field with
  | None => true
  | Some v => negb (truthy v)
  end.

Definition is_member (v : json) (S : gset string) : bool :=
  match v with
  | JStr s => bool_decide (s ∈ S)
  | _ => false
  end.

Definition missing_violations (d : gmap string json) : list string :=
  (fun field => "missing required field: " +:+ field)
    <$> filter (fun field => absent_or_empty d field) REQUIRED_FIELDS.

(** "if <field> is present and not in the closed set", with "present" read
    as "the key is there". *)
Definition present_enum_violation (field : string) (S : gset string)
    (d : gmap string json) : list string :=
  match d !! field with
  | Some v => if is_member v S then [] else ["invalid " +:+ field +:+ ": " +:+ py_str v]
  | None => []
  end.

Definition stated_violations (d : gmap string json) : list string :=
  missing_violations d
  ++ present_enum_violation "event_type" VALID_EVENT_TYPES d
  ++ present_enum_violation "device_type" VALID_DEVICE_TYPES d.

(** The same with "present" read as "present and not empty". *)
Definition enum_violation (field : string) (S : gset string)
    (d : gmap string json) : list string :=
  match d !! field with
  | Some v =>
      if truthy v && negb (is_member v S)
      then ["invalid " +:+ field +:+ ": " +:+ py_str v] else []
  | None => []
  end.

Definition violations (d : gmap string json) : list string :=
  missing_violations d
  ++ enum_violation "event_type" VALID_EVENT_TYPES d
  ++ enum_violation "device_type" VALID_DEVICE_TYPES d.

Definition no_violation (d : gmap string json) : Prop :=
  (∀ field, field ∈ REQUIRED_FIELDS → absent_or_empty d field = false) ∧
  (∀ v, d !! "event_type" = Some v → truthy v = true → is_member v VALID_EVENT_TYPES = true) ∧
  (∀ v, d !! "device_type" = Some v → truthy v = true → is_member v VALID_DEVICE_TYPES = true).

(** The value under [field] can go through the membership test: it is
    absent, false for Python, or has a hash. *)
Definition enum_checkable (d : gmap string json) (field : string) : bool :=
  match d !! field with
  | Some v => negb (truthy v) || hashable v
  | None => true
  end.

(** The four fields that the enricher sets. *)
Definition ENRICHMENT_FIELDS : gset string :=
  {[ "id"; "processed_at"; "processing_version"; "hour_bucket" ]}.

(** "floor to the hour and format as YYYY-MM-DDTHH:00:00Z". *)
Definition floor_to_hour (ts : datetime) : datetime :=
  {| dt_year := dt_year ts; dt_month := dt_month ts; dt_day := dt_day ts;
     dt_hour := dt_hour ts; dt_minute := 0; dt_second := 0; dt_microsecond := 0;
     dt_utcoffset := dt_utcoffset ts |}.

Definition format_seconds_Z (ts : datetime) : string :=
  zfill 4 (dt_year ts) +:+ "-" +:+ zfill 2 (dt_month ts) +:+ "-" +:+
  zfill 2 (dt_day ts) +:+ "T" +:+ zfill 2 (dt_hour ts) +:+ ":" +:+
  zfill 2 (dt_minute ts) +:+ ":" +:+ zfill 2 (dt_second ts) +:+ "Z".

(** What the enricher stores under [hour_bucket] for the payload [d]: the
    bucket of a timestamp that parses, null for an absent timestamp and for
    a text that does not parse; a timestamp that is not a text has no
    [replace]. *)
Definition hour_bucket_value (R : Runtime) (d : gmap string json) : result json :=
  match d !! "timestamp" with
  | None => Return JNull
  | Some (JStr s) =>
      match fromisoformat R (str_replace "Z"%char "+00:00" s) with
      | Some ts => Return (JStr (format_seconds_Z (floor_to_hour ts)))
      | None => Return JNull
      end
  | Some _ => Raise AttributeError
  end.

(** The payload with the three other fields set. *)
Definition with_metadata (d : gmap string json) (u : N) (now : datetime)
  : gmap string json :=
  <["processing_version" := JStr "1.0.0"]>
    (<["processed_at" := JStr (isoformat now)]>
       (<["id" := default (JStr (uuid_str u)) (d !! "event_id")]> d)).

Definition timestamp_is_text (d : gmap string json) : bool :=
  match d !! "timestamp" with
  | None | Some (JStr _) => true
  | Some _ => false
  end.

(** The map held by a returned value, for naming the result of a run. *)
Definition dict_of (r : result json) : gmap string json :=
  match r with
  | Return (JDict d) => d
  | _ => ∅
  end.

(** The fate of one item of a batch, as far as it depends on the item alone. *)
Inductive verdict : Type :=
| Undecodable
| Malformed (raw_body : string)
| Crashing (e : exn)
| Invalid (raw_body : string) (errors : list string)
| Valid (data : gmap string json).

Definition classify (R : Runtime) (event : string) : verdict :=
  match bytes_decode event with
  | Raise _ => Undecodable
  | Return raw_body =>
      match json_loads R raw_body with
      | None => Malformed raw_body
      | Some data =>
          match _validate_event data with
          | Raise e => Crashing e
          | Return (e :: errors) => Invalid raw_body (e :: errors)
          | Return [] =>
              match data with
              | JDict d => if timestamp_is_text d then Valid d else Crashing AttributeError
              | _ => Crashing AttributeError
              end
          end
      end
  end.

(** The item fails validation: it decodes and the validator reports violations. *)
Definition fails_validation (R : Runtime) (event : string) : bool :=
  match classify R event with Invalid _ _ => true | _ => false end.

(** The item decodes, validates and reaches the store. *)
Definition is_valid (R : Runtime) (event : string) : bool :=
  match classify R event with Valid _ => true | _ => false end.

(** The item ends in one of the four outcomes that the loop counts:
    decode-failed, validation-failed, persisted or persist-failed. *)
Definition is_counted (R : Runtime) (event : string) : bool :=
  match classify R event with
  | Malformed _ | Invalid _ _ | Valid _ => true
  | Undecodable | Crashing _ => false
  end.

(** The store accepts every write. *)
Definition always_accepts {W : Type} (container : json → W → option exn * W) : Prop :=
  ∀ body w, (container body w).1 = None.

Definition add_success (c : counters) : counters :=
  mkCounters (success_count c + 1) (error_count c).

Definition add_error (c : counters) : counters :=
  mkCounters (success_count c) (error_count c + 1).

(** What a write to the store adds to the trace. *)
Definition upsert_trace (body : json) (failure : option exn) : list effect :=
  Upsert body failure ::
  match failure with
  | None => []
  | Some (CosmosHttpResponseError status_code message) =>
      [Log ERROR "Cosmos write failed (status=%s): %s" [LInt status_code; LStr message]]
  | Some _ => [Log ERROR "Unexpected error writing to Cosmos DB" []]
  end.

(** What a call of [_send_to_dlq] adds to the trace when a producer is there. *)
Definition dlq_trace (payload : string) (failure : option exn) : list effect :=
  [ DlqWrite payload failure;
    match failure with
    | None => Log INFO "Sent invalid event to DLQ" []
    | Some _ => Log ERROR "Failed to send event to DLQ" []
    end ].

Definition is_dlq_write (e : effect) : bool :=
  match e with DlqWrite _ _ => true | _ => false end.

Definition is_ascii (s : string) : bool :=
  forallb (fun c => byte_in 0 127 c) (list_ascii_of_string s).

(** The resolutions open to a subscription tier, as the specification lists them. *)
Definition tier_resolutions (tier : string) : list string :=
  if bool_decide (tier = "basic") then [ "480p" ]
  else if bool_decide (tier = "standard") then [ "720p"; "1080p" ]
  else if bool_decide (tier = "premium") then [ "1080p"; "4K"; "4K_HDR" ]
  else [].

(** What the claim on generated events asks of an event, but for the
    bounds of the buffer duration, which [in_range] gives. *)
Definition event_shape (in_range : Q → Prop) (e : StreamingEvent) : Prop :=
  event_type e ∈ EventType ∧
  device_type e ∈ DeviceType ∧
  (∃ digits, user_id e = "U" +:+ digits) ∧
  (is_Some (buffer_duration_ms e) ↔ event_type e = "buffer_event") ∧
  (∀ x, buffer_duration_ms e = Some x → in_range x) ∧
  (¬ (duration_seconds e == 0)%Q →
   event_type e = "video_stop" ∨ event_type e = "video_complete") ∧
  subscription_tier e ∈ SUBSCRIPTION_TIERS ∧
  resolution (quality_settings e) ∈ tier_resolutions (subscription_tier e).

(** "strictly between 500 and 15000" *)
Definition strictly_between (x : Q) : Prop := (500 < x)%Q ∧ (x < 15000)%Q.

(** between 500 and 15000, both included *)
Definition between (x : Q) : Prop := (500 <= x)%Q ∧ (x <= 15000)%Q.

(** What the pool promises of each user. *)
Definition user_shape (u : User) : Prop :=
  (∃ digits, u_user_id u = "U" +:+ digits) ∧
  u_device_type u ∈ DeviceType ∧
  u_subscription_tier u ∈ SUBSCRIPTION_TIERS.

(** ** Inputs used in the examples *)

(** 25000 times the letter e with an acute accent, which UTF-8 writes on two bytes *)
Definition e_acute : string := String (ascii_of_N 195) (String (ascii_of_N 169) EmptyString).

Fixpoint str_repeat (n : nat) (s : string) : string :=
  match n with
  | O => EmptyString
  | S n' => s +:+ str_repeat n' s
  end.

Definition accented_payload : string := str_repeat (Z.to_nat 25000) e_acute.

(** one byte that no UTF-8 text contains *)
Definition bad_utf8 : string := String (ascii_of_N 255) EmptyString.

Definition valid_payload : gmap string json :=
  <["event_id" := JStr "abc-123"]> (<["event_type" := JStr "video_start"]>
  (<["user_id" := JStr "U0000001"]> (<["content_id" := JStr "NF001"]>
  (<["timestamp" := JStr "2025-01-15T14:30:00Z"]> (<["device_type" := JStr "smart_tv"]> ∅))))).

Definition unknown_type_payload : gmap string json :=
  <["event_type" := JStr "video_explode"]> valid_payload.

Definition empty_device_payload : gmap string json :=
  <["device_type" := JStr EmptyString]> valid_payload.

Definition list_type_payload : gmap string json :=
  <["event_type" := JList [JStr "video_start"]]> valid_payload.

(** a timestamp given as seconds since the epoch *)
Definition numeric_timestamp_payload : gmap string json :=
  <["timestamp" := JInt 1736951400]> valid_payload.

Definition bad_timestamp_payload : gmap string json :=
  <["timestamp" := JStr "not-a-timestamp"]> valid_payload.

(** a document that already went through the enricher once *)
Definition replayed_payload : gmap string json :=
  <["id" := JStr "stale"]> valid_payload.

Definition quiet_state (dlq : bool) : State (Ref.runtime dlq) :=
  @mkState (Ref.runtime dlq) Ref.quiet [].

Definition scripted_state (w : Ref.script) : State (Ref.runtime true) :=
  @mkState (Ref.runtime true) w [].


(** four raw payloads: valid, without event_id, not JSON, of unknown type *)
Definition valid_bytes : string := Ref.dumps (JDict valid_payload).
Definition no_id_bytes : string := Ref.dumps (JDict (delete "event_id" valid_payload)).
Definition not_json_bytes : string := "{not json".


Definition four_outcomes_batch : list string :=
  [ valid_bytes; not_json_bytes; no_id_bytes; valid_bytes ].

(** the store takes the first write and refuses the second *)
Definition throttled : Ref.script :=
  Ref.mkWorld [] [] [] [] [None; Some (CosmosHttpResponseError 429 "Too Many Requests")] [].

(** the store refuses the first write *)
Definition unavailable : Ref.script :=
  Ref.mkWorld [] [] [] [] [Some (CosmosHttpResponseError 503 "Service Unavailable")] [].

(** entropy for a pool of one user and then one event: the draw of the
    event type is the last value below one, which selects buffer_event,
    and the draw of the buffer duration is zero *)
Definition pool_script : Ref.script :=
  Ref.mkWorld [] [5%N] [] [] [] [].

Definition buffer_script : Ref.script :=
  Ref.mkWorld [] [6%N; 7%N] [9007199254740991%N; 0%N; 0%N] [] [] [].

Definition one_user_pool : list User :=
  match (init (Ref.runtime true) 100 1 true (scripted_state pool_script)).1 with
  | Return g => users g
  | Raise _ => []
  end.

Definition one_user_generator : NetflixEventGenerator :=
  mkGenerator 100 1 true one_user_pool.

(** the event that [one_user_generator] returns on [buffer_script] *)
Definition bound_event : StreamingEvent := {|
  event_id := "00000000-0000-0000-0000-000000000007";
  event_type := "buffer_event";
  user_id := "U0000000";
  session_id := "00000000-0000-0000-0000-000000000006";
  content_id := "NF001";
  content_title := "Stranger Things S4";
  content_type := "tv_episode";
  timestamp := "2025-01-15T14:30:00+00:00";
  duration_seconds := 0;
  playback_position_seconds := 0;
  device_type := "smart_tv";
  device_id := "00000000-0000-0000-0000-000000000005";
  location := mkLocation "US" "California" "Los Angeles" (3405 # 100) (-11824 # 100);
  quality_settings := mkQuality "480p" 2500 "AAC" "H.265" false;
  buffer_duration_ms := Some 500%Q;
  error_code := None;
  profile_id := "P0000000_1";
  subscription_tier := "basic"
|}.


(** ** Further definitions for the properties of the processor *)

(** The six fields that the validator reads. *)
Definition VALIDATED_FIELDS : list string := REQUIRED_FIELDS ++ [ "device_type" ].

Definition is_upsert (e : effect) : bool :=
  match e with Upsert _ _ => true | _ => false end.

(** The item is handed to [_send_to_dlq]: it is not JSON or it has violations. *)
Definition is_rejected (R : Runtime) (event : string) : bool :=
  match classify R event with
  | Malformed _ | Invalid _ _ => true
  | _ => false
  end.

(** The dead-letter writes that one rejected item causes: one when a
    producer is there, none otherwise. *)
Definition writes_per_reject {A} (p : option A) : nat :=
  match p with Some _ => 1%nat | None => 0%nat end.

(** The exception with which the item ends the batch, if it does. *)
Definition aborting (R : Runtime) (event : string) : option exn :=
  match classify R event with
  | Undecodable => Some UnicodeDecodeError
  | Crashing e => Some e
  | _ => None
  end.

(** The reference host with the variable COSMOS_CONNECTION_STRING unset. *)
Definition storeless_runtime : Runtime := {|
  json_loads := Ref.loads;
  json_dumps := Ref.dumps;
  fromisoformat := Ref.parse_isoformat;
  World := Ref.script;
  datetime_now := Ref.next_datetime;
  uuid4 := Ref.next_uuid;
  random_bits53 := Ref.next_bits53;
  random_int := Ref.next_int;
  cosmos_container := Raise KeyError;
  dlq_producer := Return (Some Ref.dlq_call)
|}.

(** The reference host with a dead-letter connection string that the
    client rejects. *)
Definition misconfigured_runtime : Runtime := {|
  json_loads := Ref.loads;
  json_dumps := Ref.dumps;
  fromisoformat := Ref.parse_isoformat;
  World := Ref.script;
  datetime_now := Ref.next_datetime;
  uuid4 := Ref.next_uuid;
  random_bits53 := Ref.next_bits53;
  random_int := Ref.next_int;
  cosmos_container := Return Ref.store_call;
  dlq_producer := Raise ValueError
|}.

(** a clock that has moved on, and fresh entropy *)
Definition later : Ref.script :=
  Ref.mkWorld [Build_datetime 2025 3 1 9 5 7 0 (Some 0)] [99%N] [] [] [] [].

(** the bytes of the payload with the numeric timestamp *)
Definition numeric_timestamp_bytes : string := Ref.dumps (JDict numeric_timestamp_payload).

Definition misconfigured_state : State misconfigured_runtime :=
  @mkState misconfigured_runtime Ref.quiet [].

Definition storeless_state : State storeless_runtime :=
  @mkState storeless_runtime Ref.quiet [].

(** ** [StreamingEvent.validate] ([data_generator/models.py]) *)

(** The local list [required] of [validate]. *)
Definition validate_required : list string :=
  [ "event_id"; "event_type"; "user_id"; "content_id"; "timestamp"; "device_type" ].

(** The loop over [required]: the message of the first field that is not
    in [data] or is empty there, if there is one. *)
Fixpoint check_required_fields (data : gmap string json) (required : list string)
  : option string :=
  match required with
  | [] => None
  | field_name :: rest =>
      match data !! field_name with
      | None => Some ("Missing required field: " +:+ field_name)
      | Some v =>
          if negb (truthy v) then Some ("Missing required field: " +:+ field_name)
          else check_required_fields data rest
      end
  end.

(** [validate] raises [ValueError(message)], written [inl message], or
    returns [True], written [inr true]. *)
Definition validate (self : StreamingEvent) : string + bool :=
  let data := to_dict self in
  match check_required_fields data validate_required with
  | Some message => inl message
  | None =>
      let valid_events := EventType in
      if negb (bool_decide (event_type self ∈ valid_events))
      then inl ("Invalid event_type: " +:+ event_type self)
      else
        let valid_devices := DeviceType in
        if negb (bool_decide (device_type self ∈ valid_devices))
        then inl ("Invalid device_type: " +:+ device_type self)
        else inr true
  end.

(** The keys that [to_dict] always writes. *)
Definition ALWAYS_WRITTEN : gset string :=
  {[ "event_id"; "event_type"; "user_id"; "session_id"; "content_id"; "content_title";
     "content_type"; "timestamp"; "duration_seconds"; "playback_position_seconds";
     "device_type"; "device_id"; "location"; "quality_settings";
     "profile_id"; "subscription_tier" ]}.

(** The key of an optional field, when the field is set. *)
Definition key_if_set {A} (key : string) (field : option A) : gset string :=
  match field with Some _ => {[ key ]} | None => ∅ end.

(** ** Further definitions for the properties of the generator *)

(** The pairs of resolution and bitrate of [QUALITY_MAP], over all tiers. *)
Definition QUALITY_PAIRS : list (string * Z) := concat (QUALITY_MAP.*2).

(** The six user attributes of an event are those of [user]. *)
Definition of_user (user : User) (e : StreamingEvent) : Prop :=
  user_id e = u_user_id user ∧ profile_id e = u_profile_id user ∧
  device_type e = u_device_type user ∧ device_id e = u_device_id user ∧
  location e = u_location user ∧ subscription_tier e = u_subscription_tier user.

(** The three content attributes of an event are those of [content], and
    its two positions lie within the length of [content]. *)
Definition of_content (content : Content) (e : StreamingEvent) : Prop :=
  content_id e = c_id content ∧ content_title e = c_title content ∧
  content_type e = c_type content ∧
  (0 <= playback_position_seconds e)%Q ∧
  (playback_position_seconds e <= inject_Z (c_duration content))%Q ∧
  (0 <= duration_seconds e)%Q ∧
  (duration_seconds e <= inject_Z (c_duration content))%Q.

(** What [_build_user_pool] writes for the user of index [i]. *)
Definition pool_entry (i : nat) (u : User) : Prop :=
  u_user_id u = "U" +:+ zfill 7 (N.of_nat i) ∧
  (∃ k : Z, 1 ≤ k ≤ 5 ∧
            u_profile_id u = "P" +:+ zfill 7 (N.of_nat i) +:+ "_" +:+ pretty k) ∧
  u_device_type u ∈ DeviceType ∧
  u_location u ∈ LOCATIONS ∧
  u_subscription_tier u ∈ SUBSCRIPTION_TIERS.

(** The attributes that an event copies from its user, but for the user id. *)
Definition same_viewer (e1 e2 : StreamingEvent) : Prop :=
  profile_id e1 = profile_id e2 ∧ device_type e1 = device_type e2 ∧
  device_id e1 = device_id e2 ∧ location e1 = location e2 ∧
  subscription_tier e1 = subscription_tier e2.

(** entropy for a second event of the pool of one user: the draws of the
    event type and of the playback position are zero, which selects
    video_start at the start of the title *)
Definition start_script : Ref.script :=
  Ref.mkWorld [] [8%N; 9%N] [0%N; 0%N] [] [] [].

Definition start_event : StreamingEvent :=
  match (_generate_event (Ref.runtime true) one_user_generator
           (scripted_state start_script)).1 with
  | Return e => e
  | Raise _ => bound_event
  end.

(** ** Publishing ([NetflixEventGenerator._publish_batch])

    The producer client of the Event Hubs SDK is outside this
    repository.  [fits batch data] tells whether
    [batch.add(EventData(data))] takes [data] on a batch that holds
    [batch]; the call raises ValueError otherwise.  The two awaited calls
    answer with the exception they raised, if any. *)
Record EventHubProducerClient (R : Runtime) : Type := mkProducer {
  fits : list string → string → bool;
  create_batch : World R → option exn * World R;
  send_batch_call : list string → World R → option exn * World R
}.
Arguments mkProducer {R} fits create_batch send_batch_call.
Arguments fits {R} e batch data.
Arguments create_batch {R} e w.
Arguments send_batch_call {R} e batch w.

Section Publisher.
Context (R : Runtime).

(** The state of the host together with the batches that the hub has
    taken, oldest first. *)
Record Wire : Type := mkWire { host : State R; sent : list (list string) }.

Definition P (A : Type) : Type := Wire → result A * Wire.

#[export] Instance P_ret : MRet P := fun _ a s => (Return a, s).
#[export] Instance P_bind : MBind P := fun _ _ f m s =>
  match m s with
  | (Return a, s') => f a s'
  | (Raise e, s') => (Raise e, s')
  end.

(** A computation of the host that does not touch the hub. *)
Definition on_host {A} (m : M R A) : P A :=
  fun s => let '(r, st) := m (host s) in (r, mkWire st (sent s)).

Definition P_try {A} (body : P A) (classes : exn → bool) (handler : exn → P A) : P A :=
  fun s =>
    match body s with
    | (Raise e, s') => if classes e then handler e s' else (Raise e, s')
    | r => r
    end.

(** [await producer.create_batch()]: an empty batch. *)
Definition await_create_batch (producer : EventHubProducerClient R) : P (list string) :=
  fun s =>
    let '(failure, w) := create_batch producer (world (host s)) in
    let s' := mkWire (mkState w (trace (host s))) (sent s) in
    match failure with
    | None => (Return [], s')
    | Some e => (Raise e, s')
    end.

(** [await producer.send_batch(batch)]. *)
Definition await_send_batch (producer : EventHubProducerClient R) (batch : list string)
  : P unit :=
  fun s =>
    let '(failure, w) := send_batch_call producer batch (world (host s)) in
    match failure with
    | None => (Return tt, mkWire (mkState w (trace (host s))) (sent s ++ [batch]))
    | Some e => (Raise e, mkWire (mkState w (trace (host s))) (sent s))
    end.

(** [batch.add(EventData(data))]; the batch is returned with the datum in it. *)
Definition batch_add (producer : EventHubProducerClient R) (batch : list string)
    (data : string) : P (list string) :=
  fun s => (if fits producer batch data then Return (batch ++ [data]) else Raise ValueError, s).

(** One turn of the loop of [_publish_batch] on the variables [batch] and [added]. *)
Definition publish_event (producer : EventHubProducerClient R) (event : StreamingEvent)
    (vars : list string * nat) : P (list string * nat) :=
  let '(batch, added) := vars in
  P_try
    (batch ← batch_add producer batch (to_json R event);
     mret (batch, S added))
    is_ValueError
    (fun _ =>
       _ ← await_send_batch producer batch;
       batch ← await_create_batch producer;
       batch ← batch_add producer batch (to_json R event);
       mret (batch, S added)).

Fixpoint for_publish (producer : EventHubProducerClient R) (events : list StreamingEvent)
    (vars : list string * nat) : P (list string * nat) :=
  match events with
  | [] => mret vars
  | event :: rest =>
      vars ← publish_event producer event vars; for_publish producer rest vars
  end.

Definition _publish_batch (producer : EventHubProducerClient R)
    (events : list StreamingEvent) : P nat :=
  batch ← await_create_batch producer;
  vars ← for_publish producer events (batch, O);
  match vars.2 with
  | O => mret vars.2
  | S _ => _ ← await_send_batch producer vars.1; mret vars.2
  end.

End Publisher.

Arguments mkWire {R} host sent.
Arguments host {R} w.
Arguments sent {R} w.

(** Both awaited calls of the producer always succeed. *)
Definition reliable {R : Runtime} (producer : EventHubProducerClient R) : Prop :=
  (∀ w, (create_batch producer w).1 = None) ∧
  (∀ batch w, (send_batch_call producer batch w).1 = None).

(** An empty batch takes the wire form of the event. *)
Definition fits_alone {R : Runtime} (producer : EventHubProducerClient R)
    (e : StreamingEvent) : Prop :=
  fits producer [] (to_json R e) = true.

(** No batch takes the wire form of the event. *)
Definition oversized {R : Runtime} (producer : EventHubProducerClient R)
    (e : StreamingEvent) : Prop :=
  ∀ batch, fits producer batch (to_json R e) = false.

(** A producer on the reference host that always answers and whose
    batches take data up to [limit] bytes in all. *)
Definition bounded_producer (limit : N) : EventHubProducerClient (Ref.runtime true) :=
  mkProducer
    (fun batch data =>
       (foldr (fun d n => (byte_len d + n)%N) 0%N batch + byte_len data <=? limit)%N)
    (fun w => (None, w))
    (fun batch w => (None, w)).

Definition fresh_wire : Wire (Ref.runtime true) := mkWire (quiet_state true) [].

(** ** The publish loop of [NetflixEventGenerator.run]

    [batch_size = max(1, self.events_per_second // 10)]. *)
Definition batch_size (events_per_second : Z) : Z := Z.max 1 (events_per_second / 10).

(** The two counters of the generator. *)
Record Stats : Type := mkStats { _total_sent : nat; _errors : nat }.

Section PublishLoop.
Context (R : Runtime).

(** The statements of one turn of the loop that generate, publish and
    count:

      events = self.generate_batch(batch_size)
      try:
          sent = await self._publish_batch(producer, events)
          self._total_sent += sent
      except Exception:
          self._errors += 1
          logger.exception("Publish error (total errors: %d)", self._errors)
*)
Definition publish_and_count (producer : EventHubProducerClient R)
    (self : NetflixEventGenerator) (stats : Stats) : P R Stats :=
  events ← on_host R
    (generate_batch R self (Z.to_nat (batch_size (events_per_second self))));
  P_try R
    (sent ← _publish_batch R producer events;
     mret (mkStats (_total_sent stats + sent) (_errors stats)))
    Exception
    (fun _ =>
       let stats := mkStats (_total_sent stats) (S (_errors stats)) in
       _ ← on_host R (log R ERROR "Publish error (total errors: %d)"
                        [LInt (Z.of_nat (_errors stats))]);
       mret stats).

End PublishLoop.

(** A producer on the reference host that always answers and whose
    batches take [k] data. *)
Definition counting_producer (k : nat) : EventHubProducerClient (Ref.runtime true) :=
  mkProducer (fun batch data => bool_decide (length batch < k)%nat)
             (fun w => (None, w))
             (fun batch w => (None, w)).

(** the generator of one user at twenty events a second, and entropy
    for a batch of a video_start and a buffer_event *)
Definition slow_generator : NetflixEventGenerator :=
  mkGenerator 20 1 true one_user_pool.

Definition two_kinds_script : Ref.script :=
  Ref.mkWorld [] [] [0%N; 0%N; 9007199254740991%N; 0%N; 0%N] [] [] [].

Definition two_kinds_wire : Wire (Ref.runtime true) :=
  mkWire (scripted_state two_kinds_script) [].

Definition two_kinds_batch : list StreamingEvent :=
  match (generate_batch (Ref.runtime true) slow_generator 2
           (scripted_state two_kinds_script)).1 with
  | Return es => es
  | Raise _ => []
  end.

Definition first_of_two : StreamingEvent := nth 0 two_kinds_batch bound_event.
Definition second_of_two : StreamingEvent := nth 1 two_kinds_batch bound_event.

(** the generator that the constructor returns for a pool of no user *)
Definition no_user_generator : NetflixEventGenerator := mkGenerator 100 0 true [].

(** ** The two clients of the processor ([_get_cosmos_container], [_get_dlq_producer])

    The constructors of the Azure SDK are outside this repository: they
    are fields of [Sdk], and a call answers with a client or raises.
    [os.environ] is a map from names to values, and the module-level
    variables are the fields of [Globals]. *)
Section Clients.
Context {CosmosClient DatabaseProxy ContainerProxy ProducerClient : Type}.

Record Sdk : Type := mkSdk {
  CosmosClient_from_connection_string : string → result CosmosClient;
  get_database_client : CosmosClient → string → result DatabaseProxy;
  get_container_client : DatabaseProxy → string → result ContainerProxy;
  EventHubProducerClient_from_connection_string : string → string → result ProducerClient
}.

Record Globals : Type := mkGlobals {
  _cosmos_client : option CosmosClient;
  _cosmos_container : option ContainerProxy;
  _dlq_producer : option ProducerClient
}.

(** [os.environ.get(key, default)] *)
Definition environ_get (environ : gmap string string) (key default : string) : string :=
  match environ !! key with Some v => v | None => default end.

Definition _get_cosmos_container (sdk : Sdk) (environ : gmap string string) (g : Globals)
  : result ContainerProxy * Globals :=
  match _cosmos_container g with
  | Some container => (Return container, g)
  | None =>
      match environ !! "COSMOS_CONNECTION_STRING" with
      | None => (Raise KeyError, g)
      | Some conn_str =>
          let db_name := environ_get environ "COSMOS_DATABASE" "netflix-streaming" in
          let container_name :=
            environ_get environ "COSMOS_CONTAINER_EVENTS" "processed-events" in
          match CosmosClient_from_connection_string sdk conn_str with
          | Raise e => (Raise e, g)
          | Return client =>
              let g := mkGlobals (Some client) (_cosmos_container g) (_dlq_producer g) in
              match get_database_client sdk client db_name with
              | Raise e => (Raise e, g)
              | Return db =>
                  match get_container_client sdk db container_name with
                  | Raise e => (Raise e, g)
                  | Return container =>
                      (Return container,
                       mkGlobals (_cosmos_client g) (Some container) (_dlq_producer g))
                  end
              end
          end
      end
  end.

Definition _get_dlq_producer (sdk : Sdk) (environ : gmap string string) (g : Globals)
  : result (option ProducerClient) * Globals :=
  match _dlq_producer g with
  | Some producer => (Return (Some producer), g)
  | None =>
      let conn := environ_get environ "DEAD_LETTER_EVENTHUB_CONNECTION" EmptyString in
      let name := environ_get environ "DEAD_LETTER_EVENTHUB_NAME" "netflix-events-dlq" in
      if negb (bool_decide (conn = EmptyString)) then
        match EventHubProducerClient_from_connection_string sdk conn name with
        | Raise e => (Raise e, g)
        | Return producer =>
            (Return (Some producer),
             mkGlobals (_cosmos_client g) (_cosmos_container g) (Some producer))
        end
      else (Return None, g)
  end.

End Clients.

Arguments Sdk : clear implicits.
Arguments Globals : clear implicits.

(** An SDK whose clients are the names they were built from; it refuses
    an empty connection string. *)
Definition naming_sdk : Sdk string string string string :=
  mkSdk
    (fun conn_str => if bool_decide (conn_str = EmptyString) then Raise ValueError
                     else Return conn_str)
    (fun client db_name => Return (client +:+ "/" +:+ db_name))
    (fun db container_name => Return (db +:+ "/" +:+ container_name))
    (fun conn name =>
       if bool_decide (conn = EmptyString) then Raise ValueError
       else Return (conn +:+ "/" +:+ name)).

(** An SDK that is down. *)
Definition failing_sdk : Sdk string string string string :=
  mkSdk (fun _ => Raise (OtherError "ServiceRequestError"))
        (fun _ _ => Raise (OtherError "ServiceRequestError"))
        (fun _ _ => Raise (OtherError "ServiceRequestError"))
        (fun _ _ => Raise (OtherError "ServiceRequestError")).

Definition cold_start : Globals string string string := mkGlobals None None None.

Definition cosmos_only : gmap string string :=
  {[ "COSMOS_CONNECTION_STRING" := "AccountEndpoint=https://example/" ]}.

Definition with_dead_letter : gmap string string :=
  <["DEAD_LETTER_EVENTHUB_CONNECTION" := "Endpoint=sb://dlq/"]> cosmos_only.
(** * Properties *)

(** ** Validator *)

Lemma absent_or_empty_get (d : gmap string json) (field : string) :
  negb (truthy (default JNull (d !! field))) = absent_or_empty d field.
Proof. unfold absent_or_empty. by destruct (d !! field). Qed.

Lemma required_loop_spec (d : gmap string json) (fields : list string) (acc : list string) :
  foldl (fun acc field => errors ← acc; check_required (JDict d) errors field)
        (Return acc) fields
  = Return (acc ++ ((fun field => "missing required field: " +:+ field)
                      <$> filter (fun field => absent_or_empty d field) fields)).
Proof.
  revert acc. induction fields as [|f fields IH]; intros acc.
  - cbn. by rewrite app_nil_r.
  - cbn [foldl]. unfold check_required at 2. cbn [mbind result_bind py_get mret result_ret].
    rewrite absent_or_empty_get.
    destruct (absent_or_empty d f) eqn:Hf.
    + rewrite filter_cons_True by (cbv beta; rewrite Hf; exact I).
      rewrite IH, fmap_cons, <- app_assoc. done.
    + rewrite filter_cons_False by (cbv beta; rewrite Hf; intros []). apply IH.
Qed.

Lemma check_enum_spec (field : string) (S : gset string) (d : gmap string json)
    (errors : list string) :
  enum_checkable d field = true →
  check_enum field S (JDict d) errors = Return (errors ++ enum_violation field S d).
Proof.
  unfold enum_checkable, check_enum, enum_violation. simpl.
  destruct (d !! field) as [v|] eqn:Hf; simpl.
  - destruct (truthy v) eqn:Hv; simpl.
    + intros Hh. destruct v; simpl in *; try discriminate;
        try (by rewrite ?app_nil_r).
      destruct (bool_decide (s ∈ S)); simpl; by rewrite ?app_nil_r.
    + intros _. by rewrite app_nil_r.
  - intros _. by rewrite app_nil_r.
Qed.

Lemma validate_event_eq (d : gmap string json) :
  enum_checkable d "event_type" = true →
  enum_checkable d "device_type" = true →
  _validate_event (JDict d) = Return (violations d).
Proof.
  intros H1 H2. unfold _validate_event.
  change (mret []) with (Return (@nil string)).
  rewrite required_loop_spec. simpl.
  rewrite (check_enum_spec _ _ _ _ H1). simpl.
  rewrite (check_enum_spec _ _ _ _ H2). simpl.
  unfold violations, missing_violations. by rewrite app_assoc.
Qed.

#[local] Instance append_inj (p : string) : Inj (=) (=) (String.append p).
Proof.
  intros x y. induction p as [|c p IH]; simpl; [done|].
  intros H. injection H as H. auto.
Qed.

Lemma NoDup_REQUIRED_FIELDS : NoDup REQUIRED_FIELDS.
Proof. apply (bool_decide_unpack _). by vm_compute. Qed.

Lemma NoDup_missing_violations (d : gmap string json) : NoDup (missing_violations d).
Proof.
  unfold missing_violations.
  apply (NoDup_fmap_2 (String.append "missing required field: ")).
  apply NoDup_filter, NoDup_REQUIRED_FIELDS.
Qed.

Lemma elem_of_missing_violations (d : gmap string json) (x : string) :
  x ∈ missing_violations d → ∃ field, x = "missing required field: " +:+ field.
Proof.
  unfold missing_violations. intros [f [-> _]]%list_elem_of_fmap. by exists f.
Qed.

Lemma elem_of_enum_violation (field : string) (S : gset string) (d : gmap string json)
    (x : string) :
  x ∈ enum_violation field S d → ∃ s, x = "invalid " +:+ field +:+ ": " +:+ s.
Proof.
  unfold enum_violation. destruct (d !! field) as [v|]; [|by intros ?%elem_of_nil].
  destruct (truthy v && negb (is_member v S)); [|by intros ?%elem_of_nil].
  intros ->%list_elem_of_singleton. by exists (py_str v).
Qed.

Lemma NoDup_enum_violation (field : string) (S : gset string) (d : gmap string json) :
  NoDup (enum_violation field S d).
Proof.
  unfold enum_violation. destruct (d !! field) as [v|]; [|constructor].
  destruct (truthy v && negb (is_member v S)); [apply NoDup_singleton|constructor].
Qed.

Lemma NoDup_violations (d : gmap string json) : NoDup (violations d).
Proof.
  unfold violations. apply NoDup_app. split; [apply NoDup_missing_violations|]. split.
  - intros x [f ->]%elem_of_missing_violations [Hx|Hx]%elem_of_app;
      apply elem_of_enum_violation in Hx as [s Hs]; discriminate Hs.
  - apply NoDup_app. split; [apply NoDup_enum_violation|]. split; [|apply NoDup_enum_violation].
    intros x [s ->]%elem_of_enum_violation [s' Hs]%elem_of_enum_violation. discriminate Hs.
Qed.

Lemma enum_violation_nil (field : string) (S : gset string) (d : gmap string json) :
  enum_violation field S d = [] ↔
  (∀ v, d !! field = Some v → truthy v = true → is_member v S = true).
Proof.
  unfold enum_violation. destruct (d !! field) as [v|]; [|by split].
  destruct (truthy v) eqn:Hv, (is_member v S) eqn:Hm; simpl; split; try done.
  - intros _ w [= <-] _. done.
  - intros H. specialize (H v eq_refl Hv). congruence.
  - intros _ w [= <-]. by rewrite Hv.
  - intros _ w [= <-]. by rewrite Hv.
Qed.

Lemma missing_violations_nil (d : gmap string json) :
  missing_violations d = [] ↔
  (∀ field, field ∈ REQUIRED_FIELDS → absent_or_empty d field = false).
Proof.
  unfold missing_violations. split.
  - intros H%fmap_nil_inv f Hf.
    destruct (absent_or_empty d f) eqn:E; [|done].
    exfalso. eapply (filter_nil_not_elem_of _ _ f H); [|done].
    cbv beta. by rewrite E.
  - intros H. replace (filter _ REQUIRED_FIELDS) with (@nil string); [done|].
    symmetry. induction REQUIRED_FIELDS as [|f fs IH]; [done|].
    rewrite filter_cons_False.
    + apply IH. intros g Hg. apply H. by right.
    + cbv beta. rewrite H; [intros []|by left].
Qed.

(** C2 (amended).  For every decoded payload map whose [event_type] and
    [device_type] values can go through the membership test (absent, false
    for Python, or hashable), the validator returns exactly: for each
    required field, in the order event_id, event_type, user_id, content_id,
    timestamp, that is absent or false for Python, "missing required field:
    <name>"; then "invalid event_type: <value>" if [event_type] is present,
    not empty and not in the closed set; then the like for [device_type].
    No string appears twice, and the list is empty exactly when none of
    these violations occurs. *)
Theorem validate_event_violations (d : gmap string json) :
  enum_checkable d "event_type" = true →
  enum_checkable d "device_type" = true →
  _validate_event (JDict d) = Return (violations d)
  ∧ NoDup (violations d)
  ∧ (violations d = [] ↔ no_violation d).
Proof.
  intros H1 H2. split; [by apply validate_event_eq|]. split; [apply NoDup_violations|].
  unfold violations, no_violation.
  rewrite !app_nil, missing_violations_nil, !enum_violation_nil. done.
Qed.

Lemma validate_event_violations_witness :
  enum_checkable unknown_type_payload "event_type" = true ∧
  enum_checkable unknown_type_payload "device_type" = true ∧
  _validate_event (JDict unknown_type_payload) = Return ["invalid event_type: video_explode"].
Proof.
  split; [vm_compute; reflexivity|]. split; [vm_compute; reflexivity|].
  destruct (validate_event_violations unknown_type_payload) as [H _];
    [vm_compute; reflexivity|vm_compute; reflexivity|].
  rewrite H. vm_compute. reflexivity.
Defined.

(** C2, as stated, fails on a payload whose [device_type] is present and
    empty: the claim asks for "invalid device_type: ", the validator
    returns no violation. *)
Lemma validate_event_empty_device_type :
  stated_violations empty_device_payload = ["invalid device_type: "] ∧
  _validate_event (JDict empty_device_payload) = Return [] ∧
  _validate_event (JDict empty_device_payload) ≠ Return (stated_violations empty_device_payload).
Proof.
  split; [vm_compute; reflexivity|]. split; [vm_compute; reflexivity|].
  vm_compute. discriminate.
Qed.

(** A value without a hash under [event_type] makes the validator raise. *)
Lemma validate_event_unhashable :
  _validate_event (JDict list_type_payload) = Raise TypeError.
Proof. vm_compute. reflexivity. Qed.

(** A payload that is not a map makes the validator raise. *)
Lemma validate_event_not_a_map : _validate_event (JList []) = Raise AttributeError.
Proof. reflexivity. Qed.

(** ** Enricher *)

Section Enricher.
Context (R : Runtime).

Lemma strftime_hour_floor (ts : datetime) :
  strftime_hour ts = format_seconds_Z (floor_to_hour ts).
Proof. reflexivity. Qed.

Lemma with_metadata_timestamp (d : gmap string json) (u : N) (now : datetime) :
  with_metadata d u now !! "timestamp" = d !! "timestamp".
Proof. unfold with_metadata. by rewrite !lookup_insert_ne. Qed.

(** The enricher in one equation: the two external calls, then the three
    fields, then the bucket. *)
Lemma enrich_event_eq (d : gmap string json) (st : State R) :
  _enrich_event R (JDict d) st =
  let '(u, w) := uuid4 R (world st) in
  let '(now, w') := datetime_now R w in
  (hb ← hour_bucket_value R d;
   Return (JDict (<["hour_bucket" := hb]> (with_metadata d u now))),
   mkState w' (trace st)).
Proof.
  unfold _enrich_event, mbind at 1 2 3 4 5 6 7, M_bind, lift, ask, try_except.
  cbn [py_get py_get_default py_setitem].
  destruct (uuid4 R (world st)) as [u w]. cbn [world trace].
  destruct (datetime_now R w) as [now w']. cbn [world trace].
  fold (with_metadata d u now).
  unfold derive_hour_bucket, hour_bucket_value. cbn [py_getitem].
  rewrite with_metadata_timestamp.
  destruct (d !! "timestamp") as [[| | | |s| |]|]; try reflexivity.
  cbn. destruct (fromisoformat R _); reflexivity.
Qed.

(** A timestamp that parses: the bucket is the timestamp floored to the
    hour, written with a final Z. *)
Lemma enrich_hour_bucket_parsed (d : gmap string json) (st : State R) (s : string)
    (ts : datetime) :
  d !! "timestamp" = Some (JStr s) →
  fromisoformat R (str_replace "Z"%char "+00:00" s) = Some ts →
  ∃ d', (_enrich_event R (JDict d) st).1 = Return (JDict d') ∧
        d' !! "hour_bucket" = Some (JStr (format_seconds_Z (floor_to_hour ts))).
Proof.
  intros Ht Hp. rewrite enrich_event_eq.
  destruct (uuid4 R (world st)) as [u w], (datetime_now R w) as [now w'].
  unfold hour_bucket_value. rewrite Ht, Hp. cbn [mbind result_bind fst].
  eexists. split; [reflexivity|]. by rewrite lookup_insert_eq.
Qed.

(** A text that does not parse: the enricher returns, the bucket is null,
    and every other field is what it is for a timestamp that parses. *)
Lemma enrich_hour_bucket_unparsed (d : gmap string json) (st : State R) (s : string) :
  d !! "timestamp" = Some (JStr s) →
  fromisoformat R (str_replace "Z"%char "+00:00" s) = None →
  ∃ d', (_enrich_event R (JDict d) st).1 = Return (JDict d') ∧
        d' !! "hour_bucket" = Some JNull ∧
        ∀ k, k ≠ "hour_bucket" →
             d' !! k = with_metadata d (uuid4 R (world st)).1
                         (datetime_now R (uuid4 R (world st)).2).1 !! k.
Proof.
  intros Ht Hp. rewrite enrich_event_eq.
  destruct (uuid4 R (world st)) as [u w]. cbn [fst snd].
  destruct (datetime_now R w) as [now w']. cbn [fst snd].
  unfold hour_bucket_value. rewrite Ht, Hp. cbn [mbind result_bind].
  eexists. split; [reflexivity|]. split; [by rewrite lookup_insert_eq|].
  intros k Hk. by rewrite lookup_insert_ne.
Qed.

(** C3 (failing input).  The claim lets the enricher degrade on any
    timestamp that does not parse; on a payload whose timestamp is a number
    the enricher raises [AttributeError], which its handler for
    [ValueError] and [KeyError] lets through. *)
Theorem enrich_event_numeric_timestamp (st : State R) :
  (_enrich_event R (JDict numeric_timestamp_payload) st).1 = Raise AttributeError.
Proof.
  rewrite enrich_event_eq.
  destruct (uuid4 R (world st)) as [u w], (datetime_now R w) as [now w'].
  reflexivity.
Qed.

Lemma dom_with_metadata (d : gmap string json) (u : N) (now : datetime) (hb : json) :
  dom (<["hour_bucket" := hb]> (with_metadata d u now)) = dom d ∪ ENRICHMENT_FIELDS.
Proof. unfold with_metadata, ENRICHMENT_FIELDS. rewrite !dom_insert_L. set_solver. Qed.

Lemma lookup_with_metadata (d : gmap string json) (u : N) (now : datetime) (hb : json)
    (k : string) :
  k ∉ ENRICHMENT_FIELDS →
  <["hour_bucket" := hb]> (with_metadata d u now) !! k = d !! k.
Proof.
  unfold with_metadata, ENRICHMENT_FIELDS. intros Hk.
  rewrite !elem_of_union, !elem_of_singleton in Hk.
  rewrite !lookup_insert_ne; [done|intros <-; tauto..].
Qed.

(** C4 (amended).  For every payload whose timestamp is absent or a text,
    the enricher returns a map whose keys are those of the input together
    with id, processed_at, processing_version and hour_bucket; every field
    of the input other than these four keeps its value; id is the input's
    event_id when that key is present and a freshly generated identifier
    otherwise. *)
Theorem enrich_event_frame (d : gmap string json) (st : State R) :
  timestamp_is_text d = true →
  ∃ d', (_enrich_event R (JDict d) st).1 = Return (JDict d') ∧
        dom d' = dom d ∪ ENRICHMENT_FIELDS ∧
        (∀ k, k ∉ ENRICHMENT_FIELDS → d' !! k = d !! k) ∧
        d' !! "id" = Some (default (JStr (uuid_str (uuid4 R (world st)).1)) (d !! "event_id")).
Proof.
  intros Ht. rewrite enrich_event_eq.
  destruct (uuid4 R (world st)) as [u w]. cbn [fst snd].
  destruct (datetime_now R w) as [now w'].
  assert (∃ hb, hour_bucket_value R d = Return hb) as [hb Hhb].
  { unfold hour_bucket_value, timestamp_is_text in *.
    destruct (d !! "timestamp") as [[| | | |s| |]|]; try discriminate; eauto.
    destruct (fromisoformat R _); eauto. }
  rewrite Hhb. cbn [mbind result_bind fst]. eexists. split; [reflexivity|].
  split; [apply dom_with_metadata|]. split; [intros k; apply lookup_with_metadata|].
  rewrite lookup_insert_ne by done. unfold with_metadata.
  rewrite !lookup_insert_ne by done. by rewrite lookup_insert_eq.
Qed.

End Enricher.

Lemma enrich_event_frame_witness :
  timestamp_is_text bad_timestamp_payload = true ∧
  ∃ d', (_enrich_event (Ref.runtime true) (JDict bad_timestamp_payload) (quiet_state true)).1
        = Return (JDict d') ∧
        dom d' = dom bad_timestamp_payload ∪ ENRICHMENT_FIELDS ∧
        (∀ k, k ∉ ENRICHMENT_FIELDS → d' !! k = bad_timestamp_payload !! k) ∧
        d' !! "id" = Some (default (JStr (uuid_str (uuid4 (Ref.runtime true)
                                                    (world (quiet_state true))).1))
                                   (bad_timestamp_payload !! "event_id")).
Proof.
  split; [reflexivity|].
  apply (enrich_event_frame (Ref.runtime true) bad_timestamp_payload (quiet_state true)).
  reflexivity.
Defined.

(** C4, as stated, fails on a payload that already carries an [id]: the
    enricher replaces it by the event_id, so that not every field of the
    input keeps its value. *)
Lemma enrich_event_overwrites_id :
  replayed_payload !! "id" = Some (JStr "stale") ∧
  ∃ d', (_enrich_event (Ref.runtime true) (JDict replayed_payload) (quiet_state true)).1
        = Return (JDict d') ∧
        d' !! "id" = Some (JStr "abc-123") ∧
        ¬ (∀ k v, replayed_payload !! k = Some v → d' !! k = Some v).
Proof.
  split; [vm_compute; reflexivity|].
  exists (dict_of
            (_enrich_event (Ref.runtime true) (JDict replayed_payload) (quiet_state true)).1).
  split; [vm_compute; reflexivity|]. split; [vm_compute; reflexivity|].
  intros H. specialize (H "id" (JStr "stale")). vm_compute in H.
  specialize (H eq_refl). discriminate H.
Qed.

(** The two examples of the specification, on the reference host. *)
Example enrich_hour_bucket_example :
  ∃ d', (_enrich_event (Ref.runtime true) (JDict valid_payload) (quiet_state true)).1
        = Return (JDict d') ∧
        d' !! "hour_bucket" = Some (JStr "2025-01-15T14:00:00Z").
Proof.
  exists (dict_of
            (_enrich_event (Ref.runtime true) (JDict valid_payload) (quiet_state true)).1).
  split; vm_compute; reflexivity.
Qed.

Example enrich_bad_timestamp_example :
  ∃ d', (_enrich_event (Ref.runtime true) (JDict bad_timestamp_payload) (quiet_state true)).1
        = Return (JDict d') ∧
        d' !! "hour_bucket" = Some JNull.
Proof.
  exists (dict_of
            (_enrich_event (Ref.runtime true) (JDict bad_timestamp_payload)
               (quiet_state true)).1).
  split; vm_compute; reflexivity.
Qed.

(** The payload with the numeric timestamp passes the validator, so that
    the batch loop hands it to the enricher. *)
Lemma numeric_timestamp_validates :
  _validate_event (JDict numeric_timestamp_payload) = Return [].
Proof. vm_compute. reflexivity. Qed.

(** ** Dead-letter routing *)

Lemma str_len_prefix (n : nat) (s : string) : (str_len (str_prefix n s) ≤ N.of_nat n)%N.
Proof.
  revert n. induction s as [|c s IH]; intros n; simpl; [lia|].
  destruct (is_continuation c) eqn:Hc; simpl; rewrite ?Hc; [apply IH|].
  destruct n; simpl; rewrite ?Hc; [lia|]. specialize (IH n). lia.
Qed.

Lemma str_prefix_is_prefix (n : nat) (s : string) :
  ∃ rest, s = str_prefix n s +:+ rest.
Proof.
  revert n. induction s as [|c s IH]; intros n; [by exists EmptyString|].
  cbn [str_prefix]. destruct (is_continuation c).
  - destruct (IH n) as [rest Hrest]. exists rest.
    change (String c s = String c (str_prefix n s +:+ rest)). by f_equal.
  - destruct n; [by exists (String c s)|].
    destruct (IH n) as [rest Hrest]. exists rest.
    change (String c s = String c (str_prefix n s +:+ rest)). by f_equal.
Qed.

Lemma byte_len_ascii (s : string) : is_ascii s = true → byte_len s = str_len s.
Proof.
  unfold is_ascii. induction s as [|c s IH]; simpl; [done|].
  intros [Hc Hs]%andb_true_iff. rewrite (IH Hs).
  unfold is_continuation, byte_in in *.
  destruct (128 <=? N_of_ascii c)%N eqn:E; [|done].
  apply N.leb_le in E. apply andb_true_iff in Hc as [_ Hc%N.leb_le]. lia.
Qed.

Lemma is_ascii_prefix (n : nat) (s : string) :
  is_ascii s = true → is_ascii (str_prefix n s) = true.
Proof.
  unfold is_ascii. revert n. induction s as [|c s IH]; intros n; simpl; [done|].
  intros [Hc Hs]%andb_true_iff.
  destruct (is_continuation c); [simpl; by rewrite Hc, IH|].
  destruct n; [done|]. simpl. by rewrite Hc, IH.
Qed.

Lemma byte_in_sub (lo hi lo' hi' : N) (c : ascii) :
  (lo' ≤ lo)%N → (hi ≤ hi')%N → byte_in lo hi c = true → byte_in lo' hi' c = true.
Proof.
  unfold byte_in. intros Hlo Hhi [H1%N.leb_le H2%N.leb_le]%andb_true_iff.
  apply andb_true_iff. split; apply N.leb_le; lia.
Qed.

Lemma byte_in_apart (lo hi lo' hi' : N) (c : ascii) :
  (hi < lo' ∨ hi' < lo)%N → byte_in lo hi c = true → byte_in lo' hi' c = false.
Proof.
  unfold byte_in. intros Hd [H1%N.leb_le H2%N.leb_le]%andb_true_iff.
  apply andb_false_iff. rewrite !N.leb_gt. lia.
Qed.

Lemma lead_byte (lo hi : N) (c : ascii) :
  (hi < 128 ∨ 191 < lo)%N → byte_in lo hi c = true → is_continuation c = false.
Proof. intros H. unfold is_continuation. apply byte_in_apart. lia. Qed.

Lemma second_byte_continuation (b0 b1 : ascii) (lo hi lo' hi' : N) (x y : N) :
  (128 ≤ lo)%N → (hi ≤ 191)%N → (128 ≤ lo')%N → (hi' ≤ 191)%N →
  (if byte_in x x b0 then byte_in lo hi b1
   else if byte_in y y b0 then byte_in lo' hi' b1 else is_continuation b1) = true →
  is_continuation b1 = true.
Proof.
  intros ? ? ? ?. unfold is_continuation.
  destruct (byte_in x x b0); [by apply byte_in_sub|].
  destruct (byte_in y y b0); [by apply byte_in_sub|done].
Qed.

(** A text of [n] code points takes at most four bytes for each. *)
Lemma byte_len_prefix_utf8 (n : nat) (s : string) :
  utf8_valid s = true → (byte_len (str_prefix n s) ≤ 4 * N.of_nat n)%N.
Proof.
  assert (∀ m s n, (String.length s ≤ m)%nat → utf8_valid s = true →
                   (byte_len (str_prefix n s) ≤ 4 * N.of_nat n)%N) as H;
    [|by apply (H (String.length s))].
  clear n s. intros m. induction m as [|m IH]; intros s n Hlen Hv.
  { destruct s; [cbn; lia|cbn in Hlen; lia]. }
  destruct s as [|b0 s1]; [cbn; lia|].
  cbn [String.length] in Hlen. cbn [utf8_valid] in Hv. cbn [str_prefix].
  destruct (byte_in 0 127 b0) eqn:H1.
  { rewrite (lead_byte 0 127 b0) by (lia || done).
    destruct n as [|n]; [cbn; lia|]. cbn [byte_len].
    specialize (IH s1 n ltac:(lia) Hv). lia. }
  destruct (byte_in 194 223 b0) eqn:H2.
  { rewrite (lead_byte 194 223 b0) by (lia || done).
    destruct n as [|n]; [cbn; lia|].
    destruct s1 as [|b1 s2]; [done|]. apply andb_true_iff in Hv as [Hb1 Hv].
    cbn [str_prefix byte_len String.length] in *. rewrite Hb1. cbn [byte_len].
    specialize (IH s2 n ltac:(lia) Hv). lia. }
  destruct (byte_in 224 239 b0) eqn:H3.
  { rewrite (lead_byte 224 239 b0) by (lia || done).
    destruct n as [|n]; [cbn; lia|].
    destruct s1 as [|b1 [|b2 s3]]; [done|done|].
    apply andb_true_iff in Hv as [[Hb1 Hb2]%andb_true_iff Hv].
    apply second_byte_continuation in Hb1; [|lia..].
    cbn [str_prefix byte_len String.length] in *. rewrite Hb1, Hb2. cbn [byte_len].
    specialize (IH s3 n ltac:(lia) Hv). lia. }
  destruct (byte_in 240 244 b0) eqn:H4; [|done].
  rewrite (lead_byte 240 244 b0) by (lia || done).
  destruct n as [|n]; [cbn; lia|].
  destruct s1 as [|b1 [|b2 [|b3 s4]]]; [done|done|done|].
  apply andb_true_iff in Hv as [[[Hb1 Hb2]%andb_true_iff Hb3]%andb_true_iff Hv].
  apply second_byte_continuation in Hb1; [|lia..].
  cbn [str_prefix byte_len String.length] in *. rewrite Hb1, Hb2, Hb3. cbn [byte_len].
  specialize (IH s4 n ltac:(lia) Hv). lia.
Qed.

(** What [main] hands to [_send_to_dlq] is a text: the decoder has taken it. *)
Lemma bytes_decode_valid (b raw_body : string) :
  bytes_decode b = Return raw_body → raw_body = b ∧ utf8_valid raw_body = true.
Proof. unfold bytes_decode. destruct (utf8_valid b) eqn:H; [|done]. by intros [= <-]. Qed.

Lemma dlq_envelope_original_event (raw_body : string) (errors : list string)
    (rejected_at : string) :
  dict_of (Return (dlq_envelope raw_body errors rejected_at)) !! "original_event"
  = Some (JStr (str_prefix (Z.to_nat 8192) raw_body)).
Proof. unfold dlq_envelope, dict_of. by rewrite lookup_insert_eq. Qed.

Section DeadLetter.
Context (R : Runtime).

Lemma send_to_dlq_unconfigured (raw_body : string) (errors : list string) (st : State R) :
  dlq_producer R = Return None →
  _send_to_dlq R raw_body errors st =
  (Return tt,
   mkState (world st)
     (trace st ++ [Log WARNING "DLQ producer not configured – dropping invalid event" []])).
Proof.
  intros H. unfold _send_to_dlq, mbind, M_bind, lift. rewrite H. reflexivity.
Qed.

Lemma send_to_dlq_configured (raw_body : string) (errors : list string) (st : State R)
    (producer : string → World R → option exn * World R) :
  dlq_producer R = Return (Some producer) →
  _send_to_dlq R raw_body errors st =
  let now := (datetime_now R (world st)).1 in
  let payload := json_dumps R (dlq_envelope raw_body errors (isoformat now)) in
  let answer := producer payload (datetime_now R (world st)).2 in
  (Return tt, mkState answer.2 (trace st ++ dlq_trace payload answer.1)).
Proof.
  intros H.
  unfold _send_to_dlq, try_except, mbind, M_bind, lift, ask, send_batch, log, emit.
  rewrite H. cbn beta iota zeta.
  destruct (datetime_now R (world st)) as [now w]. cbn [fst snd world trace].
  destruct (producer _ w) as [[e|] w']; cbn [fst snd world trace Exception dlq_trace];
    by rewrite <- app_assoc.
Qed.

(** [_send_to_dlq] returns whenever the producer handle resolves. *)
Lemma send_to_dlq_returns (raw_body : string) (errors : list string) (st : State R)
    (p : option (string → World R → option exn * World R)) :
  dlq_producer R = Return p →
  (_send_to_dlq R raw_body errors st).1 = Return tt.
Proof.
  intros H. destruct p as [producer|].
  - by rewrite (send_to_dlq_configured _ _ _ _ H).
  - by rewrite (send_to_dlq_unconfigured _ _ _ H).
Qed.

(** C7 (amended).  [_send_to_dlq] is best-effort whenever the lookup of
    the dead-letter producer returns.  With no sink configured it logs a
    warning and returns.  With a sink it hands over one envelope, whose
    original_event is the first 8192 characters (code points) of the raw
    payload, hence at most 8192 bytes when the payload is ASCII and, for
    every text, at most four bytes a character, 32768 in all; and it
    returns whether or not the write failed, the failure being logged. *)
Theorem send_to_dlq_best_effort (raw_body : string) (errors : list string) (st : State R)
    (p : option (string → World R → option exn * World R)) :
  dlq_producer R = Return p →
  (∃ st', _send_to_dlq R raw_body errors st = (Return tt, st') ∧
     match p with
     | None =>
         world st' = world st ∧
         trace st' =
           trace st ++ [Log WARNING "DLQ producer not configured – dropping invalid event" []]
     | Some producer =>
         ∃ rejected_at failure,
           trace st' =
             trace st ++
             dlq_trace (json_dumps R (dlq_envelope raw_body errors rejected_at)) failure
     end)
  ∧ (∀ rejected_at,
       ∃ original_event,
         dict_of (Return (dlq_envelope raw_body errors rejected_at)) !! "original_event"
           = Some (JStr original_event) ∧
         original_event = str_prefix (Z.to_nat 8192) raw_body ∧
         (∃ rest, raw_body = original_event +:+ rest) ∧
         (str_len original_event ≤ 8192)%N ∧
         (is_ascii raw_body = true → (byte_len original_event ≤ 8192)%N) ∧
         (utf8_valid raw_body = true → (byte_len original_event ≤ 4 * 8192)%N)).
Proof.
  intros H. split.
  - destruct p as [producer|].
    + rewrite (send_to_dlq_configured _ _ _ _ H). eexists. split; [reflexivity|].
      cbn [trace]. eauto.
    + rewrite (send_to_dlq_unconfigured _ _ _ H). eexists. split; [reflexivity|]. done.
  - intros at_. exists (str_prefix (Z.to_nat 8192) raw_body).
    split; [apply dlq_envelope_original_event|].
    split; [reflexivity|]. split; [apply str_prefix_is_prefix|].
    split; [apply (str_len_prefix (Z.to_nat 8192))|].
    split.
    + intros Ha. rewrite byte_len_ascii by (by apply is_ascii_prefix).
      apply (str_len_prefix (Z.to_nat 8192)).
    + intros Hv. by apply (byte_len_prefix_utf8 (Z.to_nat 8192)).
Qed.

End DeadLetter.

Lemma send_to_dlq_best_effort_witness :
  dlq_producer (Ref.runtime true) = Return (Some Ref.dlq_call) ∧
  (_send_to_dlq (Ref.runtime true) "{not json" ["invalid JSON"] (quiet_state true)).1
  = Return tt.
Proof.
  split; [reflexivity|].
  destruct (send_to_dlq_best_effort (Ref.runtime true) "{not json" ["invalid JSON"]
              (quiet_state true) (Some Ref.dlq_call) eq_refl) as [(st' & Hrun & _) _].
  by rewrite Hrun.
Defined.

(** C7, as stated, fails on a payload of 50,000 bytes that holds 25,000
    two-byte characters: the original_event of its envelope holds 8192
    characters, which are 16,384 bytes. *)
Lemma dlq_envelope_accented_payload :
  utf8_valid accented_payload = true ∧
  byte_len accented_payload = 50000%N ∧
  ∃ original_event,
    dict_of (Return (dlq_envelope accented_payload ["invalid JSON"] "2025-01-15T14:30:00+00:00"))
      !! "original_event" = Some (JStr original_event) ∧
    byte_len original_event = 16384%N ∧
    ¬ (byte_len original_event ≤ 8192)%N.
Proof.
  split; [vm_compute; reflexivity|]. split; [vm_compute; reflexivity|].
  exists (str_prefix (Z.to_nat 8192) accented_payload).
  split; [apply dlq_envelope_original_event|].
  assert (byte_len (str_prefix (Z.to_nat 8192) accented_payload) = 16384%N) as ->
    by (vm_compute; reflexivity).
  split; [reflexivity|]. lia.
Qed.

(** ** The batch loop *)

Section Batch.
Context (R : Runtime).
Implicit Types (container : json → World R → option exn * World R).
Implicit Types (p : option (string → World R → option exn * World R)).
Implicit Types (c : counters) (st : State R) (event : string) (events : list string).

Lemma classify_Malformed event raw_body :
  classify R event = Malformed raw_body →
  bytes_decode event = Return raw_body ∧ json_loads R raw_body = None.
Proof.
  unfold classify. destruct (bytes_decode event) as [raw|]; [|done].
  destruct (json_loads R raw) as [data|] eqn:Hj; [|by intros [= <-]].
  destruct (_validate_event data) as [[|]|]; try done.
  destruct data; try done. by destruct (timestamp_is_text _).
Qed.

Lemma classify_Invalid event raw_body errors :
  classify R event = Invalid raw_body errors →
  ∃ data e errors', errors = e :: errors' ∧
    bytes_decode event = Return raw_body ∧ json_loads R raw_body = Some data ∧
    _validate_event data = Return errors.
Proof.
  unfold classify. destruct (bytes_decode event) as [raw|]; [|done].
  destruct (json_loads R raw) as [data|] eqn:Hj; [|done].
  destruct (_validate_event data) as [[|e errs]|] eqn:Hv; try done.
  - destruct data; try done. by destruct (timestamp_is_text _).
  - intros [= <- <-]. by exists data, e, errs.
Qed.

Lemma classify_Valid event d :
  classify R event = Valid d →
  ∃ raw_body, bytes_decode event = Return raw_body ∧
    json_loads R raw_body = Some (JDict d) ∧
    _validate_event (JDict d) = Return [] ∧ timestamp_is_text d = true.
Proof.
  unfold classify. destruct (bytes_decode event) as [raw|]; [|done].
  destruct (json_loads R raw) as [data|] eqn:Hj; [|done].
  destruct (_validate_event data) as [[|e errs]|] eqn:Hv; try done.
  destruct data as [| | | | | |d']; try done.
  destruct (timestamp_is_text d') eqn:Ht; [|done].
  intros [= <-]. by exists raw.
Qed.

(** Bytes that are not UTF-8: the exception leaves the loop body. *)
Lemma loop_body_undecodable container event c st :
  bytes_decode event = Raise UnicodeDecodeError →
  loop_body R container event c st = (Raise UnicodeDecodeError, st).
Proof. intros H. unfold loop_body, mbind, M_bind, lift. by rewrite H. Qed.

(** A decode failure of [json.loads]: logged, handed to [_send_to_dlq]
    with the one error "invalid JSON", counted, and the loop goes on. *)
Lemma loop_body_malformed container event c st p raw_body :
  dlq_producer R = Return p →
  classify R event = Malformed raw_body →
  loop_body R container event c st =
  (Return (add_error c),
   (_send_to_dlq R raw_body ["invalid JSON"]
      (mkState (world st) (trace st ++ [Log ERROR "Malformed JSON in event" []]))).2).
Proof.
  intros Hp [Hd Hj]%classify_Malformed.
  unfold loop_body, mbind, M_bind, lift, log, emit. rewrite Hd, Hj.
  pose proof (send_to_dlq_returns R raw_body ["invalid JSON"]
    (mkState (world st) (trace st ++ [Log ERROR "Malformed JSON in event" []])) p Hp) as Hs.
  destruct (_send_to_dlq R raw_body _ _) as [r st']. cbn in Hs. by subst r.
Qed.

(** A validation failure: logged, handed to [_send_to_dlq] with the
    violations, counted, and the loop goes on. *)
Lemma loop_body_invalid container event c st p raw_body errors :
  dlq_producer R = Return p →
  classify R event = Invalid raw_body errors →
  loop_body R container event c st =
  (Return (add_error c),
   (_send_to_dlq R raw_body errors
      (mkState (world st)
         (trace st ++ [Log WARNING "Validation failed: %s" [LStrs errors]]))).2).
Proof.
  intros Hp (data & e & errs & -> & Hd & Hj & Hv)%classify_Invalid.
  unfold loop_body, mbind, M_bind, lift, log, emit. rewrite Hd, Hj, Hv.
  pose proof (send_to_dlq_returns R raw_body (e :: errs)
    (mkState (world st)
       (trace st ++ [Log WARNING "Validation failed: %s" [LStrs (e :: errs)]])) p Hp) as Hs.
  destruct (_send_to_dlq R raw_body _ _) as [r st']. cbn in Hs. by subst r.
Qed.

Lemma enrich_event_returns (d : gmap string json) st :
  timestamp_is_text d = true →
  ∃ d', _enrich_event R (JDict d) st
        = (Return (JDict d'), mkState (world (_enrich_event R (JDict d) st).2) (trace st)).
Proof.
  intros Ht. rewrite enrich_event_eq.
  destruct (uuid4 R (world st)) as [u w], (datetime_now R w) as [now w'].
  unfold hour_bucket_value, timestamp_is_text in *.
  destruct (d !! "timestamp") as [[| | | |s| |]|]; try discriminate.
  - destruct (fromisoformat R _); by eexists.
  - by eexists.
Qed.

(** A valid item: enriched, written to the store, and counted by the
    answer of the store; a failed write is logged and nothing goes to
    the dead-letter sink. *)
Lemma loop_body_valid container event c st (d : gmap string json) :
  classify R event = Valid d →
  ∃ body w failure w',
    _enrich_event R (JDict d) st = (Return body, mkState w (trace st)) ∧
    container body w = (failure, w') ∧
    loop_body R container event c st =
    (Return (match failure with None => add_success c | Some _ => add_error c end),
     mkState w' (trace st ++ upsert_trace body failure)).
Proof.
  intros (raw & Hd & Hj & Hv & Ht)%classify_Valid.
  destruct (enrich_event_returns d st Ht) as [d' He].
  exists (JDict d'), (world (_enrich_event R (JDict d) st).2).
  destruct (container (JDict d') (world (_enrich_event R (JDict d) st).2))
    as [failure w'] eqn:Hc.
  exists failure, w'. split; [exact He|]. split; [reflexivity|].
  unfold loop_body, mbind, M_bind, lift, try_except, upsert_call, log, emit.
  rewrite Hd, Hj, Hv, He. cbn [world trace]. rewrite Hc.
  destruct failure as [[]|]; cbn [world trace Exception upsert_trace add_error add_success];
    by rewrite <- ?app_assoc.
Qed.

(** Every counted item moves exactly one of the two counters. *)
Lemma loop_body_counted container event c st p :
  dlq_producer R = Return p →
  is_counted R event = true →
  ∃ c' st', loop_body R container event c st = (Return c', st') ∧
    (c' = add_success c ∨ c' = add_error c) ∧
    (fails_validation R event = true → c' = add_error c) ∧
    (is_valid R event = true → always_accepts container → c' = add_success c).
Proof.
  intros Hp. unfold is_counted, fails_validation, is_valid.
  destruct (classify R event) as [|raw|e|raw errs|d] eqn:Hc; try done; intros _.
  - rewrite (loop_body_malformed container _ c st p raw Hp Hc).
    eexists _, _. split; [reflexivity|]. split; [by right|]. done.
  - rewrite (loop_body_invalid container _ c st p raw errs Hp Hc).
    eexists _, _. split; [reflexivity|]. split; [by right|]. done.
  - destruct (loop_body_valid container _ c st d Hc) as (body & w & f & w' & _ & Hcall & ->).
    eexists _, _. split; [reflexivity|]. split; [destruct f; auto|]. split; [done|].
    intros _ Hacc. specialize (Hacc body w). rewrite Hcall in Hacc. cbn in Hacc. by subst f.
Qed.

Lemma for_events_counted container events c st p :
  dlq_producer R = Return p →
  Forall (fun event => is_counted R event = true) events →
  ∃ c' st', for_events R container events c st = (Return c', st') ∧
    (success_count c' + error_count c'
     = success_count c + error_count c + length events)%nat.
Proof.
  intros Hp Hall. revert c st.
  induction Hall as [|event events Hev _ IH]; intros c st.
  - exists c, st. split; [reflexivity|]. simpl. lia.
  - destruct (loop_body_counted container event c st p Hp Hev) as (c1 & st1 & H1 & Hc1 & _).
    destruct (IH c1 st1) as (c' & st' & H' & Hsum).
    exists c', st'. split.
    + cbn [for_events]. unfold mbind, M_bind. by rewrite H1.
    + destruct Hc1 as [-> | ->]; cbn in *; lia.
Qed.


End Batch.

Section BatchClaims.
Context (R : Runtime).
Implicit Types (container : json → World R → option exn * World R).
Implicit Types (p : option (string → World R → option exn * World R)).
Implicit Types (c : counters) (st : State R) (event : string) (events : list string).

Lemma main_eq container events st :
  cosmos_container R = Return container →
  main R events st =
  let st0 := mkState (world st)
               (trace st ++ [Log INFO "Received batch of %d events"
                               [LInt (Z.of_nat (length events))]]) in
  match for_events R container events (mkCounters 0 0) st0 with
  | (Return c, st') =>
      (Return c,
       mkState (world st')
         (trace st' ++ [Log INFO "Batch complete: %d succeeded, %d failed out of %d"
                          [LInt (Z.of_nat (success_count c)); LInt (Z.of_nat (error_count c));
                           LInt (Z.of_nat (length events))]]))
  | (Raise e, st') => (Raise e, st')
  end.
Proof.
  intros H. unfold main, mbind, M_bind, lift, log, emit. rewrite H. cbn [world trace].
  by destruct (for_events R container events _ _) as [[c|e] st'].
Qed.



(** C9.  In a batch whose items each end in one of the four outcomes that
    the loop counts, [main] returns and the two counters add up to the
    length of the batch. *)
Theorem main_counts container p events st :
  cosmos_container R = Return container →
  dlq_producer R = Return p →
  Forall (fun event => is_counted R event = true) events →
  ∃ c st', main R events st = (Return c, st') ∧
    (success_count c + error_count c = length events)%nat.
Proof.
  intros Hc Hp Hall. rewrite (main_eq container events st Hc). cbv zeta.
  destruct (for_events_counted R container events (mkCounters 0 0)
              (mkState (world st)
                 (trace st ++ [Log INFO "Received batch of %d events"
                                 [LInt (Z.of_nat (length events))]])) p Hp Hall)
    as (c & st' & -> & Hsum).
  eexists _, _. split; [reflexivity|]. cbn in Hsum. lia.
Qed.

(** Whenever [main] returns, the two counters add up to the length of the
    batch, and whenever it raises, they added up to the number of items
    gone through: no item moves both counters or none. *)
Lemma for_events_invariant container events c st :
  match for_events R container events c st with
  | (Return c', _) =>
      (success_count c' + error_count c'
       = success_count c + error_count c + length events)%nat
  | (Raise _, _) => True
  end.
Proof.
  revert c st. induction events as [|event events IH]; intros c st.
  - cbn. lia.
  - cbn [for_events]. unfold mbind, M_bind.
    destruct (loop_body R container event c st) as [[c1|e] st1] eqn:H1; [|done].
    specialize (IH c1 st1).
    destruct (for_events R container events c1 st1) as [[c'|e] st']; [|done].
    assert (success_count c1 + error_count c1 = success_count c + error_count c + 1)%nat.
    { revert H1. unfold loop_body, mbind, M_bind, lift, try_except, upsert_call, log, emit.
      destruct (bytes_decode event) as [raw|]; [|done].
      destruct (json_loads R raw) as [data|].
      - destruct (_validate_event data) as [[|v vs]|]; [| |done].
        + destruct (_enrich_event R data st) as [[body|] st2]; [|done].
          destruct (container body (world st2)) as [[[]|] w]; intros [= <- _]; cbn; lia.
        + destruct (_send_to_dlq R raw (v :: vs) _) as [[[]|] st2]; [|done].
          intros [= <- _]. cbn. lia.
      - destruct (_send_to_dlq R raw _ _) as [[[]|] st2]; [|done].
        intros [= <- _]. cbn. lia. }
    cbn [length]. lia.
Qed.

(** C6.  An item that decodes and validates is written to the store once.
    When the store refuses the write, the failure is logged, error_count
    moves, nothing is handed to the dead-letter sink, and the loop goes on
    with the next item; when the store takes the write, success_count
    moves instead. *)
Theorem persist_failure_not_dead_lettered container event events c st
    (d : gmap string json) :
  classify R event = Valid d →
  ∃ body w failure w',
    _enrich_event R (JDict d) st = (Return body, mkState w (trace st)) ∧
    container body w = (failure, w') ∧
    loop_body R container event c st =
      (Return (match failure with None => add_success c | Some _ => add_error c end),
       mkState w' (trace st ++ upsert_trace body failure)) ∧
    Forall (fun e => is_dlq_write e = false) (upsert_trace body failure) ∧
    (∀ e, failure = Some e → ∃ msg args, Log ERROR msg args ∈ upsert_trace body failure) ∧
    for_events R container (event :: events) c st =
      for_events R container events
        (match failure with None => add_success c | Some _ => add_error c end)
        (mkState w' (trace st ++ upsert_trace body failure)).
Proof.
  intros Hv.
  destruct (loop_body_valid R container event c st d Hv)
    as (body & w & failure & w' & Henr & Hcall & Hbody).
  exists body, w, failure, w'. split; [exact Henr|]. split; [exact Hcall|].
  split; [exact Hbody|]. split; [|split].
  - destruct failure as [[]|]; repeat constructor.
  - intros e ->. destruct e; eexists _, _; right; left.
  - cbn [for_events]. unfold mbind, M_bind. by rewrite Hbody.
Qed.

(** One undecodable item makes [main] raise; what stands behind it in the
    batch is not looked at. *)
Lemma main_undecodable container event events st :
  cosmos_container R = Return container →
  bytes_decode event = Raise UnicodeDecodeError →
  main R (event :: events) st =
  (Raise UnicodeDecodeError,
   mkState (world st)
     (trace st ++ [Log INFO "Received batch of %d events"
                     [LInt (Z.of_nat (length (event :: events)))]])).
Proof.
  intros Hc Hd. rewrite (main_eq container _ st Hc). cbv zeta.
  cbn [for_events]. unfold mbind, M_bind.
  by rewrite (loop_body_undecodable R container event _ _ Hd).
Qed.

End BatchClaims.



Lemma main_counts_witness :
  Forall (fun event => is_counted (Ref.runtime true) event = true) four_outcomes_batch ∧
  ∃ c st', main (Ref.runtime true) four_outcomes_batch (scripted_state throttled)
           = (Return c, st') ∧
    (success_count c + error_count c = length four_outcomes_batch)%nat.
Proof.
  assert (Forall (fun event => is_counted (Ref.runtime true) event = true) four_outcomes_batch)
    as Hall by (repeat constructor; vm_compute; reflexivity).
  split; [exact Hall|].
  exact (main_counts (Ref.runtime true) Ref.store_call (Some Ref.dlq_call)
           four_outcomes_batch (scripted_state throttled) eq_refl eq_refl Hall).
Defined.

(** The four outcomes in one batch: one item persisted, one not JSON, one
    without event_id, one refused by the store. *)
Example main_four_outcomes :
  (main (Ref.runtime true) four_outcomes_batch (scripted_state throttled)).1
  = Return (mkCounters 1 3).
Proof. vm_compute. reflexivity. Qed.

Lemma persist_failure_not_dead_lettered_witness :
  classify (Ref.runtime true) valid_bytes = Valid valid_payload ∧
  ∃ body w failure w',
    _enrich_event (Ref.runtime true) (JDict valid_payload) (scripted_state unavailable)
      = (Return body, @mkState (Ref.runtime true) w (trace (scripted_state unavailable))) ∧
    Ref.store_call body w = (failure, w') ∧
    loop_body (Ref.runtime true) Ref.store_call valid_bytes (mkCounters 0 0)
      (scripted_state unavailable) =
      (Return (match failure with
               | None => add_success (mkCounters 0 0)
               | Some _ => add_error (mkCounters 0 0)
               end),
       @mkState (Ref.runtime true) w' (trace (scripted_state unavailable) ++ upsert_trace body failure)) ∧
    Forall (fun e => is_dlq_write e = false) (upsert_trace body failure) ∧
    (∀ e, failure = Some e → ∃ msg args, Log ERROR msg args ∈ upsert_trace body failure) ∧
    for_events (Ref.runtime true) Ref.store_call (valid_bytes :: []) (mkCounters 0 0)
      (scripted_state unavailable) =
      for_events (Ref.runtime true) Ref.store_call []
        (match failure with
         | None => add_success (mkCounters 0 0)
         | Some _ => add_error (mkCounters 0 0)
         end)
        (@mkState (Ref.runtime true) w' (trace (scripted_state unavailable) ++ upsert_trace body failure)).
Proof.
  assert (classify (Ref.runtime true) valid_bytes = Valid valid_payload) as Hv
    by (vm_compute; reflexivity).
  split; [exact Hv|].
  exact (persist_failure_not_dead_lettered (Ref.runtime true) Ref.store_call valid_bytes []
           (mkCounters 0 0) (scripted_state unavailable) valid_payload Hv).
Defined.

(** The refused write of the example: counted as an error, logged, and no
    dead-letter write in the trace. *)
Example loop_body_refused_write :
  (loop_body (Ref.runtime true) Ref.store_call valid_bytes (mkCounters 0 0)
     (scripted_state unavailable)).1 = Return (mkCounters 0 1) ∧
  filter (fun e => is_dlq_write e)
    (trace (loop_body (Ref.runtime true) Ref.store_call valid_bytes (mkCounters 0 0)
              (scripted_state unavailable)).2) = [].
Proof. split; vm_compute; reflexivity. Qed.

(** C5 (failing input).  The claim has every item that fails to decode
    dead-lettered and counted, its siblings still processed.  On a batch
    whose first item is one byte that is not UTF-8 and whose second item is
    a valid event, [main] raises [UnicodeDecodeError]: nothing is written
    to the dead-letter sink, nothing is counted, and the valid sibling
    never reaches the store. *)
Theorem main_aborts_on_undecodable_item :
  bytes_decode bad_utf8 = Raise UnicodeDecodeError ∧
  is_valid (Ref.runtime true) valid_bytes = true ∧
  (main (Ref.runtime true) [bad_utf8; valid_bytes] (quiet_state true)).1
    = Raise UnicodeDecodeError ∧
  trace (main (Ref.runtime true) [bad_utf8; valid_bytes] (quiet_state true)).2
    = [Log INFO "Received batch of %d events" [LInt 2]].
Proof. split; [reflexivity|]. repeat split; vm_compute; reflexivity. Qed.

(** The part of C5 that holds: an item on which [json.loads] fails is
    handed to the dead-letter sink with the one error "invalid JSON",
    counted, and the loop goes on. *)
Example main_dead_letters_malformed_json :
  (main (Ref.runtime true) [not_json_bytes; valid_bytes] (quiet_state true)).1
    = Return (mkCounters 1 1) ∧
  trace (main (Ref.runtime true) [not_json_bytes; valid_bytes] (quiet_state true)).2
    = [Log INFO "Received batch of %d events" [LInt 2];
       Log ERROR "Malformed JSON in event" []] ++
      dlq_trace (Ref.dumps (dlq_envelope not_json_bytes ["invalid JSON"]
                             "2025-01-15T14:30:00+00:00")) None ++
      upsert_trace
        (JDict (dict_of
                  (_enrich_event (Ref.runtime true) (JDict valid_payload)
                     (quiet_state true)).1)) None ++
      [Log INFO "Batch complete: %d succeeded, %d failed out of %d"
         [LInt 1; LInt 1; LInt 2]].
Proof. split; vm_compute; reflexivity. Qed.

(** The batch loop lets the exceptions of the validator and of the
    enricher through as well. *)
Example main_aborts_on_numeric_timestamp :
  (main (Ref.runtime true) [Ref.dumps (JDict numeric_timestamp_payload); valid_bytes]
     (quiet_state true)).1 = Raise AttributeError.
Proof. vm_compute. reflexivity. Qed.

Example main_aborts_on_list_event_type :
  (main (Ref.runtime true) [Ref.dumps (JDict list_type_payload); valid_bytes]
     (quiet_state true)).1 = Raise TypeError.
Proof. vm_compute. reflexivity. Qed.

(** ** Generator *)

Section Monad.
Context (R : Runtime).

Lemma bind_inv {A B} (m : M R A) (f : A → M R B) (st st' : State R) (b : B) :
  (m ≫= f) st = (Return b, st') →
  ∃ a st1, m st = (Return a, st1) ∧ f a st1 = (Return b, st').
Proof.
  unfold mbind, M_bind. destruct (m st) as [[a|e] st1]; [|done]. intros H. by exists a, st1.
Qed.

Lemma ret_inv {A} (a b : A) (st st' : State R) :
  (mret a : M R A) st = (Return b, st') → a = b.
Proof. by intros [= -> _]. Qed.

Lemma lift_inv {A} (r : result A) (a : A) (st st' : State R) :
  lift R r st = (Return a, st') → r = Return a.
Proof. by intros [= -> _]. Qed.

End Monad.

Ltac bind_step H :=
  let a := fresh "a" in
  let st := fresh "st" in
  let Ha := fresh "H" a in
  apply bind_inv in H as (a & st & Ha & H).

Lemma bisect_le (a : list Q) (x : Q) (hi : nat) : (bisect a x hi ≤ hi)%nat.
Proof.
  revert a. induction hi as [|hi IH]; intros [|c a]; simpl; try lia.
  destruct (Qle_bool c x); [specialize (IH a)|]; lia.
Qed.

Lemma round_half_even_bounds (y : Q) (lo hi : Z) :
  (inject_Z lo <= y)%Q → (y <= inject_Z hi)%Q →
  lo ≤ round_half_even y ∧ round_half_even y ≤ hi.
Proof.
  intros Hlo Hhi. unfold round_half_even.
  pose proof (Qfloor_le y) as Hf. pose proof (Qlt_floor y) as Hc.
  assert (lo ≤ Qfloor y) as Hl.
  { rewrite <- (Qfloor_Z lo). by apply Qfloor_resp_le. }
  assert (Qfloor y ≤ hi) as Hh.
  { rewrite <- (Qfloor_Z hi). by apply Qfloor_resp_le. }
  assert (Qfloor y < hi ∨ (y - inject_Z (Qfloor y) <= 0)%Q) as Hcase.
  { destruct (Z.eq_dec (Qfloor y) hi) as [->|]; [right; lra|left; lia]. }
  destruct (y - inject_Z (Qfloor y) ?= 1 # 2)%Q eqn:Hcmp.
  - apply Qeq_alt in Hcmp. destruct Hcase as [?|?]; [|lra].
    destruct (Z.even (Qfloor y)); lia.
  - lia.
  - apply Qgt_alt in Hcmp. destruct Hcase as [?|?]; [lia|lra].
Qed.

Lemma py_round_between (x : Q) : between x → between (py_round x 1).
Proof.
  unfold between, py_round. intros [Hlo Hhi].
  destruct (round_half_even_bounds (x * inject_Z (10 ^ Z.of_nat 1)) 5000 150000)
    as [Hl Hh].
  { change (inject_Z (10 ^ Z.of_nat 1)) with 10%Q. change (inject_Z 5000) with 5000%Q. lra. }
  { change (inject_Z (10 ^ Z.of_nat 1)) with 10%Q. change (inject_Z 150000) with 150000%Q. lra. }
  rewrite Qred_correct.
  rewrite Zle_Qle in Hl, Hh.
  change (inject_Z (10 ^ Z.of_nat 1)) with 10%Q in *.
  change (inject_Z 5000) with 5000%Q in Hl. change (inject_Z 150000) with 150000%Q in Hh.
  set (r := inject_Z (round_half_even (x * 10))) in *.
  split; [apply Qle_shift_div_l|apply Qle_shift_div_r]; lra.
Qed.

Section GeneratorLemmas.
Context (R : Runtime).
Implicit Types (st : State R).

Lemma random_random_range st st' (u : Q) :
  random_random R st = (Return u, st') → (0 <= u)%Q ∧ (u < 1)%Q.
Proof.
  unfold random_random. intros H. bind_step H. apply ret_inv in H as <-.
  assert (0 ≤ Z.of_N (a mod 2 ^ 53) < 2 ^ 53) as [Hlo Hhi].
  { change (2 ^ 53)%N with 9007199254740992%N. change (2 ^ 53) with 9007199254740992.
    assert (a `mod` 9007199254740992 < 9007199254740992)%N as H
      by (by apply N.mod_upper_bound).
    split; [apply N2Z.is_nonneg|].
    by apply (N2Z.inj_lt _ 9007199254740992%N) in H. }
  rewrite Zle_Qle in Hlo. rewrite Zlt_Qlt in Hhi.
  set (k := inject_Z (Z.of_N (a mod 2 ^ 53))) in *.
  change (inject_Z 0) with 0%Q in Hlo.
  assert (0 < inject_Z (2 ^ 53))%Q as Hpos by reflexivity.
  split; [apply Qle_shift_div_l|apply Qlt_shift_div_r]; lra.
Qed.

Lemma random_uniform_buffer st st' (x : Q) :
  random_uniform R 500 15000 st = (Return x, st') → between x.
Proof.
  unfold random_uniform. intros H. bind_step H. apply ret_inv in H as <-.
  apply random_random_range in Ha as [Hlo Hhi]. unfold between. lra.
Qed.

Lemma random_choice_elem {A} (seq : list A) st st' (a : A) :
  random_choice R seq st = (Return a, st') → a ∈ seq.
Proof.
  unfold random_choice. destruct seq as [|a0 seq]; [done|].
  intros H. bind_step H. apply ret_inv in H as <-.
  apply list_elem_of_In, nth_In.
  assert (a1 `mod` N.of_nat (length (a0 :: seq)) < N.of_nat (length (a0 :: seq)))%N as Hlt
    by (by apply N.mod_upper_bound).
  set (r := (a1 `mod` N.of_nat (length (a0 :: seq)))%N) in *. lia.
Qed.

Lemma random_choices1_elem {A} (population : list A) (weights : list Q) st st' (a : A) :
  random_choices1 R population weights st = (Return a, st') → a ∈ population.
Proof.
  unfold random_choices1. destruct population as [|a0 population]; [done|].
  destruct (negb _); [done|]. destruct (last _) as [total|]; [|done].
  destruct (Qle_bool total 0); [done|].
  intros H. bind_step H. apply ret_inv in H as <-.
  apply list_elem_of_In, nth_In.
  pose proof (bisect_le (accumulate 0 weights) (a1 * total)%Q (length (a0 :: population) - 1)).
  cbn [length] in *. lia.
Qed.

Lemma build_user_shape (i : nat) st st' (u : User) :
  build_user R i st = (Return u, st') → user_shape u.
Proof.
  unfold build_user. intros H. do 5 bind_step H. apply ret_inv in H as <-.
  apply random_choices1_elem in Ha, Ha1. unfold user_shape.
  cbn [u_user_id u_device_type u_subscription_tier]. split; [by eexists|]. auto.
Qed.

Lemma build_users_shape (is_ : list nat) (acc : list User) st st' (us : list User) :
  Forall user_shape acc →
  build_users R is_ acc st = (Return us, st') → Forall user_shape us.
Proof.
  revert acc st. induction is_ as [|i is_ IH]; intros acc st Hacc H.
  - by apply ret_inv in H as <-.
  - cbn [build_users] in H. bind_step H. apply build_user_shape in Ha.
    eapply IH; [|exact H]. apply Forall_app. split; [done|]. by constructor.
Qed.

Lemma init_users_shape (eps : Z) (n : nat) (dry : bool) st st' (g : NetflixEventGenerator) :
  init R eps n dry st = (Return g, st') → Forall user_shape (users g).
Proof.
  unfold init, _build_user_pool. intros H. do 2 bind_step H. apply ret_inv in H as <-.
  cbn. by eapply build_users_shape; [constructor|exact Ha].
Qed.

Lemma tier_quality (tier : string) (qs : list (string * Z)) (q : string * Z) :
  tier ∈ SUBSCRIPTION_TIERS →
  assoc_getitem QUALITY_MAP tier = Return qs → q ∈ qs →
  q.1 ∈ tier_resolutions tier.
Proof.
  intros Ht Hq Hin.
  assert (tier = "basic" ∨ tier = "standard" ∨ tier = "premium") as [-> | [-> | ->]].
  { unfold SUBSCRIPTION_TIERS in Ht. rewrite !elem_of_cons, elem_of_nil in Ht. tauto. }
  all: vm_compute in Hq; injection Hq as <-.
  all: rewrite !elem_of_cons, elem_of_nil in Hin; destruct_or!; try done; subst q.
  all: vm_compute; repeat constructor.
Qed.

Lemma py_round_zero : py_round 0 2 = 0%Q.
Proof. reflexivity. Qed.

(** Every event that [_generate_event] returns from a pool of well-shaped
    users has the shape of the claim, with the buffer duration between 500
    and 15000, both included. *)
Lemma generate_event_shape (g : NetflixEventGenerator) st st' (e : StreamingEvent) :
  Forall user_shape (users g) →
  _generate_event R g st = (Return e, st') → event_shape between e.
Proof.
  intros Hpool H. unfold _generate_event in H.
  do 3 bind_step H. bind_step H. apply lift_inv in Ha2. do 7 bind_step H.
  apply ret_inv in H as <-.
  apply random_choice_elem in Ha, Ha3. apply random_choices1_elem in Ha1.
  rewrite Forall_forall in Hpool. destruct (Hpool a Ha) as (Hu & Hd & Ht).
  unfold event_shape. cbn [event_type device_type user_id buffer_duration_ms
    duration_seconds subscription_tier quality_settings resolution].
  split; [exact Ha1|]. split; [exact Hd|]. split; [exact Hu|].
  split; [|split; [|split; [|split]]].
  - destruct (bool_decide (a1 = "buffer_event")) eqn:Hb.
    + apply bool_decide_eq_true in Hb. bind_step Ha6. apply ret_inv in Ha6 as <-.
      split; [done|by eexists].
    + apply bool_decide_eq_false in Hb. apply ret_inv in Ha6 as <-.
      split; [by intros [? [=]]|done].
  - intros x ->. destruct (bool_decide (a1 = "buffer_event")).
    + bind_step Ha6. apply ret_inv in Ha6 as [= <-].
      apply py_round_between. by eapply random_uniform_buffer.
    + by apply ret_inv in Ha6.
  - intros Hnz.
    destruct (bool_decide (a1 = "video_stop")) eqn:H1;
      [apply bool_decide_eq_true in H1; auto|].
    destruct (bool_decide (a1 = "video_complete")) eqn:H2;
      [apply bool_decide_eq_true in H2; auto|].
    cbn in Ha5. apply ret_inv in Ha5 as <-. by destruct Hnz.
  - exact Ht.
  - by eapply tier_quality.
Qed.

(** C8 (amended).  Every event of a generator built by [init] has its
    event_type and device_type in their enumerations, a user_id that begins
    with U, a buffer_duration_ms exactly when it is a buffer event, which
    then lies between 500 and 15000, both included, a duration_seconds that
    is nonzero only for video_stop and video_complete, and a resolution
    open to the subscription tier of its user. *)
Theorem generated_event_shape (eps : Z) (n : nat) (dry : bool) st0 st1 st st'
    (g : NetflixEventGenerator) (e : StreamingEvent) :
  init R eps n dry st0 = (Return g, st1) →
  _generate_event R g st = (Return e, st') →
  event_shape between e.
Proof.
  intros Hg He. eapply generate_event_shape; [|exact He]. by eapply init_users_shape.
Qed.

End GeneratorLemmas.

Section GeneratorReturns.
Context (R : Runtime).
Implicit Types (st : State R).

Lemma bind_intro {A B} (m : M R A) (f : A → M R B) st st1 (a : A) :
  m st = (Return a, st1) → (m ≫= f) st = f a st1.
Proof. intros H. unfold mbind, M_bind. by rewrite H. Qed.

Lemma ask_returns {A} (f : World R → A * World R) st :
  ∃ a st', ask R f st = (Return a, st').
Proof. unfold ask. destruct (f (world st)). by eexists _, _. Qed.

Lemma random_random_returns st : ∃ u st', random_random R st = (Return u, st').
Proof.
  unfold random_random. destruct (ask_returns (random_bits53 R) st) as (k & st' & H).
  rewrite (bind_intro _ _ _ _ _ H). by eexists _, _.
Qed.

Lemma random_uniform_returns (a b : Q) st :
  ∃ x st', random_uniform R a b st = (Return x, st').
Proof.
  unfold random_uniform. destruct (random_random_returns st) as (u & st' & H).
  rewrite (bind_intro _ _ _ _ _ H). by eexists _, _.
Qed.

Lemma random_choice_returns {A} (seq : list A) st :
  seq ≠ [] → ∃ a st', random_choice R seq st = (Return a, st').
Proof.
  intros Hne. unfold random_choice. destruct seq as [|a0 seq]; [done|].
  destruct (ask_returns (random_int R) st) as (k & st' & H).
  rewrite (bind_intro _ _ _ _ _ H). by eexists _, _.
Qed.

Lemma random_choices1_returns {A} (population : list A) (weights : list Q) st :
  population ≠ [] → length weights = length population →
  match last (accumulate 0 weights) with
  | Some total => Qle_bool total 0 = false
  | None => False
  end →
  ∃ a st', random_choices1 R population weights st = (Return a, st').
Proof.
  intros Hne Hlen Hpos. unfold random_choices1.
  destruct population as [|a0 population]; [done|].
  rewrite bool_decide_eq_true_2 by done. cbn [negb].
  destruct (last (accumulate 0 weights)) as [total|]; [|done]. rewrite Hpos.
  destruct (random_random_returns st) as (u & st' & H).
  rewrite (bind_intro _ _ _ _ _ H). by eexists _, _.
Qed.

Lemma random_randint_returns (a b : Z) st :
  a ≤ b → ∃ x st', random_randint R a b st = (Return x, st').
Proof.
  intros Hab. unfold random_randint. rewrite (proj2 (Z.ltb_ge b a)) by done.
  destruct (ask_returns (random_int R) st) as (k & st' & H).
  rewrite (bind_intro _ _ _ _ _ H). by eexists _, _.
Qed.

Lemma build_user_returns (i : nat) st : ∃ u st', build_user R i st = (Return u, st').
Proof.
  unfold build_user.
  destruct (random_choices1_returns SUBSCRIPTION_TIERS [20 # 100; 50 # 100; 30 # 100]%Q st)
    as (tier & st1 & H1); [done|done|reflexivity|].
  rewrite (bind_intro _ _ _ _ _ H1).
  destruct (random_randint_returns 1 5 st1) as (p & st2 & H2); [done|].
  rewrite (bind_intro _ _ _ _ _ H2).
  destruct (random_choices1_returns (DEVICE_WEIGHTS.*1) (DEVICE_WEIGHTS.*2) st2)
    as (dev & st3 & H3); [done|done|reflexivity|].
  rewrite (bind_intro _ _ _ _ _ H3).
  destruct (ask_returns (uuid4 R) st3) as (d & st4 & H4).
  rewrite (bind_intro _ _ _ _ _ H4).
  destruct (random_choice_returns LOCATIONS st4) as (loc & st5 & H5); [done|].
  rewrite (bind_intro _ _ _ _ _ H5). by eexists _, _.
Qed.

Lemma build_users_returns (is_ : list nat) (acc : list User) st :
  ∃ us st', build_users R is_ acc st = (Return us, st') ∧
    length us = (length acc + length is_)%nat.
Proof.
  revert acc st. induction is_ as [|i is_ IH]; intros acc st.
  - exists acc, st. split; [done|]. cbn. lia.
  - cbn [build_users]. destruct (build_user_returns i st) as (u & st1 & H).
    rewrite (bind_intro _ _ _ _ _ H).
    destruct (IH (acc ++ [u]) st1) as (us & st' & H' & Hlen).
    exists us, st'. split; [done|]. rewrite Hlen, length_app. cbn. lia.
Qed.

(** The constructor returns a generator with a pool of [n] users. *)
Lemma init_returns (eps : Z) (n : nat) (dry : bool) st :
  ∃ g st', init R eps n dry st = (Return g, st') ∧ length (users g) = n.
Proof.
  unfold init, _build_user_pool.
  destruct (build_users_returns (seq 0 n) [] st) as (us & st1 & H & Hlen).
  rewrite (bind_intro _ _ _ _ _ H). eexists _, _. split; [reflexivity|].
  cbn. by rewrite Hlen, length_seq.
Qed.

(** From a pool that is not empty, [_generate_event] returns an event. *)
Lemma generate_event_returns (g : NetflixEventGenerator) st :
  users g ≠ [] → Forall user_shape (users g) →
  ∃ e st', _generate_event R g st = (Return e, st').
Proof.
  intros Hne Hpool. unfold _generate_event.
  destruct (random_choice_returns (users g) st Hne) as (user & st1 & H1).
  rewrite (bind_intro _ _ _ _ _ H1).
  destruct (random_choice_returns CONTENT_CATALOG st1) as (content & st2 & H2); [done|].
  rewrite (bind_intro _ _ _ _ _ H2).
  destruct (random_choices1_returns (EVENT_WEIGHTS.*1) (EVENT_WEIGHTS.*2) st2)
    as (et & st3 & H3); [done|done|reflexivity|].
  rewrite (bind_intro _ _ _ _ _ H3).
  apply random_choice_elem in H1. rewrite Forall_forall in Hpool.
  destruct (Hpool user H1) as (_ & _ & Ht).
  assert (∃ qs, assoc_getitem QUALITY_MAP (u_subscription_tier user) = Return qs ∧ qs ≠ [])
    as (qs & Hqs & Hqne).
  { unfold SUBSCRIPTION_TIERS in Ht. rewrite !elem_of_cons, elem_of_nil in Ht.
    destruct_or!; try done; rewrite Ht; by eexists. }
  rewrite Hqs. change (lift R (Return qs) ≫= ?f) with (f qs). cbv beta.
  destruct (random_choice_returns qs st3 Hqne) as (q & st4 & H4).
  rewrite (bind_intro _ _ _ _ _ H4).
  destruct (random_uniform_returns 0 (inject_Z (c_duration content)) st4) as (pp & st5 & H5).
  rewrite (bind_intro _ _ _ _ _ H5).
  assert (∃ dur st6,
    (if bool_decide (et = "video_stop") || bool_decide (et = "video_complete")
     then random_uniform R 0 (inject_Z (c_duration content))
     else mret 0%Q) st5 = (Return dur, st6)) as (dur & st6 & H6).
  { destruct (_ || _); [apply random_uniform_returns|by eexists _, _]. }
  rewrite (bind_intro _ _ _ _ _ H6).
  assert (∃ buf st7,
    (if bool_decide (et = "buffer_event")
     then x ← random_uniform R 500 15000; mret (Some (py_round x 1))
     else mret None) st6 = (Return buf, st7)) as (buf & st7 & H7).
  { destruct (bool_decide (et = "buffer_event")); [|exists None, st6; reflexivity].
    destruct (random_uniform_returns 500 15000 st6) as (x & st7 & Hx).
    rewrite (bind_intro _ _ _ _ _ Hx). by eexists _, _. }
  rewrite (bind_intro _ _ _ _ _ H7).
  destruct (ask_returns (uuid4 R) st7) as (s & st8 & H8).
  rewrite (bind_intro _ _ _ _ _ H8).
  destruct (ask_returns (datetime_now R) st8) as (now & st9 & H9).
  rewrite (bind_intro _ _ _ _ _ H9).
  destruct (ask_returns (uuid4 R) st9) as (eid & st10 & H10).
  rewrite (bind_intro _ _ _ _ _ H10). by eexists _, _.
Qed.

End GeneratorReturns.

(** ** Generated events and the validator *)

Lemma NoDup_filter_keys {A} (P : string * A → Prop) `{∀ x, Decision (P x)}
    (l : list (string * A)) :
  NoDup l.*1 → NoDup (filter P l).*1.
Proof.
  induction l as [|[k v] l IH]; [done|].
  rewrite fmap_cons, NoDup_cons. intros [Hk Hl].
  destruct (decide (P (k, v))).
  - rewrite filter_cons_True by done. rewrite fmap_cons, NoDup_cons. split; [|auto].
    intros [[k' v'] [Heq Hin]]%list_elem_of_fmap. cbn in Heq. subst k'.
    apply list_elem_of_filter in Hin as [_ Hin]. apply Hk.
    apply list_elem_of_fmap. by exists (k, v').
  - rewrite filter_cons_False by done. auto.
Qed.

Lemma asdict_keys (e : StreamingEvent) :
  (asdict e).*1 =
  [ "event_id"; "event_type"; "user_id"; "session_id"; "content_id"; "content_title";
    "content_type"; "timestamp"; "duration_seconds"; "playback_position_seconds";
    "device_type"; "device_id"; "location"; "quality_settings"; "buffer_duration_ms";
    "error_code"; "profile_id"; "subscription_tier" ].
Proof. reflexivity. Qed.

Lemma NoDup_asdict_keys (e : StreamingEvent) : NoDup (asdict e).*1.
Proof. rewrite asdict_keys. apply (bool_decide_unpack _). vm_compute. reflexivity. Qed.

(** A field of [asdict] that is not [None] is a field of [to_dict]. *)
Lemma to_dict_lookup (e : StreamingEvent) (i : nat) (k : string) (v : json) :
  asdict e !! i = Some (k, v) → is_not_None v = true → to_dict e !! k = Some v.
Proof.
  intros Hi Hv. unfold to_dict. apply elem_of_list_to_map.
  - apply NoDup_filter_keys, NoDup_asdict_keys.
  - apply list_elem_of_filter. split; [cbn; by rewrite Hv|].
    by eapply list_elem_of_lookup_2.
Qed.

Lemma append_nonempty (s t : string) : t ≠ EmptyString → s +:+ t ≠ EmptyString.
Proof. destruct s; [done|]. discriminate. Qed.

Lemma uuid_str_nonempty (u : N) : uuid_str u ≠ EmptyString.
Proof. unfold uuid_str. by apply append_nonempty. Qed.

Lemma isoformat_nonempty (ts : datetime) : isoformat ts ≠ EmptyString.
Proof. unfold isoformat. by apply append_nonempty. Qed.

Lemma truthy_JStr (s : string) : s ≠ EmptyString → truthy (JStr s) = true.
Proof. intros H. cbn. by rewrite bool_decide_eq_false_2. Qed.

Lemma EventType_valid (t : string) :
  t ∈ EventType → t ≠ EmptyString ∧ bool_decide (t ∈ VALID_EVENT_TYPES) = true.
Proof.
  unfold EventType. rewrite !elem_of_cons, elem_of_nil. intros H.
  destruct_or!; try done; subst t; split; try done; vm_compute; reflexivity.
Qed.

Lemma DeviceType_valid (t : string) :
  t ∈ DeviceType → t ≠ EmptyString ∧ bool_decide (t ∈ VALID_DEVICE_TYPES) = true.
Proof.
  unfold DeviceType. rewrite !elem_of_cons, elem_of_nil. intros H.
  destruct_or!; try done; subst t; split; try done; vm_compute; reflexivity.
Qed.

Lemma content_id_nonempty (c : Content) : c ∈ CONTENT_CATALOG → c_id c ≠ EmptyString.
Proof.
  unfold CONTENT_CATALOG. rewrite !elem_of_cons, elem_of_nil. intros H.
  destruct_or!; try done; by subst c.
Qed.

(** An event with the six fields in place passes the validator. *)
Lemma validate_to_dict (e : StreamingEvent) :
  event_id e ≠ EmptyString → user_id e ≠ EmptyString →
  content_id e ≠ EmptyString → timestamp e ≠ EmptyString →
  event_type e ∈ EventType → device_type e ∈ DeviceType →
  _validate_event (JDict (to_dict e)) = Return [].
Proof.
  intros Hid Hu Hc Hts [Ht Htv]%EventType_valid [Hd Hdv]%DeviceType_valid.
  pose proof (to_dict_lookup e 0 _ _ eq_refl eq_refl) as L0.
  pose proof (to_dict_lookup e 1 _ _ eq_refl eq_refl) as L1.
  pose proof (to_dict_lookup e 2 _ _ eq_refl eq_refl) as L2.
  pose proof (to_dict_lookup e 4 _ _ eq_refl eq_refl) as L4.
  pose proof (to_dict_lookup e 7 _ _ eq_refl eq_refl) as L7.
  pose proof (to_dict_lookup e 10 _ _ eq_refl eq_refl) as L10.
  assert (violations (to_dict e) = []) as Hnil.
  { unfold violations. rewrite !app_nil, missing_violations_nil, !enum_violation_nil.
    split; [|split].
    - intros field. unfold REQUIRED_FIELDS. rewrite !elem_of_cons, elem_of_nil.
      unfold absent_or_empty. intros H. destruct_or!; try done; subst field.
      + by rewrite L0, truthy_JStr.
      + by rewrite L1, truthy_JStr.
      + by rewrite L2, truthy_JStr.
      + by rewrite L4, truthy_JStr.
      + by rewrite L7, truthy_JStr.
    - rewrite L1. by intros v [= <-] _.
    - rewrite L10. by intros v [= <-] _. }
  rewrite validate_event_eq, Hnil; [done| |].
  - unfold enum_checkable. rewrite L1. by rewrite orb_true_r.
  - unfold enum_checkable. rewrite L10. by rewrite orb_true_r.
Qed.

Section GeneratedEvents.
Context (R : Runtime).
Implicit Types (st : State R).

Lemma generate_event_identified (g : NetflixEventGenerator) st st' (e : StreamingEvent) :
  _generate_event R g st = (Return e, st') →
  event_id e ≠ EmptyString ∧ content_id e ≠ EmptyString ∧ timestamp e ≠ EmptyString.
Proof.
  intros H. unfold _generate_event in H.
  do 11 bind_step H. apply ret_inv in H as <-.
  apply random_choice_elem in Ha0.
  cbn [event_id content_id timestamp].
  split; [apply uuid_str_nonempty|]. split; [by apply content_id_nonempty|].
  apply isoformat_nonempty.
Qed.

(** C10.  Every event that a generator built by [init] returns, written
    to the wire with [to_json] and read back, passes the validator with
    no violation, given that the decoder reads back what the encoder
    wrote for this event. *)
Theorem generated_event_validates (eps : Z) (n : nat) (dry : bool) st0 st1 st st'
    (g : NetflixEventGenerator) (e : StreamingEvent) :
  init R eps n dry st0 = (Return g, st1) →
  _generate_event R g st = (Return e, st') →
  json_loads R (json_dumps R (JDict (to_dict e))) = Some (JDict (to_dict e)) →
  ∃ data, json_loads R (to_json R e) = Some data ∧ _validate_event data = Return [].
Proof.
  intros Hg He Hrt. exists (JDict (to_dict e)). split; [exact Hrt|].
  destruct (generate_event_shape R g st st' e (init_users_shape R eps n dry st0 st1 g Hg) He)
    as (Ht & Hd & [digits Hu] & _).
  destruct (generate_event_identified g st st' e He) as (Hid & Hc & Hts).
  apply validate_to_dict; try done. by rewrite Hu.
Qed.

End GeneratedEvents.

Lemma pair_eta_fst {A B} (p : A * B) (a : A) : p.1 = a → p = (a, p.2).
Proof. intros <-. by destruct p. Qed.

Lemma init_one_user :
  (init (Ref.runtime true) 100 1 true (scripted_state pool_script)).1
  = Return one_user_generator.
Proof. vm_compute. reflexivity. Qed.

Lemma generate_bound_event :
  (_generate_event (Ref.runtime true) one_user_generator (scripted_state buffer_script)).1
  = Return bound_event.
Proof. vm_compute. reflexivity. Qed.

Lemma generated_event_shape_witness :
  ∃ st1 st',
    init (Ref.runtime true) 100 1 true (scripted_state pool_script)
      = (Return one_user_generator, st1) ∧
    _generate_event (Ref.runtime true) one_user_generator (scripted_state buffer_script)
      = (Return bound_event, st') ∧
    event_shape between bound_event.
Proof.
  eexists _, _.
  split; [exact (pair_eta_fst _ _ init_one_user)|].
  split; [exact (pair_eta_fst _ _ generate_bound_event)|].
  exact (generated_event_shape (Ref.runtime true) 100 1 true _ _ _ _ _ _
           (pair_eta_fst _ _ init_one_user) (pair_eta_fst _ _ generate_bound_event)).
Defined.

(** C8, as stated, fails when the draw behind the buffer duration is
    zero: the duration is then 500, which is not strictly above 500. *)
Lemma generated_buffer_duration_at_bound :
  (init (Ref.runtime true) 100 1 true (scripted_state pool_script)).1
    = Return one_user_generator ∧
  (_generate_event (Ref.runtime true) one_user_generator (scripted_state buffer_script)).1
    = Return bound_event ∧
  event_type bound_event = "buffer_event" ∧
  buffer_duration_ms bound_event = Some 500%Q ∧
  ¬ event_shape strictly_between bound_event.
Proof.
  split; [exact init_one_user|]. split; [exact generate_bound_event|].
  split; [reflexivity|]. split; [reflexivity|].
  intros (_ & _ & _ & _ & Hb & _). destruct (Hb 500%Q eq_refl) as [Hlt _].
  revert Hlt. unfold Qlt. cbn. lia.
Qed.

Lemma generated_event_validates_witness :
  ∃ st1 st',
    init (Ref.runtime true) 100 1 true (scripted_state pool_script)
      = (Return one_user_generator, st1) ∧
    _generate_event (Ref.runtime true) one_user_generator (scripted_state buffer_script)
      = (Return bound_event, st') ∧
    json_loads (Ref.runtime true) (json_dumps (Ref.runtime true) (JDict (to_dict bound_event)))
      = Some (JDict (to_dict bound_event)) ∧
    ∃ data, json_loads (Ref.runtime true) (to_json (Ref.runtime true) bound_event) = Some data ∧
            _validate_event data = Return [].
Proof.
  assert (json_loads (Ref.runtime true)
            (json_dumps (Ref.runtime true) (JDict (to_dict bound_event)))
          = Some (JDict (to_dict bound_event))) as Hrt by (vm_compute; reflexivity).
  eexists _, _.
  split; [exact (pair_eta_fst _ _ init_one_user)|].
  split; [exact (pair_eta_fst _ _ generate_bound_event)|].
  split; [exact Hrt|].
  exact (generated_event_validates (Ref.runtime true) 100 1 true _ _ _ _ _ _
           (pair_eta_fst _ _ init_one_user) (pair_eta_fst _ _ generate_bound_event) Hrt).
Defined.

(** [generate_batch(size)] returns [size] events whenever it returns. *)
Lemma generate_batch_length (R : Runtime) (g : NetflixEventGenerator) (size : nat)
    (st st' : State R) (es : list StreamingEvent) :
  generate_batch R g size st = (Return es, st') → length es = size.
Proof.
  revert st st' es. induction size as [|n IH]; intros st st' es H.
  - by apply ret_inv in H as <-.
  - cbn [generate_batch] in H. do 2 bind_step H. apply ret_inv in H as <-.
    cbn [length]. f_equal. by eapply IH.
Qed.

(** * Further properties *)

(** ** The validator reads six fields *)

Lemma check_enum_agree (field : string) (S : gset string) (d d' : gmap string json)
    (errors : list string) :
  d !! field = d' !! field →
  check_enum field S (JDict d) errors = check_enum field S (JDict d') errors.
Proof. intros H. unfold check_enum, py_get, py_getitem. by rewrite H. Qed.

Lemma missing_violations_agree (d d' : gmap string json) :
  (∀ field, field ∈ REQUIRED_FIELDS → d !! field = d' !! field) →
  missing_violations d = missing_violations d'.
Proof.
  intros H. unfold missing_violations. f_equal.
  induction REQUIRED_FIELDS as [|f fs IH]; [done|].
  assert (absent_or_empty d f = absent_or_empty d' f) as Hf.
  { unfold absent_or_empty. rewrite (H f); [done|by left]. }
  specialize (IH (fun g Hg => H g (list_elem_of_further _ _ _ Hg))).
  destruct (absent_or_empty d' f) eqn:E.
  - rewrite !filter_cons_True by (cbv beta; by rewrite ?Hf, ?E). by rewrite IH.
  - rewrite !filter_cons_False by (cbv beta; rewrite ?Hf, ?E; intros []). done.
Qed.

Lemma validate_event_agree (d d' : gmap string json) :
  (∀ field, field ∈ VALIDATED_FIELDS → d !! field = d' !! field) →
  _validate_event (JDict d) = _validate_event (JDict d').
Proof.
  intros H. unfold _validate_event.
  change (mret []) with (Return (@nil string)).
  rewrite !required_loop_spec.
  fold (missing_violations d). fold (missing_violations d').
  rewrite (missing_violations_agree d d').
  2: { intros f Hf. apply H. unfold VALIDATED_FIELDS. apply elem_of_app. by left. }
  cbn [mbind result_bind].
  rewrite (check_enum_agree "event_type" _ d d').
  2: { apply H. unfold VALIDATED_FIELDS, REQUIRED_FIELDS. set_solver. }
  destruct (check_enum "event_type" VALID_EVENT_TYPES (JDict d') _) as [errs|e]; [|done].
  cbn [mbind result_bind].
  rewrite (check_enum_agree "device_type" _ d d'); [done|].
  apply H. unfold VALIDATED_FIELDS, REQUIRED_FIELDS. set_solver.
Qed.

(** X1.  Two payloads that agree on event_id, event_type, user_id, content_id,
    timestamp and device_type get the same answer from the validator,
    violations or exception. *)
Theorem validate_event_reads_six_fields (d d' : gmap string json) :
  (∀ field, field ∈ VALIDATED_FIELDS → d !! field = d' !! field) →
  _validate_event (JDict d) = _validate_event (JDict d').
Proof. apply validate_event_agree. Qed.

Lemma validate_event_reads_six_fields_witness :
  (∀ field, field ∈ VALIDATED_FIELDS →
     valid_payload !! field = (<["session_id" := JInt 7]> valid_payload) !! field) ∧
  _validate_event (JDict valid_payload)
  = _validate_event (JDict (<["session_id" := JInt 7]> valid_payload)).
Proof.
  assert (∀ field, field ∈ VALIDATED_FIELDS →
     valid_payload !! field = (<["session_id" := JInt 7]> valid_payload) !! field) as H.
  { intros field Hf. rewrite lookup_insert_ne; [done|].
    intros <-. revert Hf. unfold VALIDATED_FIELDS, REQUIRED_FIELDS.
    rewrite !elem_of_app, !elem_of_cons, !elem_of_nil. intros Hf. destruct_or!; done. }
  split; [exact H|].
  exact (validate_event_reads_six_fields valid_payload _ H).
Defined.

(** ** The enricher and the validator together *)

Section EnricherMore.
Context (R : Runtime).
Implicit Types (d : gmap string json) (st : State R).

Lemma enrich_event_result d d' st :
  (_enrich_event R (JDict d) st).1 = Return (JDict d') →
  ∃ hb, hour_bucket_value R d = Return hb ∧
        d' = <["hour_bucket" := hb]>
               (with_metadata d (uuid4 R (world st)).1
                  (datetime_now R (uuid4 R (world st)).2).1).
Proof.
  rewrite enrich_event_eq.
  destruct (uuid4 R (world st)) as [u w]. cbn [fst snd].
  destruct (datetime_now R w) as [now w']. cbn [fst snd].
  destruct (hour_bucket_value R d) as [hb|e]; [|done].
  cbn [mbind result_bind]. intros [= <-]. by exists hb.
Qed.

Lemma validated_not_enrichment (field : string) :
  field ∈ VALIDATED_FIELDS → field ∉ ENRICHMENT_FIELDS.
Proof.
  unfold VALIDATED_FIELDS, REQUIRED_FIELDS, ENRICHMENT_FIELDS.
  rewrite !elem_of_app, !elem_of_cons, !elem_of_nil, !elem_of_union, !elem_of_singleton.
  intros H. destruct_or!; subst field; intros H'; destruct_or!; done.
Qed.

(** X2.  What the enricher returns gets from the validator the answer that
    the payload itself gets: a document that went through the enricher
    can go through the pipeline again. *)
Theorem enriched_payload_validates_alike d d' st :
  (_enrich_event R (JDict d) st).1 = Return (JDict d') →
  _validate_event (JDict d') = _validate_event (JDict d).
Proof.
  intros (hb & _ & ->)%enrich_event_result.
  apply validate_event_agree. intros field Hf.
  apply lookup_with_metadata. by apply validated_not_enrichment.
Qed.

(** X3.  Enriching twice: with an event_id in the payload, the second pass
    changes no field but processed_at, so that the document written for a
    redelivered event has the same id and replaces the first one. *)
Theorem enrich_event_twice d d1 d2 st st2 :
  is_Some (d !! "event_id") →
  (_enrich_event R (JDict d) st).1 = Return (JDict d1) →
  (_enrich_event R (JDict d1) st2).1 = Return (JDict d2) →
  ∀ k, k ≠ "processed_at" → d2 !! k = d1 !! k.
Proof.
  intros [v Hv] (hb & Hhb & ->)%enrich_event_result (hb2 & Hhb2 & ->)%enrich_event_result k Hk.
  set (u := (uuid4 R (world st)).1) in *.
  set (now := (datetime_now R (uuid4 R (world st)).2).1) in *.
  set (u2 := (uuid4 R (world st2)).1) in *.
  set (now2 := (datetime_now R (uuid4 R (world st2)).2).1) in *.
  assert (hb2 = hb) as ->.
  { revert Hhb2. unfold hour_bucket_value in *.
    rewrite (lookup_with_metadata d u now hb "timestamp") by (by vm_compute).
    rewrite Hhb. by intros [= ->]. }
  destruct (decide (k = "hour_bucket")) as [->|Hk1].
  { by rewrite !lookup_insert_eq. }
  rewrite (lookup_insert_ne _ "hour_bucket" k) by done.
  unfold with_metadata at 1.
  destruct (decide (k = "processing_version")) as [->|Hk2].
  { rewrite lookup_insert_eq. rewrite lookup_insert_ne by done.
    unfold with_metadata. by rewrite lookup_insert_eq. }
  rewrite (lookup_insert_ne _ "processing_version" k) by done.
  rewrite (lookup_insert_ne _ "processed_at" k) by done.
  destruct (decide (k = "id")) as [->|Hk3]; [|by rewrite lookup_insert_ne].
  rewrite lookup_insert_eq.
  rewrite (lookup_with_metadata d u now hb "event_id") by (by vm_compute).
  rewrite Hv. cbn [default].
  rewrite lookup_insert_ne by done. unfold with_metadata.
  rewrite !lookup_insert_ne by done. by rewrite lookup_insert_eq, Hv.
Qed.

End EnricherMore.

Lemma enriched_payload_validates_alike_witness :
  (_enrich_event (Ref.runtime true) (JDict unknown_type_payload) (quiet_state true)).1
  = Return (JDict (dict_of (_enrich_event (Ref.runtime true) (JDict unknown_type_payload)
                              (quiet_state true)).1)) ∧
  _validate_event (JDict (dict_of (_enrich_event (Ref.runtime true)
                                     (JDict unknown_type_payload) (quiet_state true)).1))
  = _validate_event (JDict unknown_type_payload).
Proof.
  assert ((_enrich_event (Ref.runtime true) (JDict unknown_type_payload) (quiet_state true)).1
          = Return (JDict (dict_of (_enrich_event (Ref.runtime true)
                                      (JDict unknown_type_payload) (quiet_state true)).1)))
    as H by (vm_compute; reflexivity).
  split; [exact H|].
  exact (enriched_payload_validates_alike (Ref.runtime true) unknown_type_payload _
           (quiet_state true) H).
Defined.

Lemma enrich_event_twice_witness :
  is_Some (valid_payload !! "event_id") ∧
  ∃ d1 d2,
    (_enrich_event (Ref.runtime true) (JDict valid_payload) (quiet_state true)).1
      = Return (JDict d1) ∧
    (_enrich_event (Ref.runtime true) (JDict d1) (scripted_state later)).1
      = Return (JDict d2) ∧
    d1 !! "processed_at" ≠ d2 !! "processed_at" ∧
    ∀ k, k ≠ "processed_at" → d2 !! k = d1 !! k.
Proof.
  assert (is_Some (valid_payload !! "event_id")) as Hid by (by eexists).
  split; [exact Hid|].
  set (d1 := dict_of (_enrich_event (Ref.runtime true) (JDict valid_payload)
                        (quiet_state true)).1).
  set (d2 := dict_of (_enrich_event (Ref.runtime true) (JDict d1) (scripted_state later)).1).
  assert ((_enrich_event (Ref.runtime true) (JDict valid_payload) (quiet_state true)).1
          = Return (JDict d1)) as H1 by (vm_compute; reflexivity).
  assert ((_enrich_event (Ref.runtime true) (JDict d1) (scripted_state later)).1
          = Return (JDict d2)) as H2 by (vm_compute; reflexivity).
  exists d1, d2. split; [exact H1|]. split; [exact H2|].
  split; [vm_compute; discriminate|].
  exact (enrich_event_twice (Ref.runtime true) valid_payload d1 d2 (quiet_state true)
           (scripted_state later) Hid H1 H2).
Defined.

(** ** The batch loop: what reaches the outside *)

Lemma str_prefix_short (n : nat) (s : string) :
  (str_len s ≤ N.of_nat n)%N → str_prefix n s = s.
Proof.
  revert n. induction s as [|c s IH]; intros n; [done|].
  cbn [str_len str_prefix]. destruct (is_continuation c).
  - intros H. by rewrite IH.
  - destruct n as [|n]; [lia|]. intros H. rewrite IH; [done|lia].
Qed.

(** X4.  A payload of at most 8192 characters is put into the envelope whole. *)
Theorem dlq_envelope_keeps_short_payload (raw_body : string) (errors : list string)
    (rejected_at : string) :
  (str_len raw_body ≤ 8192)%N →
  dict_of (Return (dlq_envelope raw_body errors rejected_at)) !! "original_event"
  = Some (JStr raw_body).
Proof.
  intros H. rewrite dlq_envelope_original_event.
  by rewrite (str_prefix_short (Z.to_nat 8192)).
Qed.

Lemma dlq_envelope_keeps_short_payload_witness :
  (str_len not_json_bytes ≤ 8192)%N ∧
  dict_of (Return (dlq_envelope not_json_bytes ["invalid JSON"] "2025-01-15T14:30:00+00:00"))
    !! "original_event" = Some (JStr not_json_bytes).
Proof.
  assert (str_len not_json_bytes ≤ 8192)%N as H by (vm_compute; discriminate).
  split; [exact H|].
  exact (dlq_envelope_keeps_short_payload not_json_bytes ["invalid JSON"] _ H).
Defined.

Section BatchMore.
Context (R : Runtime).
Implicit Types (container : json → World R → option exn * World R).
Implicit Types (p : option (string → World R → option exn * World R)).
Implicit Types (c : counters) (st : State R) (event : string) (events : list string).

(** X5.  Without a store handle [main] raises before it looks at any item,
    the empty batch included: nothing is counted, nothing is handed to
    the dead-letter sink. *)
Theorem main_without_store events st (e : exn) :
  cosmos_container R = Raise e →
  main R events st =
  (Raise e,
   mkState (world st)
     (trace st ++ [Log INFO "Received batch of %d events" [LInt (Z.of_nat (length events))]])).
Proof.
  intros H. unfold main, mbind, M_bind, lift, log, emit. by rewrite H.
Qed.

(** When the producer cannot be built, [_send_to_dlq] raises: the
    handler of the call does not cover [_get_dlq_producer]. *)
Lemma send_to_dlq_without_producer (raw_body : string) (errors : list string) st (e : exn) :
  dlq_producer R = Raise e →
  _send_to_dlq R raw_body errors st = (Raise e, st).
Proof. intros H. unfold _send_to_dlq, mbind, M_bind, lift. by rewrite H. Qed.

(** X6.  With a dead-letter connection that the client rejects, the first item
    that is not JSON or has violations ends the batch with the client's
    exception. *)
Theorem main_rejected_item_without_producer container event events st (e : exn) :
  cosmos_container R = Return container →
  dlq_producer R = Raise e →
  is_rejected R event = true →
  (main R (event :: events) st).1 = Raise e.
Proof.
  intros Hc Hp Hr. rewrite (main_eq R container _ st Hc). cbv zeta.
  cbn [for_events]. unfold mbind at 1, M_bind at 1.
  assert (∀ c st0, (loop_body R container event c st0).1 = Raise e) as Hbody.
  { intros c st0. unfold is_rejected in Hr.
    destruct (classify R event) as [|raw|?|raw errs|?] eqn:Hcl; try done.
    - apply classify_Malformed in Hcl as [Hd Hj].
      unfold loop_body, mbind, M_bind, lift, log, emit. rewrite Hd, Hj.
      by rewrite (send_to_dlq_without_producer _ _ _ e Hp).
    - apply classify_Invalid in Hcl as (data & v & vs & -> & Hd & Hj & Hv).
      unfold loop_body, mbind, M_bind, lift, log, emit. rewrite Hd, Hj, Hv.
      by rewrite (send_to_dlq_without_producer _ _ _ e Hp). }
  specialize (Hbody (mkCounters 0 0)
    (mkState (world st)
       (trace st ++ [Log INFO "Received batch of %d events"
                       [LInt (Z.of_nat (length (event :: events)))]]))).
  destruct (loop_body R container event _ _) as [[c1|e1] st1]; cbn in Hbody; [done|].
  by injection Hbody as ->.
Qed.

(** An item that raises past the handlers leaves the loop body with its
    exception and a trace that it has not touched. *)
Lemma loop_body_aborting container event c st (e : exn) :
  aborting R event = Some e →
  ∃ st', loop_body R container event c st = (Raise e, st') ∧ trace st' = trace st.
Proof.
  unfold aborting, classify.
  unfold loop_body, mbind, M_bind, lift.
  destruct (bytes_decode event) as [raw|e0] eqn:Hd.
  - destruct (json_loads R raw) as [data|]; [|done].
    destruct (_validate_event data) as [[|v vs]|e1] eqn:Hv; [| done |].
    + destruct data as [| | | | | |d]; try (cbn in Hv; discriminate Hv).
      destruct (timestamp_is_text d) eqn:Ht; [done|]. intros [= <-].
      rewrite enrich_event_eq.
      destruct (uuid4 R (world st)) as [u w], (datetime_now R w) as [now w'].
      unfold hour_bucket_value, timestamp_is_text in *.
      destruct (d !! "timestamp") as [[| | | |s| |]|]; try discriminate;
        by eexists.
    + intros [= <-]. by eexists.
  - intros [= <-]. unfold bytes_decode in Hd. destruct (utf8_valid event); [done|].
    injection Hd as <-. by eexists.
Qed.

Lemma for_events_aborts container p events event rest c st (e : exn) :
  dlq_producer R = Return p →
  Forall (fun event => is_counted R event = true) events →
  aborting R event = Some e →
  ∃ c' st1 st',
    for_events R container events c st = (Return c', st1) ∧
    for_events R container (events ++ event :: rest) c st = (Raise e, st') ∧
    trace st' = trace st1.
Proof.
  intros Hp Hall Hab. revert c st.
  induction Hall as [|ev events Hev _ IH]; intros c st.
  - destruct (loop_body_aborting container event c st e Hab) as (st' & Hb & Htr).
    exists c, st, st'. split; [done|]. split; [|done].
    cbn [app for_events]. unfold mbind, M_bind. by rewrite Hb.
  - destruct (loop_body_counted R container ev c st p Hp Hev) as (c1 & st1 & H1 & _).
    destruct (IH c1 st1) as (c' & st2 & st' & Hpre & Hall' & Htr).
    exists c', st2, st'. split; [|split; [|done]].
    + cbn [for_events]. unfold mbind, M_bind. by rewrite H1.
    + cbn [app for_events]. unfold mbind at 1, M_bind at 1. by rewrite H1.
Qed.

(** X7.  The items before a raising one have had their effects, the items
    behind it are never looked at: [main] ends with the exception of that
    item and with the trace that the items before it left. *)
Theorem main_aborts_after_prefix container p events event rest st (e : exn) :
  cosmos_container R = Return container →
  dlq_producer R = Return p →
  Forall (fun event => is_counted R event = true) events →
  aborting R event = Some e →
  ∃ c st1 st',
    for_events R container events (mkCounters 0 0)
      (mkState (world st)
         (trace st ++ [Log INFO "Received batch of %d events"
                         [LInt (Z.of_nat (length (events ++ event :: rest)))]]))
      = (Return c, st1) ∧
    main R (events ++ event :: rest) st = (Raise e, st') ∧
    trace st' = trace st1.
Proof.
  intros Hc Hp Hall Hab. rewrite (main_eq R container _ st Hc). cbv zeta.
  destruct (for_events_aborts container p events event rest (mkCounters 0 0)
    (mkState (world st)
       (trace st ++ [Log INFO "Received batch of %d events"
                       [LInt (Z.of_nat (length (events ++ event :: rest)))]])) e Hp Hall Hab)
    as (c & st1 & st' & H1 & H2 & Htr).
  exists c, st1, st'. split; [exact H1|]. split; [by rewrite H2|exact Htr].
Qed.

Lemma filter_upsert_app (t1 t2 : list effect) :
  length (filter (fun e => is_upsert e) (t1 ++ t2))
  = (length (filter (fun e => is_upsert e) t1)
     + length (filter (fun e => is_upsert e) t2))%nat.
Proof. by rewrite filter_app, length_app. Qed.

Lemma filter_dlq_app (t1 t2 : list effect) :
  length (filter (fun e => is_dlq_write e) (t1 ++ t2))
  = (length (filter (fun e => is_dlq_write e) t1)
     + length (filter (fun e => is_dlq_write e) t2))%nat.
Proof. by rewrite filter_app, length_app. Qed.

Ltac count_effects :=
  rewrite ?filter_upsert_app, ?filter_dlq_app; cbn;
  repeat first [ rewrite decide_True by exact I | rewrite decide_False by (intros []) ];
  cbn [length]; try split; lia.

Lemma send_to_dlq_effects (raw_body : string) (errors : list string) st p :
  dlq_producer R = Return p →
  length (filter (fun e => is_upsert e) (trace (_send_to_dlq R raw_body errors st).2))
  = length (filter (fun e => is_upsert e) (trace st)) ∧
  length (filter (fun e => is_dlq_write e) (trace (_send_to_dlq R raw_body errors st).2))
  = (length (filter (fun e => is_dlq_write e) (trace st))
     + writes_per_reject p)%nat.
Proof.
  intros Hp. destruct p as [producer|].
  - rewrite (send_to_dlq_configured R _ _ _ _ Hp). cbv zeta.
    destruct (producer _ _) as [[f|] w]; cbn [fst snd trace]; count_effects.
  - rewrite (send_to_dlq_unconfigured R _ _ _ Hp). cbn [snd trace]. count_effects.
Qed.

Lemma loop_body_effects container event c st p :
  dlq_producer R = Return p →
  is_counted R event = true →
  ∃ c' st', loop_body R container event c st = (Return c', st') ∧
    length (filter (fun e => is_upsert e) (trace st'))
    = (length (filter (fun e => is_upsert e) (trace st))
       + if is_valid R event then 1 else 0)%nat ∧
    length (filter (fun e => is_dlq_write e) (trace st'))
    = (length (filter (fun e => is_dlq_write e) (trace st))
       + if is_rejected R event then writes_per_reject p else 0)%nat.
Proof.
  intros Hp. unfold is_counted, is_valid, is_rejected.
  destruct (classify R event) as [|raw|e|raw errs|d] eqn:Hc; try done; intros _.
  - rewrite (loop_body_malformed R container _ c st p raw Hp Hc).
    eexists _, _. split; [reflexivity|].
    destruct (send_to_dlq_effects raw ["invalid JSON"]
      (mkState (world st) (trace st ++ [Log ERROR "Malformed JSON in event" []])) p Hp)
      as [-> ->].
    cbn [trace]. count_effects.
  - rewrite (loop_body_invalid R container _ c st p raw errs Hp Hc).
    eexists _, _. split; [reflexivity|].
    destruct (send_to_dlq_effects raw errs
      (mkState (world st)
         (trace st ++ [Log WARNING "Validation failed: %s" [LStrs errs]])) p Hp)
      as [-> ->].
    cbn [trace]. count_effects.
  - destruct (loop_body_valid R container _ c st d Hc) as (body & w & f & w' & _ & _ & ->).
    eexists _, _. split; [reflexivity|]. cbn [trace].
    destruct f as [[]|]; count_effects.
Qed.

(** X8.  In a batch of counted items the store is written to once for each
    item that decodes and validates, and the dead-letter sink once for each
    item that is not JSON or has violations when a producer is there, and
    never when there is none. *)
Theorem main_effect_counts container p events st :
  cosmos_container R = Return container →
  dlq_producer R = Return p →
  Forall (fun event => is_counted R event = true) events →
  ∃ c st', main R events st = (Return c, st') ∧
    length (filter (fun e => is_upsert e) (trace st'))
    = (length (filter (fun e => is_upsert e) (trace st))
       + length (filter (fun event => is_valid R event) events))%nat ∧
    length (filter (fun e => is_dlq_write e) (trace st'))
    = (length (filter (fun e => is_dlq_write e) (trace st))
       + writes_per_reject p * length (filter (fun event => is_rejected R event) events))%nat.
Proof.
  intros Hc Hp Hall. rewrite (main_eq R container _ st Hc). cbv zeta.
  assert (∀ c st0, ∃ c' st',
    for_events R container events c st0 = (Return c', st') ∧
    length (filter (fun e => is_upsert e) (trace st'))
    = (length (filter (fun e => is_upsert e) (trace st0))
       + length (filter (fun event => is_valid R event) events))%nat ∧
    length (filter (fun e => is_dlq_write e) (trace st'))
    = (length (filter (fun e => is_dlq_write e) (trace st0))
       + writes_per_reject p * length (filter (fun event => is_rejected R event) events))%nat)
    as Hloop.
  { induction Hall as [|ev evs Hev _ IH]; intros c st0.
    - exists c, st0. split; [done|]. cbn. split; lia.
    - destruct (loop_body_effects container ev c st0 p Hp Hev)
        as (c1 & st1 & H1 & Hu1 & Hd1).
      destruct (IH c1 st1) as (c' & st' & H' & Hu & Hd).
      exists c', st'. split.
      { cbn [for_events]. unfold mbind, M_bind. by rewrite H1. }
      rewrite Hu, Hd, Hu1, Hd1.
      destruct (is_valid R ev) eqn:E1; destruct (is_rejected R ev) eqn:E2.
      all: first
        [ rewrite (filter_cons_True (fun event => Is_true (is_valid R event)))
            by (cbv beta; by rewrite E1)
        | rewrite (filter_cons_False (fun event => Is_true (is_valid R event)))
            by (cbv beta; rewrite E1; intros []) ].
      all: first
        [ rewrite (filter_cons_True (fun event => Is_true (is_rejected R event)))
            by (cbv beta; by rewrite E2)
        | rewrite (filter_cons_False (fun event => Is_true (is_rejected R event)))
            by (cbv beta; rewrite E2; intros []) ].
      all: cbn [length]; split; lia. }
  destruct (Hloop (mkCounters 0 0)
    (mkState (world st)
       (trace st ++ [Log INFO "Received batch of %d events"
                       [LInt (Z.of_nat (length events))]])))
    as (c & st' & -> & Hu & Hd).
  eexists _, _. split; [reflexivity|]. cbn [trace] in *.
  rewrite filter_upsert_app in Hu. rewrite filter_dlq_app in Hd.
  rewrite filter_upsert_app, filter_dlq_app, Hu, Hd. count_effects.
Qed.

End BatchMore.

Lemma main_without_store_witness :
  cosmos_container storeless_runtime = Raise KeyError ∧
  main storeless_runtime [] storeless_state =
  (Raise KeyError,
   @mkState storeless_runtime (world storeless_state)
     (trace storeless_state ++
      [Log INFO "Received batch of %d events" [LInt (Z.of_nat (length (@nil string)))]])).
Proof.
  split; [reflexivity|].
  exact (main_without_store storeless_runtime [] storeless_state KeyError eq_refl).
Defined.

Lemma main_rejected_item_without_producer_witness :
  cosmos_container misconfigured_runtime = Return Ref.store_call ∧
  dlq_producer misconfigured_runtime = Raise ValueError ∧
  is_rejected misconfigured_runtime no_id_bytes = true ∧
  (main misconfigured_runtime (no_id_bytes :: [valid_bytes]) misconfigured_state).1
  = Raise ValueError.
Proof.
  assert (is_rejected misconfigured_runtime no_id_bytes = true) as Hr
    by (vm_compute; reflexivity).
  split; [reflexivity|]. split; [reflexivity|]. split; [exact Hr|].
  exact (main_rejected_item_without_producer misconfigured_runtime Ref.store_call
           no_id_bytes [valid_bytes] misconfigured_state ValueError eq_refl eq_refl Hr).
Defined.

Lemma main_aborts_after_prefix_witness :
  Forall (fun event => is_counted (Ref.runtime true) event = true)
    [not_json_bytes; valid_bytes] ∧
  aborting (Ref.runtime true) numeric_timestamp_bytes = Some AttributeError ∧
  ∃ c st1 st',
    for_events (Ref.runtime true) Ref.store_call [not_json_bytes; valid_bytes]
      (mkCounters 0 0)
      (@mkState (Ref.runtime true) (world (quiet_state true))
         (trace (quiet_state true) ++
          [Log INFO "Received batch of %d events"
             [LInt (Z.of_nat (length ([not_json_bytes; valid_bytes]
                                        ++ numeric_timestamp_bytes :: [valid_bytes])))]]))
      = (Return c, st1) ∧
    main (Ref.runtime true)
      ([not_json_bytes; valid_bytes] ++ numeric_timestamp_bytes :: [valid_bytes])
      (quiet_state true) = (Raise AttributeError, st') ∧
    trace st' = trace st1.
Proof.
  assert (Forall (fun event => is_counted (Ref.runtime true) event = true)
            [not_json_bytes; valid_bytes]) as Hall
    by (repeat constructor; vm_compute; reflexivity).
  assert (aborting (Ref.runtime true) numeric_timestamp_bytes = Some AttributeError) as Hab
    by (vm_compute; reflexivity).
  split; [exact Hall|]. split; [exact Hab|].
  exact (main_aborts_after_prefix (Ref.runtime true) Ref.store_call (Some Ref.dlq_call)
           [not_json_bytes; valid_bytes] numeric_timestamp_bytes [valid_bytes]
           (quiet_state true) AttributeError eq_refl eq_refl Hall Hab).
Defined.

(** The batch of the example: the malformed item was dead-lettered and
    the first valid item written before the third item ended the batch. *)
Example main_aborts_after_prefix_trace :
  filter (fun e => is_upsert e || is_dlq_write e)
    (trace (main (Ref.runtime true)
              ([not_json_bytes; valid_bytes] ++ numeric_timestamp_bytes :: [valid_bytes])
              (quiet_state true)).2)
  = [ DlqWrite (Ref.dumps (dlq_envelope not_json_bytes ["invalid JSON"]
                             "2025-01-15T14:30:00+00:00")) None;
      Upsert (JDict (dict_of (_enrich_event (Ref.runtime true) (JDict valid_payload)
                                (quiet_state true)).1)) None ].
Proof. vm_compute. reflexivity. Qed.

Lemma main_effect_counts_witness :
  Forall (fun event => is_counted (Ref.runtime true) event = true) four_outcomes_batch ∧
  ∃ c st', main (Ref.runtime true) four_outcomes_batch (scripted_state throttled)
           = (Return c, st') ∧
    length (filter (fun e => is_upsert e) (trace st'))
    = (length (filter (fun e => is_upsert e) (trace (scripted_state throttled)))
       + length (filter (fun event => is_valid (Ref.runtime true) event)
                   four_outcomes_batch))%nat ∧
    length (filter (fun e => is_dlq_write e) (trace st'))
    = (length (filter (fun e => is_dlq_write e) (trace (scripted_state throttled)))
       + writes_per_reject (Some Ref.dlq_call)
         * length (filter (fun event => is_rejected (Ref.runtime true) event)
                     four_outcomes_batch))%nat.
Proof.
  assert (Forall (fun event => is_counted (Ref.runtime true) event = true)
            four_outcomes_batch) as Hall
    by (repeat constructor; vm_compute; reflexivity).
  split; [exact Hall|].
  exact (main_effect_counts (Ref.runtime true) Ref.store_call (Some Ref.dlq_call)
           four_outcomes_batch (scripted_state throttled) eq_refl eq_refl Hall).
Defined.

(** ** The event model *)

Lemma to_dict_lookup_inv (e : StreamingEvent) (k : string) (v : json) :
  to_dict e !! k = Some v → (k, v) ∈ asdict e ∧ is_not_None v = true.
Proof.
  unfold to_dict. intros H%elem_of_list_to_map_2.
  apply list_elem_of_filter in H as [Hv Hin]. split; [done|].
  cbn in Hv. by destruct (is_not_None v).
Qed.

Lemma to_dict_keys_dom (e : StreamingEvent) :
  dom (to_dict e)
  = ALWAYS_WRITTEN ∪ key_if_set "buffer_duration_ms" (buffer_duration_ms e)
                   ∪ key_if_set "error_code" (error_code e).
Proof.
  unfold to_dict. rewrite dom_list_to_map_L.
  destruct (buffer_duration_ms e) as [b|] eqn:Hb, (error_code e) as [c|] eqn:Hc;
    unfold asdict; rewrite Hb, Hc; cbn [from_option];
    unfold json_of_location, json_of_quality;
    repeat (first [rewrite filter_cons_True by (cbn; exact I)
                  |rewrite filter_cons_False by (cbn; tauto)]);
    rewrite filter_nil; cbn [fmap list_fmap fst key_if_set list_to_set];
    unfold ALWAYS_WRITTEN; set_solver.
Qed.

(** X9.  [to_dict] holds no [None]: the sixteen fields that are never [None]
    are always written, and each of buffer_duration_ms and error_code is
    written exactly when it is set. *)
Theorem to_dict_keys (e : StreamingEvent) :
  dom (to_dict e)
  = ALWAYS_WRITTEN ∪ key_if_set "buffer_duration_ms" (buffer_duration_ms e)
                   ∪ key_if_set "error_code" (error_code e)
  ∧ ∀ k, to_dict e !! k ≠ Some JNull.
Proof.
  split; [apply to_dict_keys_dom|].
  intros k H. by apply to_dict_lookup_inv in H as [_ ?].
Qed.

Lemma EventType_iff (t : string) : t ∈ EventType ↔ t ∈ VALID_EVENT_TYPES.
Proof. unfold EventType, VALID_EVENT_TYPES. set_solver. Qed.

Lemma DeviceType_iff (t : string) : t ∈ DeviceType ↔ t ∈ VALID_DEVICE_TYPES.
Proof. unfold DeviceType, VALID_DEVICE_TYPES. set_solver. Qed.

Lemma to_dict_validated (e : StreamingEvent) :
  to_dict e !! "event_id" = Some (JStr (event_id e)) ∧
  to_dict e !! "event_type" = Some (JStr (event_type e)) ∧
  to_dict e !! "user_id" = Some (JStr (user_id e)) ∧
  to_dict e !! "content_id" = Some (JStr (content_id e)) ∧
  to_dict e !! "timestamp" = Some (JStr (timestamp e)) ∧
  to_dict e !! "device_type" = Some (JStr (device_type e)).
Proof.
  repeat split.
  - exact (to_dict_lookup e 0 _ _ eq_refl eq_refl).
  - exact (to_dict_lookup e 1 _ _ eq_refl eq_refl).
  - exact (to_dict_lookup e 2 _ _ eq_refl eq_refl).
  - exact (to_dict_lookup e 4 _ _ eq_refl eq_refl).
  - exact (to_dict_lookup e 7 _ _ eq_refl eq_refl).
  - exact (to_dict_lookup e 10 _ _ eq_refl eq_refl).
Qed.

Lemma truthy_JStr_iff (s : string) : truthy (JStr s) = true ↔ s ≠ EmptyString.
Proof.
  split; [|apply truthy_JStr]. cbn. intros H ->. by rewrite bool_decide_eq_true_2 in H.
Qed.

(** [validate] returns [True] exactly on the events with the six fields
    filled and the two types in their enumerations. *)
Lemma validate_True (e : StreamingEvent) :
  validate e = inr true ↔
  event_id e ≠ EmptyString ∧ user_id e ≠ EmptyString ∧ content_id e ≠ EmptyString ∧
  timestamp e ≠ EmptyString ∧ event_type e ∈ EventType ∧ device_type e ∈ DeviceType.
Proof.
  destruct (to_dict_validated e) as (L0 & L1 & L2 & L4 & L7 & L10).
  unfold validate, validate_required. cbn [check_required_fields].
  rewrite L0, L1, L2, L4, L7, L10.
  destruct (truthy (JStr (event_id e))) eqn:H0; cbn [negb].
  2:{ split; [done|]. intros (H & _). apply truthy_JStr in H. congruence. }
  destruct (truthy (JStr (event_type e))) eqn:H1; cbn [negb].
  2:{ split; [done|]. intros (_ & _ & _ & _ & [H _]%EventType_valid & _).
      apply truthy_JStr in H. congruence. }
  destruct (truthy (JStr (user_id e))) eqn:H2; cbn [negb].
  2:{ split; [done|]. intros (_ & H & _). apply truthy_JStr in H. congruence. }
  destruct (truthy (JStr (content_id e))) eqn:H4; cbn [negb].
  2:{ split; [done|]. intros (_ & _ & H & _). apply truthy_JStr in H. congruence. }
  destruct (truthy (JStr (timestamp e))) eqn:H7; cbn [negb].
  2:{ split; [done|]. intros (_ & _ & _ & H & _). apply truthy_JStr in H. congruence. }
  destruct (truthy (JStr (device_type e))) eqn:H10; cbn [negb].
  2:{ split; [done|]. intros (_ & _ & _ & _ & _ & [H _]%DeviceType_valid).
      apply truthy_JStr in H. congruence. }
  apply truthy_JStr_iff in H0, H2, H4, H7.
  destruct (bool_decide (event_type e ∈ EventType)) eqn:Ht; cbn [negb].
  2:{ apply bool_decide_eq_false in Ht. split; [done|tauto]. }
  destruct (bool_decide (device_type e ∈ DeviceType)) eqn:Hd; cbn [negb].
  2:{ apply bool_decide_eq_false in Hd. split; [done|tauto]. }
  apply bool_decide_eq_true in Ht, Hd. tauto.
Qed.

Ltac required_field :=
  unfold REQUIRED_FIELDS; rewrite !elem_of_cons; tauto.

(** X10.  The check of the model and the check of the processor agree but on
    the device type: [validate] returns [True] on an event exactly when
    the processor's validator finds no violation in its wire form and
    the event names a device type. *)
Theorem validate_agrees_with_processor (e : StreamingEvent) :
  validate e = inr true ↔
  _validate_event (JDict (to_dict e)) = Return [] ∧ device_type e ≠ EmptyString.
Proof.
  rewrite validate_True.
  destruct (to_dict_validated e) as (L0 & L1 & L2 & L4 & L7 & L10).
  split.
  - intros (H0 & H2 & H4 & H7 & Ht & Hd). split; [by apply validate_to_dict|].
    by apply DeviceType_valid in Hd as [? _].
  - intros [Hv Hd].
    rewrite validate_event_eq in Hv.
    2:{ unfold enum_checkable. rewrite L1. apply orb_true_r. }
    2:{ unfold enum_checkable. rewrite L10. apply orb_true_r. }
    injection Hv as Hv. unfold violations in Hv.
    apply app_eq_nil in Hv as [Hm [Het Hdt]%app_eq_nil].
    rewrite missing_violations_nil in Hm. rewrite enum_violation_nil in Het, Hdt.
    assert (∀ field s, field ∈ REQUIRED_FIELDS → to_dict e !! field = Some (JStr s) →
                       s ≠ EmptyString) as Hreq.
    { intros field s Hf Hl. specialize (Hm field Hf). unfold absent_or_empty in Hm.
      rewrite Hl in Hm. apply negb_false_iff in Hm. by apply truthy_JStr_iff. }
    assert (event_type e ≠ EmptyString) as Hte
        by (apply (Hreq "event_type"); [required_field|done]).
    split; [apply (Hreq "event_id"); [required_field|done]|].
    split; [apply (Hreq "user_id"); [required_field|done]|].
    split; [apply (Hreq "content_id"); [required_field|done]|].
    split; [apply (Hreq "timestamp"); [required_field|done]|].
    split.
    + apply EventType_iff. specialize (Het _ L1 (truthy_JStr _ Hte)).
      cbn in Het. by apply bool_decide_eq_true in Het.
    + apply DeviceType_iff. specialize (Hdt _ L10 (truthy_JStr _ Hd)).
      cbn in Hdt. by apply bool_decide_eq_true in Hdt.
Qed.

(** An event without a device type is the case on which the two differ. *)
Example validate_needs_device_type :
  validate (mkEvent "abc-123" "video_start" "U0000001" EmptyString "NF001" EmptyString
              EmptyString "2025-01-15T14:30:00Z" 0 0 EmptyString EmptyString
              (mkLocation "US" "Texas" "Houston" (2976 # 100) (-9536 # 100))
              (mkQuality "480p" 2500 "AAC" "H.265" false) None None EmptyString "standard")
  = inl "Missing required field: device_type".
Proof. vm_compute. reflexivity. Qed.

(** ** The generator *)

Lemma py_round2_bounds (x : Q) (D : Z) :
  (0 <= x)%Q → (x <= inject_Z D)%Q →
  (0 <= py_round x 2)%Q ∧ (py_round x 2 <= inject_Z D)%Q.
Proof.
  intros Hlo Hhi. unfold py_round.
  change (inject_Z (10 ^ Z.of_nat 2)) with 100%Q.
  destruct (round_half_even_bounds (x * 100) 0 (D * 100)) as [Hl Hh].
  { change (inject_Z 0) with 0%Q. lra. }
  { rewrite inject_Z_mult. change (inject_Z 100) with 100%Q. lra. }
  rewrite Qred_correct. rewrite Zle_Qle in Hl, Hh.
  rewrite inject_Z_mult in Hh. change (inject_Z 100) with 100%Q in Hh.
  change (inject_Z 0) with 0%Q in Hl.
  set (r := inject_Z (round_half_even (x * 100))) in *.
  split; [apply Qle_shift_div_l|apply Qle_shift_div_r]; lra.
Qed.

Lemma catalog_duration (c : Content) : c ∈ CONTENT_CATALOG → 0 ≤ c_duration c.
Proof.
  unfold CONTENT_CATALOG. rewrite !elem_of_cons, elem_of_nil. intros H.
  destruct_or!; try done; by subst c.
Qed.

Lemma quality_pair (tier : string) (qs : list (string * Z)) (q : string * Z) :
  assoc_getitem QUALITY_MAP tier = Return qs → q ∈ qs → q ∈ QUALITY_PAIRS.
Proof.
  unfold QUALITY_PAIRS, QUALITY_MAP. cbn [assoc_getitem fmap list_fmap snd concat app].
  repeat (case_bool_decide; [intros [= <-]; set_unfold; tauto|]). done.
Qed.

Section GeneratedMore.
Context (R : Runtime).
Implicit Types (st : State R).

Lemma random_uniform_range (D : Z) st st' (x : Q) :
  0 ≤ D → random_uniform R 0 (inject_Z D) st = (Return x, st') →
  (0 <= x)%Q ∧ (x <= inject_Z D)%Q.
Proof.
  intros HD. unfold random_uniform. intros H. bind_step H. apply ret_inv in H as <-.
  apply random_random_range in Ha as [Hlo Hhi].
  rewrite Zle_Qle in HD. change (inject_Z 0) with 0%Q in HD.
  set (d := inject_Z D) in *. split; nra.
Qed.

Lemma generate_event_of_user (g : NetflixEventGenerator) st st'
    (e : StreamingEvent) :
  _generate_event R g st = (Return e, st') → ∃ user, user ∈ users g ∧ of_user user e.
Proof.
  intros H. unfold _generate_event in H.
  do 3 bind_step H. bind_step H. apply lift_inv in Ha2. do 7 bind_step H.
  apply ret_inv in H as <-.
  apply random_choice_elem in Ha.
  exists a. split; [done|]. unfold of_user. cbn. tauto.
Qed.

(** X12.  Every event takes its six user attributes from one user of the
    pool and its three content attributes from one entry of the catalog,
    within whose length the playback position and the watched duration
    lie; it carries no error code. *)
Theorem generated_event_consistent (g : NetflixEventGenerator) st st' (e : StreamingEvent) :
  _generate_event R g st = (Return e, st') →
  (∃ user, user ∈ users g ∧ of_user user e) ∧
  (∃ content, content ∈ CONTENT_CATALOG ∧ of_content content e) ∧
  error_code e = None.
Proof.
  intros H. unfold _generate_event in H.
  do 3 bind_step H. bind_step H. apply lift_inv in Ha2. do 7 bind_step H.
  apply ret_inv in H as <-.
  apply random_choice_elem in Ha, Ha0.
  pose proof (catalog_duration _ Ha0) as HD.
  apply random_uniform_range in Ha4; [|done].
  split; [exists a; split; [done|]; unfold of_user; cbn; tauto|].
  split; [|done]. exists a0. split; [done|].
  unfold of_content. cbn [content_id content_title content_type
    playback_position_seconds duration_seconds].
  split; [done|]. split; [done|]. split; [done|].
  destruct (py_round2_bounds _ _ (proj1 Ha4) (proj2 Ha4)) as [? ?].
  split; [done|]. split; [done|].
  destruct (bool_decide (a1 = "video_stop") || bool_decide (a1 = "video_complete")).
  - apply random_uniform_range in Ha5 as [? ?]; [|done]. by apply py_round2_bounds.
  - apply ret_inv in Ha5 as <-. rewrite py_round_zero.
    rewrite Zle_Qle in HD. by split.
Qed.

(** X13.  The quality settings of every event are a pair of [QUALITY_MAP]
    with the two fixed codecs, and the HDR flag is set exactly for the
    resolution 4K_HDR. *)
Theorem generated_quality_settings (g : NetflixEventGenerator) st st' (e : StreamingEvent) :
  _generate_event R g st = (Return e, st') →
  (resolution (quality_settings e), bitrate_kbps (quality_settings e)) ∈ QUALITY_PAIRS ∧
  audio_codec (quality_settings e) = "AAC" ∧
  video_codec (quality_settings e) = "H.265" ∧
  (hdr_enabled (quality_settings e) = true ↔ resolution (quality_settings e) = "4K_HDR").
Proof.
  intros H. unfold _generate_event in H.
  do 3 bind_step H. bind_step H. apply lift_inv in Ha2. do 7 bind_step H.
  apply ret_inv in H as <-.
  apply random_choice_elem in Ha3.
  pose proof (quality_pair _ _ _ Ha2 Ha3) as Hq.
  cbn [quality_settings resolution bitrate_kbps audio_codec video_codec hdr_enabled].
  split; [by destruct a3|]. split; [done|]. split; [done|].
  unfold QUALITY_PAIRS in Hq. cbn in Hq.
  rewrite !elem_of_cons, elem_of_nil in Hq.
  destruct_or!; try done; subst a3; cbn; split; done.
Qed.

Lemma generate_event_valid (g : NetflixEventGenerator) st st' (e : StreamingEvent) :
  Forall user_shape (users g) →
  _generate_event R g st = (Return e, st') → validate e = inr true.
Proof.
  intros Hpool He. apply validate_True.
  destruct (generate_event_shape R g st st' e Hpool He) as (Ht & Hd & [digits Hu] & _).
  destruct (generate_event_identified R g st st' e He) as (Hid & Hc & Hts).
  repeat split; try done. by rewrite Hu.
Qed.

(** X11.  Every event of a generator built by the constructor passes the
    model's own [validate]. *)
Theorem generated_event_passes_validate (eps : Z) (n : nat) (dry : bool) st0 st1 st st'
    (g : NetflixEventGenerator) (e : StreamingEvent) :
  init R eps n dry st0 = (Return g, st1) →
  _generate_event R g st = (Return e, st') →
  validate e = inr true.
Proof.
  intros Hg He. eapply generate_event_valid; [|exact He]. by eapply init_users_shape.
Qed.

(** X14.  The wire form of every event has the sixteen keys that are always
    written, the key buffer_duration_ms exactly for a buffer event, and
    never the key error_code. *)
Theorem generated_event_wire_keys (g : NetflixEventGenerator) st st' (e : StreamingEvent) :
  _generate_event R g st = (Return e, st') →
  dom (to_dict e)
  = ALWAYS_WRITTEN ∪ (if bool_decide (event_type e = "buffer_event")
                      then {[ "buffer_duration_ms" ]} else ∅).
Proof.
  intros H. rewrite (to_dict_keys_dom e).
  unfold _generate_event in H.
  do 3 bind_step H. bind_step H. apply lift_inv in Ha2. do 7 bind_step H.
  apply ret_inv in H as <-.
  cbn [buffer_duration_ms error_code event_type key_if_set].
  rewrite (right_id_L ∅ (∪)).
  destruct (bool_decide (a1 = "buffer_event")).
  - bind_step Ha6. by apply ret_inv in Ha6 as <-.
  - by apply ret_inv in Ha6 as <-.
Qed.

End GeneratedMore.

Lemma generated_event_consistent_witness :
  ∃ st',
    _generate_event (Ref.runtime true) one_user_generator (scripted_state buffer_script)
      = (Return bound_event, st') ∧
    (∃ user, user ∈ users one_user_generator ∧ of_user user bound_event) ∧
    (∃ content, content ∈ CONTENT_CATALOG ∧ of_content content bound_event) ∧
    error_code bound_event = None.
Proof.
  eexists.
  split; [exact (pair_eta_fst _ _ generate_bound_event)|].
  exact (generated_event_consistent (Ref.runtime true) _ _ _ _
           (pair_eta_fst _ _ generate_bound_event)).
Defined.

Lemma generated_quality_settings_witness :
  ∃ st',
    _generate_event (Ref.runtime true) one_user_generator (scripted_state buffer_script)
      = (Return bound_event, st') ∧
    (resolution (quality_settings bound_event), bitrate_kbps (quality_settings bound_event))
      ∈ QUALITY_PAIRS ∧
    audio_codec (quality_settings bound_event) = "AAC" ∧
    video_codec (quality_settings bound_event) = "H.265" ∧
    (hdr_enabled (quality_settings bound_event) = true
     ↔ resolution (quality_settings bound_event) = "4K_HDR").
Proof.
  eexists.
  split; [exact (pair_eta_fst _ _ generate_bound_event)|].
  exact (generated_quality_settings (Ref.runtime true) _ _ _ _
           (pair_eta_fst _ _ generate_bound_event)).
Defined.

Lemma generated_event_passes_validate_witness :
  ∃ st1 st',
    init (Ref.runtime true) 100 1 true (scripted_state pool_script)
      = (Return one_user_generator, st1) ∧
    _generate_event (Ref.runtime true) one_user_generator (scripted_state buffer_script)
      = (Return bound_event, st') ∧
    validate bound_event = inr true.
Proof.
  eexists _, _.
  split; [exact (pair_eta_fst _ _ init_one_user)|].
  split; [exact (pair_eta_fst _ _ generate_bound_event)|].
  exact (generated_event_passes_validate (Ref.runtime true) 100 1 true _ _ _ _ _ _
           (pair_eta_fst _ _ init_one_user) (pair_eta_fst _ _ generate_bound_event)).
Defined.

Lemma generated_event_wire_keys_witness :
  ∃ st',
    _generate_event (Ref.runtime true) one_user_generator (scripted_state buffer_script)
      = (Return bound_event, st') ∧
    dom (to_dict bound_event)
    = ALWAYS_WRITTEN ∪ (if bool_decide (event_type bound_event = "buffer_event")
                        then {[ "buffer_duration_ms" ]} else ∅).
Proof.
  eexists.
  split; [exact (pair_eta_fst _ _ generate_bound_event)|].
  exact (generated_event_wire_keys (Ref.runtime true) _ _ _ _
           (pair_eta_fst _ _ generate_bound_event)).
Defined.

(** ** The user pool *)

Lemma nat_of_digits_acc (acc : N) (s : string) :
  Ref.nat_of_digits acc s
  = (acc * 10 ^ N.of_nat (String.length s) + Ref.nat_of_digits 0 s)%N.
Proof.
  revert acc. induction s as [|c s IH]; intros acc.
  - cbn. lia.
  - cbn [Ref.nat_of_digits String.length]. rewrite IH, (IH (0 * 10 + _)%N).
    rewrite Nat2N.inj_succ, N.pow_succ_r'. lia.
Qed.

Lemma pretty_N_char_value (d : N) :
  (d < 10)%N → (N_of_ascii (pretty_N_char d) - 48)%N = d.
Proof.
  intros Hd.
  assert (d = 0 ∨ d = 1 ∨ d = 2 ∨ d = 3 ∨ d = 4 ∨ d = 5 ∨ d = 6 ∨ d = 7 ∨ d = 8 ∨ d = 9)%N
    as H by lia.
  destruct_or!; by subst d.
Qed.

Lemma nat_of_digits_pretty_go (x : N) (s : string) :
  Ref.nat_of_digits 0 (pretty_N_go x s)
  = (x * 10 ^ N.of_nat (String.length s) + Ref.nat_of_digits 0 s)%N.
Proof.
  revert s. induction (N.lt_wf_0 x) as [x _ IH]; intros s.
  assert (x = 0 ∨ 0 < x)%N as [-> | Hx] by lia.
  - rewrite pretty_N_go_0. lia.
  - rewrite pretty_N_go_step by done. rewrite IH by (by apply N.div_lt).
    cbn [Ref.nat_of_digits String.length].
    rewrite (nat_of_digits_acc (0 * 10 + _)%N).
    rewrite pretty_N_char_value by (by apply N.mod_lt).
    rewrite Nat2N.inj_succ, N.pow_succ_r'.
    pose proof (N.div_mod x 10 ltac:(done)) as Hdm.
    set (q := (x `div` 10)%N) in *. set (r := (x `mod` 10)%N) in *.
    set (p := (10 ^ N.of_nat (String.length s))%N). nia.
Qed.

Lemma nat_of_digits_pretty (n : N) : Ref.nat_of_digits 0 (pretty n) = n.
Proof.
  unfold pretty, pretty_N. case_decide as Hn; [by subst n|].
  rewrite nat_of_digits_pretty_go. cbn. lia.
Qed.

Lemma nat_of_digits_zeros (k : nat) (s : string) :
  Ref.nat_of_digits 0 (String.concat EmptyString (replicate k "0") +:+ s)
  = Ref.nat_of_digits 0 s.
Proof.
  induction k as [|k IH]; [done|].
  cbn [replicate]. destruct k as [|k]; [done|].
  cbn [replicate] in *. cbn [String.concat] in *.
  exact IH.
Qed.

(** The digits of a zero-filled number read back as the number, whatever
    the width: two numbers are never written alike. *)
Lemma nat_of_digits_zfill (w : nat) (n : N) : Ref.nat_of_digits 0 (zfill w n) = n.
Proof. unfold zfill. by rewrite nat_of_digits_zeros, nat_of_digits_pretty. Qed.

Lemma zfill_inj (w : nat) (n m : N) : zfill w n = zfill w m → n = m.
Proof.
  intros H. by rewrite <- (nat_of_digits_zfill w n), <- (nat_of_digits_zfill w m), H.
Qed.

Lemma user_id_inj (i j : nat) :
  "U" +:+ zfill 7 (N.of_nat i) = "U" +:+ zfill 7 (N.of_nat j) → i = j.
Proof. intros [= H]. apply zfill_inj in H. lia. Qed.

Section PoolMore.
Context (R : Runtime).
Implicit Types (st : State R).

Lemma random_randint_range (a b : Z) st st' (x : Z) :
  random_randint R a b st = (Return x, st') → a ≤ x ≤ b.
Proof.
  unfold random_randint. destruct (b <? a) eqn:Hab; [done|].
  apply Z.ltb_ge in Hab. intros H. bind_step H. apply ret_inv in H as <-.
  pose proof (Z.mod_pos_bound (Z.of_N a0) (b - a + 1) ltac:(lia)).
  set (r := Z.of_N a0 `mod` (b - a + 1)) in *. lia.
Qed.

Lemma build_user_entry (i : nat) st st' (u : User) :
  build_user R i st = (Return u, st') → pool_entry i u.
Proof.
  unfold build_user. intros H. do 5 bind_step H. apply ret_inv in H as <-.
  apply random_choices1_elem in Ha, Ha1. apply random_randint_range in Ha0.
  apply random_choice_elem in Ha3.
  unfold pool_entry. cbn [u_user_id u_profile_id u_device_type u_location u_subscription_tier].
  split; [done|]. split; [by exists a0|]. done.
Qed.

Lemma build_users_entries (is_ : list nat) (acc : list User) st st' (us : list User) :
  build_users R is_ acc st = (Return us, st') →
  ∃ new, us = acc ++ new ∧ Forall2 pool_entry is_ new.
Proof.
  revert acc st. induction is_ as [|i is_ IH]; intros acc st H.
  - apply ret_inv in H as <-. exists []. by rewrite app_nil_r.
  - cbn [build_users] in H. bind_step H. apply build_user_entry in Ha.
    apply IH in H as (new & -> & Hnew). exists (a :: new).
    rewrite <- app_assoc. split; [done|]. by constructor.
Qed.

Lemma pool_entries_ids (is_ : list nat) (us : list User) :
  Forall2 pool_entry is_ us →
  u_user_id <$> us = (fun i => "U" +:+ zfill 7 (N.of_nat i)) <$> is_.
Proof.
  induction 1 as [|i u is_ us [Hu _] _ IH]; [done|].
  by rewrite !fmap_cons, Hu, IH.
Qed.

Lemma pool_entries_distinct (is_ : list nat) (us : list User) :
  NoDup is_ → Forall2 pool_entry is_ us → NoDup (u_user_id <$> us).
Proof.
  intros Hnd H. rewrite (pool_entries_ids _ _ H).
  apply NoDup_fmap_2; [|done]. intros i j. apply user_id_inj.
Qed.

(** X15.  [_build_user_pool] always returns; the pool has one user for each
    index below [num_users], in order, the user of index [i] with the
    user id U and the seven-digit [i], a profile id that ends in a number
    from 1 to 5, and device type, location and tier from their tables;
    and no two users of the pool share a user id. *)
Theorem build_user_pool_entries (num_users : nat) st :
  ∃ us st', _build_user_pool R num_users st = (Return us, st') ∧
            Forall2 pool_entry (seq 0 num_users) us ∧
            NoDup (u_user_id <$> us).
Proof.
  destruct (build_users_returns R (seq 0 num_users) [] st) as (us & st' & H & _).
  exists us, st'. split; [exact H|].
  apply build_users_entries in H as (new & -> & Hnew). cbn [app].
  split; [done|]. eapply pool_entries_distinct; [apply NoDup_seq|done].
Qed.

Lemma init_pool (eps : Z) (n : nat) (dry : bool) st st' (g : NetflixEventGenerator) :
  init R eps n dry st = (Return g, st') →
  Forall2 pool_entry (seq 0 n) (users g) ∧ NoDup (u_user_id <$> users g).
Proof.
  unfold init, _build_user_pool. intros H. do 2 bind_step H. apply ret_inv in H as <-.
  cbn [users]. apply build_users_entries in Ha as (new & -> & Hnew). cbn [app].
  split; [done|]. eapply pool_entries_distinct; [apply NoDup_seq|done].
Qed.

(** X16.  Two events of one generator with the same user id are of the same
    user: they agree on profile, device type, device id, location and
    subscription tier. *)
Theorem generated_events_same_viewer (eps : Z) (n : nat) (dry : bool) st0 st1 sa sa' sb sb'
    (g : NetflixEventGenerator) (e1 e2 : StreamingEvent) :
  init R eps n dry st0 = (Return g, st1) →
  _generate_event R g sa = (Return e1, sa') →
  _generate_event R g sb = (Return e2, sb') →
  user_id e1 = user_id e2 → same_viewer e1 e2.
Proof.
  intros Hg H1 H2 Hid.
  destruct (init_pool _ _ _ _ _ _ Hg) as [_ Hnd].
  destruct (generate_event_of_user R g sa sa' e1 H1) as (u1 & Hu1 & U1).
  destruct (generate_event_of_user R g sb sb' e2 H2) as (u2 & Hu2 & U2).
  destruct U1 as (I1 & P1 & D1 & V1 & L1 & T1), U2 as (I2 & P2 & D2 & V2 & L2 & T2).
  assert (u1 = u2) as <-.
  { apply list_elem_of_lookup in Hu1 as [i Hi], Hu2 as [j Hj].
    assert (i = j) as <-; [|congruence].
    eapply NoDup_lookup; [exact Hnd| |]; rewrite list_lookup_fmap.
    - by rewrite Hi.
    - rewrite Hj. cbn. congruence. }
  unfold same_viewer. repeat split; congruence.
Qed.

End PoolMore.

(** ** Batches of events *)

Section BatchesMore.
Context (R : Runtime).
Implicit Types (st : State R).

Lemma generate_batch_total (g : NetflixEventGenerator) (size : nat) st :
  users g ≠ [] → Forall user_shape (users g) →
  ∃ es st', generate_batch R g size st = (Return es, st') ∧
            length es = size ∧ Forall (fun e => validate e = inr true) es.
Proof.
  intros Hne Hpool. revert st. induction size as [|size IH]; intros st.
  - exists [], st. by repeat split.
  - cbn [generate_batch].
    destruct (generate_event_returns R g st Hne Hpool) as (e & st1 & He).
    rewrite (bind_intro _ _ _ _ _ _ He).
    destruct (IH st1) as (es & st' & Hes & Hlen & Hall).
    rewrite (bind_intro _ _ _ _ _ _ Hes).
    exists (e :: es), st'. split; [done|]. split; [cbn; by rewrite Hlen|].
    constructor; [|done]. by eapply generate_event_valid.
Qed.

(** X17.  A generator built with at least one user returns, for every size
    and from every state, a batch of exactly that many events, each of
    which passes [validate]. *)
Theorem generate_batch_returns (eps : Z) (n : nat) (dry : bool) st0 st1
    (g : NetflixEventGenerator) (size : nat) st :
  init R eps (S n) dry st0 = (Return g, st1) →
  ∃ es st', generate_batch R g size st = (Return es, st') ∧
            length es = size ∧ Forall (fun e => validate e = inr true) es.
Proof.
  intros Hg. apply generate_batch_total.
  - destruct (init_returns R eps (S n) dry st0) as (g' & st1' & Hg' & Hlen).
    rewrite Hg in Hg'. injection Hg' as <- _. by destruct (users g).
  - by eapply init_users_shape.
Qed.

(** X18.  The constructor accepts a pool of no user; the generator it returns
    gives the empty batch for size 0 and raises IndexError for every
    other size, before it draws anything. *)
Theorem generate_batch_empty_pool (eps : Z) (dry : bool) st0 :
  ∃ g st1, init R eps 0 dry st0 = (Return g, st1) ∧
    ∀ st, generate_batch R g 0 st = (Return [], st) ∧
          ∀ size, generate_batch R g (S size) st = (Raise IndexError, st).
Proof.
  eexists _, _. split; [reflexivity|]. intros st. split; [reflexivity|].
  intros size. reflexivity.
Qed.

End BatchesMore.

Lemma generate_start_event :
  (_generate_event (Ref.runtime true) one_user_generator (scripted_state start_script)).1
  = Return start_event.
Proof. vm_compute. reflexivity. Qed.

Lemma generated_events_same_viewer_witness :
  ∃ st1 sa' sb',
    init (Ref.runtime true) 100 1 true (scripted_state pool_script)
      = (Return one_user_generator, st1) ∧
    _generate_event (Ref.runtime true) one_user_generator (scripted_state buffer_script)
      = (Return bound_event, sa') ∧
    _generate_event (Ref.runtime true) one_user_generator (scripted_state start_script)
      = (Return start_event, sb') ∧
    user_id bound_event = user_id start_event ∧
    same_viewer bound_event start_event.
Proof.
  assert (user_id bound_event = user_id start_event) as Hid by (vm_compute; reflexivity).
  eexists _, _, _.
  split; [exact (pair_eta_fst _ _ init_one_user)|].
  split; [exact (pair_eta_fst _ _ generate_bound_event)|].
  split; [exact (pair_eta_fst _ _ generate_start_event)|].
  split; [exact Hid|].
  exact (generated_events_same_viewer (Ref.runtime true) 100 1 true _ _ _ _ _ _ _ _ _
           (pair_eta_fst _ _ init_one_user) (pair_eta_fst _ _ generate_bound_event)
           (pair_eta_fst _ _ generate_start_event) Hid).
Defined.

(** The two events of the example differ in kind. *)
Example start_event_type :
  event_type start_event = "video_start" ∧ event_type bound_event = "buffer_event".
Proof. split; vm_compute; reflexivity. Qed.

Lemma generate_batch_returns_witness :
  ∃ st1,
    init (Ref.runtime true) 100 1 true (scripted_state pool_script)
      = (Return one_user_generator, st1) ∧
    ∃ es st', generate_batch (Ref.runtime true) one_user_generator 3
                (scripted_state buffer_script) = (Return es, st') ∧
              length es = 3%nat ∧ Forall (fun e => validate e = inr true) es.
Proof.
  eexists.
  split; [exact (pair_eta_fst _ _ init_one_user)|].
  exact (generate_batch_returns (Ref.runtime true) 100 0 true _ _ _ 3 _
           (pair_eta_fst _ _ init_one_user)).
Defined.

(** ** Publishing *)

Section PublisherMore.
Context (R : Runtime) (producer : EventHubProducerClient R).
Implicit Types (s : Wire R).

Lemma P_bind_inv {A B} (m : P R A) (f : A → P R B) s s' (b : B) :
  (m ≫= f) s = (Return b, s') → ∃ a s1, m s = (Return a, s1) ∧ f a s1 = (Return b, s').
Proof.
  unfold mbind, P_bind. destruct (m s) as [[a|e] s1]; [|done]. intros H. by exists a, s1.
Qed.

Lemma P_bind_intro {A B} (m : P R A) (f : A → P R B) s s1 (a : A) :
  m s = (Return a, s1) → (m ≫= f) s = f a s1.
Proof. intros H. unfold mbind, P_bind. by rewrite H. Qed.

Lemma P_bind_raise {A B} (m : P R A) (f : A → P R B) s s1 (e : exn) :
  m s = (Raise e, s1) → (m ≫= f) s = (Raise e, s1).
Proof. intros H. unfold mbind, P_bind. by rewrite H. Qed.

Lemma await_send_batch_inv (batch : list string) s s' (u : unit) :
  await_send_batch R producer batch s = (Return u, s') → sent s' = sent s ++ [batch].
Proof.
  unfold await_send_batch. destruct (send_batch_call _ _ _) as [[e|] w]; [done|].
  by intros [= _ <-].
Qed.

Lemma await_create_batch_inv s s' (batch : list string) :
  await_create_batch R producer s = (Return batch, s') → batch = [] ∧ sent s' = sent s.
Proof.
  unfold await_create_batch. destruct (create_batch _ _) as [[e|] w]; [done|].
  by intros [= <- <-].
Qed.

Lemma batch_add_inv (batch : list string) (data : string) s s' (batch' : list string) :
  batch_add R producer batch data s = (Return batch', s') →
  batch' = batch ++ [data] ∧ s' = s.
Proof. unfold batch_add. destruct (fits _ _ _); [|done]. by intros [= <- <-]. Qed.

(** What one turn keeps: the data sent so far followed by the data in
    the batch at hand are the data handled so far. *)
Lemma publish_event_inv (event : StreamingEvent) (batch batch' : list string)
    (added added' : nat) s s' :
  publish_event R producer event (batch, added) s = (Return (batch', added'), s') →
  added' = S added ∧
  concat (sent s') ++ batch' = concat (sent s) ++ batch ++ [to_json R event].
Proof.
  unfold publish_event, P_try.
  destruct (batch_add R producer batch (to_json R event) s) as [[b|e] s1] eqn:Hadd.
  - rewrite (P_bind_intro _ _ _ _ _ Hadd). intros [= <- <- <-].
    by apply batch_add_inv in Hadd as [-> ->].
  - rewrite (P_bind_raise _ _ _ _ _ Hadd).
    destruct (is_ValueError e); [|done]. intros H.
    apply P_bind_inv in H as (u & s2 & Hsend & H).
    apply P_bind_inv in H as (b0 & s3 & Hnew & H).
    apply P_bind_inv in H as (b1 & s4 & Hadd2 & H).
    injection H as <- <- <-.
    apply await_send_batch_inv in Hsend. apply await_create_batch_inv in Hnew as [-> Hs3].
    apply batch_add_inv in Hadd2 as [-> ->].
    unfold batch_add in Hadd. destruct (fits _ _ _); [done|]. injection Hadd as _ <-.
    split; [done|]. rewrite Hs3, Hsend, concat_app. cbn. by rewrite app_nil_r, <- app_assoc.
Qed.

Lemma for_publish_inv (events : list StreamingEvent) (batch batch' : list string)
    (added added' : nat) s s' :
  for_publish R producer events (batch, added) s = (Return (batch', added'), s') →
  added' = (added + length events)%nat ∧
  concat (sent s') ++ batch' = concat (sent s) ++ batch ++ (to_json R <$> events) ∧
  (events = [] → sent s' = sent s).
Proof.
  revert batch added s. induction events as [|event events IH]; intros batch added s H.
  - injection H as <- <- <-. cbn. split; [lia|]. by rewrite app_nil_r.
  - cbn [for_publish] in H. apply P_bind_inv in H as ([b1 a1] & s1 & H1 & H).
    apply publish_event_inv in H1 as [-> H1]. apply IH in H as (-> & H & _).
    split; [cbn; lia|]. split; [|done].
    rewrite H, app_assoc, H1, fmap_cons, <- !app_assoc. done.
Qed.

Lemma publish_batch_sent (events : list StreamingEvent) s s' (added : nat) :
  _publish_batch R producer events s = (Return added, s') →
  added = length events ∧
  concat (sent s') = concat (sent s) ++ (to_json R <$> events) ∧
  (events = [] → sent s' = sent s).
Proof.
  unfold _publish_batch. intros H.
  apply P_bind_inv in H as (b0 & s0 & Hnew & H).
  apply P_bind_inv in H as ([batch n] & s1 & Hloop & H).
  apply await_create_batch_inv in Hnew as [-> Hs0].
  apply for_publish_inv in Hloop as (Hn & Hsent & Hnil). cbn [fst snd] in H.
  rewrite Hs0 in Hsent, Hnil. cbn in Hn. subst n.
  destruct events as [|event events].
  - injection H as <- <-. specialize (Hnil eq_refl). rewrite Hnil.
    split; [done|]. cbn. by rewrite app_nil_r.
  - cbn [length] in H. apply P_bind_inv in H as (u & s2 & Hsend & H).
    injection H as <- <-. apply await_send_batch_inv in Hsend.
    split; [done|]. split; [|done].
    rewrite Hsend, concat_app. cbn. by rewrite app_nil_r.
Qed.

(** X19.  Whenever [_publish_batch] returns, it returns the number of the
    events it was given, and the batches the hub has taken since the
    call hold the wire forms of these events, each once and in their
    order; given no event, it sends nothing. *)
Theorem publish_batch_delivers (events : list StreamingEvent) s s' (added : nat) :
  _publish_batch R producer events s = (Return added, s') →
  added = length events ∧
  concat (sent s') = concat (sent s) ++ (to_json R <$> events) ∧
  (events = [] → sent s' = sent s).
Proof. apply publish_batch_sent. Qed.

Lemma await_send_batch_reliable (batch : list string) s :
  reliable producer → ∃ s', await_send_batch R producer batch s = (Return tt, s').
Proof.
  intros [_ Hsend]. unfold await_send_batch. specialize (Hsend batch (world (host s))).
  destruct (send_batch_call _ _ _) as [failure w]. cbn in Hsend. subst failure. by eexists.
Qed.

Lemma await_create_batch_reliable s :
  reliable producer → ∃ s', await_create_batch R producer s = (Return [], s').
Proof.
  intros [Hnew _]. unfold await_create_batch. specialize (Hnew (world (host s))).
  destruct (create_batch _ _) as [failure w]. cbn in Hnew. subst failure. by eexists.
Qed.

Lemma publish_event_reliable (event : StreamingEvent) (vars : list string * nat) s :
  reliable producer → fits_alone producer event →
  ∃ vars' s', publish_event R producer event vars s = (Return vars', s').
Proof.
  intros Hrel Hfit. destruct vars as [batch added]. unfold publish_event, P_try.
  unfold batch_add at 1. unfold mbind at 1, P_bind at 1.
  destruct (fits producer batch (to_json R event)); [by eexists _, _|].
  cbn [is_ValueError].
  destruct (await_send_batch_reliable batch s Hrel) as (s1 & H1).
  rewrite (P_bind_intro _ _ _ _ _ H1).
  destruct (await_create_batch_reliable s1 Hrel) as (s2 & H2).
  rewrite (P_bind_intro _ _ _ _ _ H2).
  unfold batch_add, mbind, P_bind. unfold fits_alone in Hfit. rewrite Hfit. by eexists _, _.
Qed.

Lemma for_publish_reliable (events : list StreamingEvent) (vars : list string * nat) s :
  reliable producer → Forall (fits_alone producer) events →
  ∃ vars' s', for_publish R producer events vars s = (Return vars', s').
Proof.
  intros Hrel Hfit. revert vars s.
  induction Hfit as [|event events Hev _ IH]; intros vars s; [by eexists _, _|].
  cbn [for_publish].
  destruct (publish_event_reliable event vars s Hrel Hev) as (vars1 & s1 & H1).
  rewrite (P_bind_intro _ _ _ _ _ H1). apply IH.
Qed.

Lemma publish_batch_total (events : list StreamingEvent) s :
  reliable producer → Forall (fits_alone producer) events →
  ∃ s', _publish_batch R producer events s = (Return (length events), s').
Proof.
  intros Hrel Hfit.
  assert (∃ added s', _publish_batch R producer events s = (Return added, s'))
    as (added & s' & H).
  { unfold _publish_batch.
    destruct (await_create_batch_reliable s Hrel) as (s0 & H0).
    rewrite (P_bind_intro _ _ _ _ _ H0).
    destruct (for_publish_reliable events ([], O) s0 Hrel Hfit) as ([batch n] & s1 & H1).
    rewrite (P_bind_intro _ _ _ _ _ H1). cbn [fst snd].
    destruct n as [|n]; [by eexists _, _|].
    destruct (await_send_batch_reliable batch s1 Hrel) as (s2 & H2).
    rewrite (P_bind_intro _ _ _ _ _ H2). by eexists _, _. }
  exists s'. rewrite H. f_equal. f_equal.
  unfold _publish_batch in H.
  apply P_bind_inv in H as (b0 & s0 & Hnew & H).
  apply P_bind_inv in H as ([batch n] & s1 & Hloop & H).
  apply for_publish_inv in Hloop as (Hn & _). cbn [fst snd] in H. cbn in Hn. subst n.
  destruct events as [|event events]; [by injection H as <- _|].
  cbn [length] in H. apply P_bind_inv in H as (u & s2 & _ & H). by injection H as <- _.
Qed.

(** X20.  With a producer whose awaited calls succeed, and events that each
    fit into an empty batch, [_publish_batch] returns. *)
Theorem publish_batch_returns (events : list StreamingEvent) s :
  reliable producer → Forall (fits_alone producer) events →
  ∃ s', _publish_batch R producer events s = (Return (length events), s').
Proof. apply publish_batch_total. Qed.

Lemma for_publish_app (pre rest : list StreamingEvent) (vars vars' : list string * nat) s s1 :
  for_publish R producer pre vars s = (Return vars', s1) →
  for_publish R producer (pre ++ rest) vars s = for_publish R producer rest vars' s1.
Proof.
  revert vars s. induction pre as [|event pre IH]; intros vars s H.
  - by injection H as <- <-.
  - cbn [for_publish app] in *. apply P_bind_inv in H as (v1 & s2 & H1 & H).
    rewrite (P_bind_intro _ _ _ _ _ H1). by apply IH.
Qed.

Lemma publish_batch_refused (pre rest : list StreamingEvent) (event : StreamingEvent) s :
  reliable producer → Forall (fits_alone producer) pre → oversized producer event →
  ∃ s', _publish_batch R producer (pre ++ event :: rest) s = (Raise ValueError, s') ∧
        concat (sent s') = concat (sent s) ++ (to_json R <$> pre) ∧
        (pre = [] → sent s' = sent s ++ [[]]).
Proof.
  intros Hrel Hfit Hbig. unfold _publish_batch.
  destruct (await_create_batch_reliable s Hrel) as (s0 & H0).
  rewrite (P_bind_intro _ _ _ _ _ H0).
  apply await_create_batch_inv in H0 as [_ Hs0].
  destruct (for_publish_reliable pre ([], O) s0 Hrel Hfit) as ([batch n] & s1 & H1).
  destruct (await_send_batch_reliable batch s1 Hrel) as (s2 & H2).
  destruct (await_create_batch_reliable s2 Hrel) as (s3 & H3).
  assert (for_publish R producer (pre ++ event :: rest) ([], O) s0 = (Raise ValueError, s3))
    as Hloop.
  { rewrite (for_publish_app _ (event :: rest) _ _ _ _ H1).
    cbn [for_publish]. apply P_bind_raise.
    unfold publish_event, P_try.
    unfold batch_add at 1. unfold mbind at 1, P_bind at 1. rewrite (Hbig batch).
    cbn [is_ValueError].
    rewrite (P_bind_intro _ _ _ _ _ H2), (P_bind_intro _ _ _ _ _ H3).
    unfold batch_add, mbind, P_bind. by rewrite (Hbig []). }
  rewrite (P_bind_raise _ _ _ _ _ Hloop).
  apply for_publish_inv in H1 as (_ & Hsent & Hnil). rewrite Hs0 in Hsent, Hnil.
  apply await_send_batch_inv in H2. apply await_create_batch_inv in H3 as [_ Hs3].
  exists s3. split; [done|]. rewrite Hs3, H2.
  split.
  - rewrite concat_app. cbn. by rewrite app_nil_r.
  - intros ->. specialize (Hnil eq_refl). rewrite Hnil in *. cbn in Hsent.
    apply app_inv_head in Hsent. by subst batch.
Qed.

(** X21.  An event that no batch takes ends the call with ValueError, after
    the events before it have been sent, each once and in their order:
    their number is not reported, and the events after it are not sent.
    When it is the first event, an empty batch is sent. *)
Theorem publish_batch_oversized (pre rest : list StreamingEvent) (event : StreamingEvent) s :
  reliable producer → Forall (fits_alone producer) pre → oversized producer event →
  ∃ s', _publish_batch R producer (pre ++ event :: rest) s = (Raise ValueError, s') ∧
        concat (sent s') = concat (sent s) ++ (to_json R <$> pre) ∧
        (pre = [] → sent s' = sent s ++ [[]]).
Proof. apply publish_batch_refused. Qed.

End PublisherMore.

Lemma bounded_producer_reliable (limit : N) : reliable (bounded_producer limit).
Proof. by split. Qed.

Lemma publish_two_events :
  (_publish_batch (Ref.runtime true) (bounded_producer 1000) [bound_event; start_event]
     fresh_wire).1 = Return 2%nat.
Proof. vm_compute. reflexivity. Qed.

Lemma publish_batch_delivers_witness :
  ∃ s',
    _publish_batch (Ref.runtime true) (bounded_producer 1000) [bound_event; start_event]
      fresh_wire = (Return 2%nat, s') ∧
    2%nat = length [bound_event; start_event] ∧
    concat (sent s')
    = concat (sent fresh_wire) ++ (to_json (Ref.runtime true) <$> [bound_event; start_event]) ∧
    ([bound_event; start_event] = [] → sent s' = sent fresh_wire).
Proof.
  eexists.
  split; [exact (pair_eta_fst _ _ publish_two_events)|].
  exact (publish_batch_delivers (Ref.runtime true) (bounded_producer 1000) _ _ _ _
           (pair_eta_fst _ _ publish_two_events)).
Defined.

(** The two events of the example do not fit into one batch of 1000
    bytes: the first is sent when the second is refused. *)
Example publish_two_batches :
  sent (_publish_batch (Ref.runtime true) (bounded_producer 1000) [bound_event; start_event]
          fresh_wire).2
  = [ [to_json (Ref.runtime true) bound_event]; [to_json (Ref.runtime true) start_event] ].
Proof. vm_compute. reflexivity. Qed.

Lemma fits_alone_1000 :
  Forall (fits_alone (bounded_producer 1000)) [bound_event; start_event].
Proof. repeat constructor; vm_compute; reflexivity. Qed.

Lemma publish_batch_returns_witness :
  reliable (bounded_producer 1000) ∧
  Forall (fits_alone (bounded_producer 1000)) [bound_event; start_event] ∧
  ∃ s', _publish_batch (Ref.runtime true) (bounded_producer 1000) [bound_event; start_event]
          fresh_wire = (Return (length [bound_event; start_event]), s').
Proof.
  split; [exact (bounded_producer_reliable 1000)|]. split; [exact fits_alone_1000|].
  exact (publish_batch_returns (Ref.runtime true) (bounded_producer 1000) _ fresh_wire
           (bounded_producer_reliable 1000) fits_alone_1000).
Defined.

Lemma bound_event_oversized : oversized (bounded_producer 750) bound_event.
Proof.
  intros batch. unfold bounded_producer, fits.
  assert (byte_len (to_json (Ref.runtime true) bound_event) = 761%N) as ->
    by (vm_compute; reflexivity).
  apply N.leb_gt. lia.
Qed.

Lemma start_event_fits_alone : Forall (fits_alone (bounded_producer 750)) [start_event].
Proof. repeat constructor; vm_compute; reflexivity. Qed.

Lemma publish_batch_oversized_witness :
  reliable (bounded_producer 750) ∧
  Forall (fits_alone (bounded_producer 750)) [start_event] ∧
  oversized (bounded_producer 750) bound_event ∧
  ∃ s', _publish_batch (Ref.runtime true) (bounded_producer 750)
          ([start_event] ++ bound_event :: [start_event]) fresh_wire
        = (Raise ValueError, s') ∧
        concat (sent s')
        = concat (sent fresh_wire) ++ (to_json (Ref.runtime true) <$> [start_event]) ∧
        ([start_event] = [] → sent s' = sent fresh_wire ++ [[]]).
Proof.
  split; [exact (bounded_producer_reliable 750)|].
  split; [exact start_event_fits_alone|]. split; [exact bound_event_oversized|].
  exact (publish_batch_oversized (Ref.runtime true) (bounded_producer 750)
           [start_event] [start_event] bound_event fresh_wire
           (bounded_producer_reliable 750) start_event_fits_alone bound_event_oversized).
Defined.

(** ** The publish loop *)

(** X22.  The loop sends ten batches a second: at least ten events a second
    whatever the rate asked for, and otherwise the rate asked for rounded
    down to a multiple of ten. *)
Theorem batch_size_bounds (events_per_second : Z) :
  1 ≤ batch_size events_per_second ∧
  (events_per_second < 20 → batch_size events_per_second = 1) ∧
  (10 ≤ events_per_second →
   10 * batch_size events_per_second ≤ events_per_second
   < 10 * batch_size events_per_second + 10).
Proof.
  unfold batch_size.
  pose proof (Z.div_mod events_per_second 10 ltac:(lia)) as Hdm.
  pose proof (Z.mod_pos_bound events_per_second 10 ltac:(lia)) as Hm.
  set (q := events_per_second `div` 10) in *. set (r := events_per_second `mod` 10) in *.
  lia.
Qed.

Lemma batch_size_positive (events_per_second : Z) : 1 ≤ batch_size events_per_second.
Proof. unfold batch_size. lia. Qed.

Section PublishLoopMore.
Context (R : Runtime) (producer : EventHubProducerClient R).
Implicit Types (s : Wire R).

Lemma on_host_returns {A} (m : M R A) (a : A) s st' :
  m (host s) = (Return a, st') → on_host R m s = (Return a, mkWire st' (sent s)).
Proof. intros H. unfold on_host. by rewrite H. Qed.

Lemma on_host_raises {A} (m : M R A) (e : exn) s st' :
  m (host s) = (Raise e, st') → on_host R m s = (Raise e, mkWire st' (sent s)).
Proof. intros H. unfold on_host. by rewrite H. Qed.

(** X23.  Once the batch is generated, the turn returns whatever the
    publishing does: either the events are all sent, each once and in
    their order, and counted, or an error is counted and none of the
    events, though those sent before the failure have reached the hub. *)
Theorem publish_and_count_after_generation (self : NetflixEventGenerator) (stats : Stats)
    (events : list StreamingEvent) s st' :
  generate_batch R self (Z.to_nat (batch_size (events_per_second self))) (host s)
    = (Return events, st') →
  ∃ stats' s', publish_and_count R producer self stats s = (Return stats', s') ∧
    ((stats' = mkStats (_total_sent stats + length events) (_errors stats) ∧
      concat (sent s') = concat (sent s) ++ (to_json R <$> events)) ∨
     (stats' = mkStats (_total_sent stats) (S (_errors stats)) ∧
      ∃ e s1, _publish_batch R producer events (mkWire st' (sent s)) = (Raise e, s1) ∧
              sent s' = sent s1)).
Proof.
  intros Hgen. unfold publish_and_count.
  rewrite (P_bind_intro _ _ _ _ _ _ (on_host_returns _ _ _ _ Hgen)).
  unfold P_try.
  destruct (_publish_batch R producer events (mkWire st' (sent s))) as [[n|e] s1] eqn:Hpub.
  - rewrite (P_bind_intro _ _ _ _ _ _ Hpub).
    apply publish_batch_sent in Hpub as (-> & Hsent & _).
    eexists _, _. split; [reflexivity|]. left. by split.
  - rewrite (P_bind_raise _ _ _ _ _ _ Hpub). cbn [Exception].
    eexists _, _. split; [reflexivity|]. right. split; [done|]. by exists e, s1.
Qed.

(** X24.  With a producer whose awaited calls succeed and which takes every
    event into an empty batch, a generator built with at least one user
    completes the turn: [batch_size] events are generated, sent and
    counted, and no error is counted. *)
Theorem publish_and_count_succeeds (eps : Z) (n : nat) (dry : bool) st0 st1
    (self : NetflixEventGenerator) (stats : Stats) s :
  init R eps (S n) dry st0 = (Return self, st1) →
  reliable producer → (∀ e, fits_alone producer e) →
  ∃ events s',
    publish_and_count R producer self stats s
    = (Return (mkStats (_total_sent stats + Z.to_nat (batch_size eps)) (_errors stats)), s') ∧
    length events = Z.to_nat (batch_size eps) ∧
    concat (sent s') = concat (sent s) ++ (to_json R <$> events).
Proof.
  intros Hinit Hrel Hfit.
  assert (events_per_second self = eps) as Heps.
  { unfold init in Hinit. do 2 bind_step Hinit. by apply ret_inv in Hinit as <-. }
  destruct (generate_batch_total R self (Z.to_nat (batch_size eps)) (host s))
    as (events & st' & Hgen & Hlen & _).
  { destruct (init_returns R eps (S n) dry st0) as (g' & st1' & Hg' & Hl).
    rewrite Hinit in Hg'. injection Hg' as <- _. by destruct (users self). }
  { by eapply init_users_shape. }
  destruct (publish_batch_total R producer events (mkWire st' (sent s)) Hrel)
    as (s' & Hpub); [by apply Forall_forall|].
  exists events, s'. unfold publish_and_count. rewrite Heps.
  rewrite (P_bind_intro _ _ _ _ _ _ (on_host_returns _ _ _ _ Hgen)).
  unfold P_try. rewrite (P_bind_intro _ _ _ _ _ _ Hpub). rewrite Hlen.
  split; [done|]. split; [done|].
  by apply publish_batch_sent in Hpub as (_ & Hsent & _).
Qed.

(** X25.  An event of the batch that no batch takes makes the turn count one
    error and no event, while the events before it have been sent. *)
Theorem publish_and_count_undercounts (self : NetflixEventGenerator) (stats : Stats)
    (pre rest : list StreamingEvent) (event : StreamingEvent) s st' :
  generate_batch R self (Z.to_nat (batch_size (events_per_second self))) (host s)
    = (Return (pre ++ event :: rest), st') →
  reliable producer → Forall (fits_alone producer) pre → oversized producer event →
  ∃ s', publish_and_count R producer self stats s
        = (Return (mkStats (_total_sent stats) (S (_errors stats))), s') ∧
        concat (sent s') = concat (sent s) ++ (to_json R <$> pre).
Proof.
  intros Hgen Hrel Hfit Hbig. unfold publish_and_count.
  rewrite (P_bind_intro _ _ _ _ _ _ (on_host_returns _ _ _ _ Hgen)).
  destruct (publish_batch_refused R producer pre rest event (mkWire st' (sent s))
              Hrel Hfit Hbig) as (s1 & Hpub & Hsent & _).
  unfold P_try. rewrite (P_bind_raise _ _ _ _ _ _ Hpub). cbn [Exception].
  eexists. split; [reflexivity|]. exact Hsent.
Qed.

(** X26.  A generator built with no user cannot take a turn: the generation
    raises IndexError, which the turn does not handle, and nothing is
    sent or counted. *)
Theorem publish_and_count_empty_pool (eps : Z) (dry : bool) st0 st1
    (self : NetflixEventGenerator) (stats : Stats) s :
  init R eps 0 dry st0 = (Return self, st1) →
  publish_and_count R producer self stats s = (Raise IndexError, s).
Proof.
  intros Hinit.
  assert (users self = []) as Hnil.
  { unfold init, _build_user_pool in Hinit. do 2 bind_step Hinit.
    apply ret_inv in Hinit as <-. by apply ret_inv in Ha as <-. }
  pose proof (batch_size_positive (events_per_second self)) as Hpos.
  destruct (Z.to_nat (batch_size (events_per_second self))) as [|k] eqn:Hk; [lia|].
  unfold publish_and_count. rewrite Hk.
  apply P_bind_raise. destruct s as [st sent]. unfold on_host. cbn [host].
  cbn [generate_batch]. unfold _generate_event. rewrite Hnil. reflexivity.
Qed.

End PublishLoopMore.

Lemma generate_two_kinds :
  (generate_batch (Ref.runtime true) slow_generator
     (Z.to_nat (batch_size (events_per_second slow_generator)))
     (host two_kinds_wire)).1
  = Return ([first_of_two] ++ second_of_two :: []).
Proof. vm_compute. reflexivity. Qed.

(** The batch of the example: a video_start and then a buffer_event,
    whose wire form is the longer one. *)
Example two_kinds_batch_events :
  event_type first_of_two = "video_start" ∧ event_type second_of_two = "buffer_event" ∧
  byte_len (to_json (Ref.runtime true) first_of_two) = 731%N ∧
  byte_len (to_json (Ref.runtime true) second_of_two) = 761%N.
Proof. repeat split; vm_compute; reflexivity. Qed.

Lemma publish_and_count_after_generation_witness :
  ∃ st',
    generate_batch (Ref.runtime true) slow_generator
      (Z.to_nat (batch_size (events_per_second slow_generator))) (host two_kinds_wire)
    = (Return ([first_of_two] ++ second_of_two :: []), st') ∧
    ∃ stats' s',
      publish_and_count (Ref.runtime true) (counting_producer 1) slow_generator
        (mkStats 0 0) two_kinds_wire = (Return stats', s') ∧
      ((stats' = mkStats (_total_sent (mkStats 0 0)
                          + length ([first_of_two] ++ second_of_two :: []))
                         (_errors (mkStats 0 0)) ∧
        concat (sent s')
        = concat (sent two_kinds_wire)
          ++ (to_json (Ref.runtime true) <$> [first_of_two] ++ second_of_two :: [])) ∨
       (stats' = mkStats (_total_sent (mkStats 0 0)) (S (_errors (mkStats 0 0))) ∧
        ∃ e s1, _publish_batch (Ref.runtime true) (counting_producer 1)
                  ([first_of_two] ++ second_of_two :: [])
                  (mkWire st' (sent two_kinds_wire)) = (Raise e, s1) ∧
                sent s' = sent s1)).
Proof.
  eexists.
  split; [exact (pair_eta_fst _ _ generate_two_kinds)|].
  exact (publish_and_count_after_generation (Ref.runtime true) (counting_producer 1)
           slow_generator (mkStats 0 0) _ two_kinds_wire _
           (pair_eta_fst _ _ generate_two_kinds)).
Defined.

Lemma counting_producer_reliable (k : nat) : reliable (counting_producer k).
Proof. by split. Qed.

Lemma counting_producer_fits_alone (e : StreamingEvent) : fits_alone (counting_producer 3) e.
Proof. reflexivity. Qed.

Lemma publish_and_count_succeeds_witness :
  ∃ st1,
    init (Ref.runtime true) 100 1 true (scripted_state pool_script)
      = (Return one_user_generator, st1) ∧
    reliable (counting_producer 3) ∧
    (∀ e, fits_alone (counting_producer 3) e) ∧
    ∃ events s',
      publish_and_count (Ref.runtime true) (counting_producer 3) one_user_generator
        (mkStats 40 2) two_kinds_wire
      = (Return (mkStats (_total_sent (mkStats 40 2) + Z.to_nat (batch_size 100))
                         (_errors (mkStats 40 2))), s') ∧
      length events = Z.to_nat (batch_size 100) ∧
      concat (sent s')
      = concat (sent two_kinds_wire) ++ (to_json (Ref.runtime true) <$> events).
Proof.
  eexists.
  split; [exact (pair_eta_fst _ _ init_one_user)|].
  split; [exact (counting_producer_reliable 3)|].
  split; [exact counting_producer_fits_alone|].
  exact (publish_and_count_succeeds (Ref.runtime true) (counting_producer 3) 100 0 true
           _ _ one_user_generator (mkStats 40 2) two_kinds_wire
           (pair_eta_fst _ _ init_one_user) (counting_producer_reliable 3)
           counting_producer_fits_alone).
Defined.

(** In the example the ten events go out in batches of three, three,
    three and one. *)
Example publish_and_count_batches :
  length <$> sent (publish_and_count (Ref.runtime true) (counting_producer 3)
                     one_user_generator (mkStats 40 2) two_kinds_wire).2
  = [3; 3; 3; 1]%nat.
Proof. vm_compute. reflexivity. Qed.

Lemma first_of_two_fits_alone : Forall (fits_alone (bounded_producer 750)) [first_of_two].
Proof. repeat constructor; vm_compute; reflexivity. Qed.

Lemma second_of_two_oversized : oversized (bounded_producer 750) second_of_two.
Proof.
  intros batch. unfold bounded_producer, fits.
  assert (byte_len (to_json (Ref.runtime true) second_of_two) = 761%N) as ->
    by (vm_compute; reflexivity).
  apply N.leb_gt. lia.
Qed.

Lemma publish_and_count_undercounts_witness :
  ∃ st',
    generate_batch (Ref.runtime true) slow_generator
      (Z.to_nat (batch_size (events_per_second slow_generator))) (host two_kinds_wire)
    = (Return ([first_of_two] ++ second_of_two :: []), st') ∧
    reliable (bounded_producer 750) ∧
    Forall (fits_alone (bounded_producer 750)) [first_of_two] ∧
    oversized (bounded_producer 750) second_of_two ∧
    ∃ s', publish_and_count (Ref.runtime true) (bounded_producer 750) slow_generator
            (mkStats 40 2) two_kinds_wire
          = (Return (mkStats (_total_sent (mkStats 40 2)) (S (_errors (mkStats 40 2)))), s') ∧
          concat (sent s')
          = concat (sent two_kinds_wire) ++ (to_json (Ref.runtime true) <$> [first_of_two]).
Proof.
  eexists.
  split; [exact (pair_eta_fst _ _ generate_two_kinds)|].
  split; [exact (bounded_producer_reliable 750)|].
  split; [exact first_of_two_fits_alone|]. split; [exact second_of_two_oversized|].
  exact (publish_and_count_undercounts (Ref.runtime true) (bounded_producer 750)
           slow_generator (mkStats 40 2) [first_of_two] [] second_of_two two_kinds_wire _
           (pair_eta_fst _ _ generate_two_kinds) (bounded_producer_reliable 750)
           first_of_two_fits_alone second_of_two_oversized).
Defined.

Lemma init_no_user :
  (init (Ref.runtime true) 100 0 true (scripted_state pool_script)).1
  = Return no_user_generator.
Proof. vm_compute. reflexivity. Qed.

Lemma publish_and_count_empty_pool_witness :
  ∃ st1,
    init (Ref.runtime true) 100 0 true (scripted_state pool_script)
      = (Return no_user_generator, st1) ∧
    publish_and_count (Ref.runtime true) (counting_producer 3) no_user_generator
      (mkStats 0 0) two_kinds_wire = (Raise IndexError, two_kinds_wire).
Proof.
  eexists.
  split; [exact (pair_eta_fst _ _ init_no_user)|].
  exact (publish_and_count_empty_pool (Ref.runtime true) (counting_producer 3) 100 true
           _ _ no_user_generator (mkStats 0 0) two_kinds_wire
           (pair_eta_fst _ _ init_no_user)).
Defined.

(** ** The two clients of the processor *)

Section ClientsMore.
Context {CosmosClient DatabaseProxy ContainerProxy ProducerClient : Type}.
Implicit Types (sdk : Sdk CosmosClient DatabaseProxy ContainerProxy ProducerClient).
Implicit Types (g : Globals CosmosClient ContainerProxy ProducerClient).
Implicit Types (environ : gmap string string).

(** X27.  The container client is resolved once: after a call has returned
    it, every later call returns the same client and leaves the module
    variables alone, whatever the environment and the SDK then are. *)
Theorem get_cosmos_container_cached sdk environ g g' (container : ContainerProxy) :
  _get_cosmos_container sdk environ g = (Return container, g') →
  ∀ (sdk' : Sdk CosmosClient DatabaseProxy ContainerProxy ProducerClient) environ',
    _get_cosmos_container sdk' environ' g' = (Return container, g').
Proof.
  unfold _get_cosmos_container at 1.
  destruct (_cosmos_container g) as [c|] eqn:Hc.
  - intros [= <- <-] sdk' environ'. unfold _get_cosmos_container. by rewrite Hc.
  - destruct (environ !! "COSMOS_CONNECTION_STRING") as [conn_str|]; [|done].
    destruct (CosmosClient_from_connection_string sdk conn_str) as [client|]; [|done].
    destruct (get_database_client sdk client _) as [db|]; [|done].
    destruct (get_container_client sdk db _) as [c|]; [|done].
    intros [= <- <-] sdk' environ'. reflexivity.
Qed.

(** X28.  A call that fails to resolve the container client leaves it
    unresolved, so that the next call tries again; it raises KeyError,
    before it reaches the SDK, when the connection string is not set. *)
Theorem get_cosmos_container_failure sdk environ g g' (e : exn) :
  _get_cosmos_container sdk environ g = (Raise e, g') →
  _cosmos_container g' = None ∧ _dlq_producer g' = _dlq_producer g ∧
  (environ !! "COSMOS_CONNECTION_STRING" = None → e = KeyError ∧ g' = g).
Proof.
  unfold _get_cosmos_container.
  destruct (_cosmos_container g) as [c|] eqn:Hc; [done|].
  destruct (environ !! "COSMOS_CONNECTION_STRING") as [conn_str|].
  - destruct (CosmosClient_from_connection_string sdk conn_str) as [client|];
      [|by intros [= <- <-]].
    destruct (get_database_client sdk client _) as [db|]; [|by intros [= <- <-]].
    destruct (get_container_client sdk db _) as [c|]; [done|]. by intros [= <- <-].
  - by intros [= <- <-].
Qed.

(** X29.  The dead-letter producer is resolved once as well; but the answer
    that none is configured is not kept: it is given without a call to
    the SDK exactly as long as the connection string is unset or empty,
    and the module variables stay as they were. *)
Theorem get_dlq_producer_result sdk environ g g' (r : option ProducerClient) :
  _get_dlq_producer sdk environ g = (Return r, g') →
  match r with
  | Some producer =>
      ∀ (sdk' : Sdk CosmosClient DatabaseProxy ContainerProxy ProducerClient) environ',
        _get_dlq_producer sdk' environ' g' = (Return (Some producer), g')
  | None =>
      g' = g ∧ _dlq_producer g = None ∧
      environ_get environ "DEAD_LETTER_EVENTHUB_CONNECTION" EmptyString = EmptyString ∧
      ∀ sdk' : Sdk CosmosClient DatabaseProxy ContainerProxy ProducerClient,
        _get_dlq_producer sdk' environ g = (Return None, g)
  end.
Proof.
  unfold _get_dlq_producer at 1.
  destruct (_dlq_producer g) as [p|] eqn:Hp.
  - intros [= <- <-] sdk' environ'. unfold _get_dlq_producer. by rewrite Hp.
  - destruct (bool_decide (environ_get environ _ _ = EmptyString)) eqn:Hconn; cbn [negb].
    + intros [= <- <-]. apply bool_decide_eq_true in Hconn.
      split; [done|]. split; [done|]. split; [done|].
      intros sdk'. unfold _get_dlq_producer. rewrite Hp, Hconn. reflexivity.
    + destruct (EventHubProducerClient_from_connection_string sdk _ _) as [p|]; [|done].
      intros [= <- <-] sdk' environ'. reflexivity.
Qed.

End ClientsMore.

Lemma get_cosmos_container_cached_witness :
  ∃ container g',
    _get_cosmos_container naming_sdk cosmos_only cold_start = (Return container, g') ∧
    ∀ (sdk' : Sdk string string string string) environ',
      _get_cosmos_container sdk' environ' g' = (Return container, g').
Proof.
  eexists _, _. split; [reflexivity|].
  exact (get_cosmos_container_cached naming_sdk cosmos_only cold_start _ _ eq_refl).
Defined.

(** The client of the example, with the two default names. *)
Example get_cosmos_container_defaults :
  (_get_cosmos_container naming_sdk cosmos_only cold_start).1
  = Return "AccountEndpoint=https://example//netflix-streaming/processed-events".
Proof. vm_compute. reflexivity. Qed.

Lemma get_cosmos_container_failure_witness :
  _get_cosmos_container failing_sdk with_dead_letter cold_start
  = (Raise (OtherError "ServiceRequestError"), cold_start) ∧
  _cosmos_container cold_start = None ∧ _dlq_producer cold_start = _dlq_producer cold_start ∧
  (with_dead_letter !! "COSMOS_CONNECTION_STRING" = None →
   OtherError "ServiceRequestError" = KeyError ∧ cold_start = cold_start).
Proof.
  split; [vm_compute; reflexivity|].
  apply (get_cosmos_container_failure failing_sdk with_dead_letter cold_start).
  vm_compute. reflexivity.
Defined.

Lemma get_dlq_producer_result_witness :
  _get_dlq_producer naming_sdk cosmos_only cold_start = (Return None, cold_start) ∧
  cold_start = cold_start ∧ _dlq_producer cold_start = None ∧
  environ_get cosmos_only "DEAD_LETTER_EVENTHUB_CONNECTION" EmptyString = EmptyString ∧
  ∀ sdk' : Sdk string string string string,
    _get_dlq_producer sdk' cosmos_only cold_start = (Return None, cold_start).
Proof.
  assert (_get_dlq_producer naming_sdk cosmos_only cold_start = (Return None, cold_start))
    as H by (vm_compute; reflexivity).
  split; [exact H|].
  exact (get_dlq_producer_result naming_sdk cosmos_only cold_start cold_start None H).
Defined.

(** Once the connection string is set, the next call builds the
    producer, under the default name of the hub. *)
Example get_dlq_producer_configured :
  (_get_dlq_producer naming_sdk with_dead_letter cold_start).1
  = Return (Some "Endpoint=sb://dlq//netflix-events-dlq").
Proof. vm_compute. reflexivity. Qed.
